(** * Blockly flyout (core/flyout_base.ts): a shallow embedding

    The flyout is a stateful TypeScript class.  Its methods are embedded as
    computations in a state-and-exception monad over a record [World] that
    holds the flyout's fields, the two workspaces it talks to and the global
    event machinery.  Coordinates, scales and sizes are JavaScript numbers,
    that is IEEE 754 binary64 floating-point numbers, with the rounding of
    every operation ([SpecFloat] of the Standard Library).  Gap sizes are
    the integers that [parseInt] reads. *)

From Stdlib Require Import ZArith List String Ascii Bool Lia RelationClasses.
From Stdlib Require Import DecimalString DecimalPos DecimalZ.
From Stdlib Require Import SpecFloat.
Import ListNotations.

Set Warnings "-register-all".

Local Open Scope string_scope.
Local Open Scope list_scope.
Local Open Scope Z_scope.

(** ** JavaScript primitives used by the flyout *)

Module Js.

(** The result of [parseInt]: an integer or [NaN]. *)
Inductive number : Type :=
| NaN : number
| Num : Z -> number.

Definition isNaN (n : number) : bool :=
  match n with NaN => true | Num _ => false end.

(** A property that holds either a number or a string, such as [gap].
    The flyout looks at such a number in two ways only: it tests it for
    truthiness ([if (blockInfo['gap'])]) and it prints it ([toString()]).
    A number is therefore given by these two observations:
    [VNumber false "NaN"], [VNumber true "36.5"], [VNumber true "1e+21"],
    [VNumber true "Infinity"], [VNumber false "0"] (which is both [0] and
    [-0]). *)
Inductive value : Type :=
| VNumber : bool -> string -> value
| VStr : string -> value.

Definition truthy (v : value) : bool :=
  match v with
  | VNumber t _ => t
  | VStr s => negb (String.eqb s "")
  end.

Definition toString (v : value) : string :=
  match v with
  | VNumber _ printed => printed
  | VStr s => s
  end.

(** [Number.isSafeInteger]: the integers that are JavaScript numbers
    together with both their neighbours, [|z| <= 2^53 - 1]. *)
Definition isSafeInteger (z : Z) : bool := Z.abs z <=? 9007199254740991.

(** The decimal numeral of an integer.  This is what
    [Number.prototype.toString] prints for a number that is a safe
    integer; it is not what it prints in general (a larger number is
    printed with its shortest round-trip digits, and in exponent form from
    [1e21]). *)
Definition Z_toString (z : Z) : string :=
  NilZero.string_of_int (Z.to_int z).

(** The number [z], for a safe integer [z]: it is falsy exactly when it is
    0, and it prints as its decimal numeral. *)
Definition VNum (z : Z) (safe : isSafeInteger z = true) : value :=
  VNumber (negb (z =? 0)) (Z_toString z).

(** White space skipped by [parseInt] (the ASCII part of StrWhiteSpaceChar). *)
Definition isWhiteSpace (c : ascii) : bool :=
  match nat_of_ascii c with
  | 9%nat | 10%nat | 11%nat | 12%nat | 13%nat | 32%nat => true
  | _ => false
  end.

Fixpoint trimStart (s : string) : string :=
  match s with
  | String c s' => if isWhiteSpace c then trimStart s' else s
  | EmptyString => EmptyString
  end.

Definition digit (c : ascii) : option (Decimal.uint -> Decimal.uint) :=
  match c with
  | "0"%char => Some Decimal.D0
  | "1"%char => Some Decimal.D1
  | "2"%char => Some Decimal.D2
  | "3"%char => Some Decimal.D3
  | "4"%char => Some Decimal.D4
  | "5"%char => Some Decimal.D5
  | "6"%char => Some Decimal.D6
  | "7"%char => Some Decimal.D7
  | "8"%char => Some Decimal.D8
  | "9"%char => Some Decimal.D9
  | _ => None
  end.

(** The longest prefix of [s] made of decimal digits, as a numeral. *)
Fixpoint digitPrefix (s : string) : Decimal.uint :=
  match s with
  | String c s' =>
      match digit c with
      | Some d => d (digitPrefix s')
      | None => Decimal.Nil
      end
  | EmptyString => Decimal.Nil
  end.

(** [parseInt(s, 10)]: skip leading white space, read an optional sign,
    then the longest run of decimal digits; [NaN] when that run is empty.
    With radix 10 no [0x] prefix is recognised. *)
Definition parseInt (s : string) : number :=
  let t := trimStart s in
  let '(sign, body) :=
    match t with
    | String "-"%char r => (-1, r)
    | String "+"%char r => (1, r)
    | _ => (1, t)
    end in
  match digitPrefix body with
  | Decimal.Nil => NaN
  | u => Num (sign * Z.of_uint u)
  end.

(** [parseInt(x, 10)] on [null] or [undefined]: the argument is first
    converted to the string [null] or [undefined], which has no digits. *)
Definition parseInt_opt (o : option string) : number :=
  match o with
  | Some s => parseInt s
  | None => NaN
  end.

(** [String.prototype.toUpperCase] on ASCII letters. *)
Definition upper (c : ascii) : ascii :=
  let n := nat_of_ascii c in
  if ((97 <=? n)%nat && (n <=? 122)%nat)%bool
  then ascii_of_nat (n - 32) else c.

Fixpoint toUpperCase (s : string) : string :=
  match s with
  | String c s' => String (upper c) (toUpperCase s')
  | EmptyString => EmptyString
  end.

(** *** Numbers

    A JavaScript number is an IEEE 754 binary64 floating-point number:
    [spec_float] with precision 53 and maximal exponent 1024.  Every
    arithmetic operation rounds to the nearest number, ties to even. *)
Definition double : Type := spec_float.

Definition prec : Z := 53.
Definition emax : Z := 1024.

(** The finite numbers among the values of [spec_float] are those with a
    canonical mantissa and exponent. *)
Definition isDouble (a : double) : bool := valid_binary prec emax a.

Definition add (a b : double) : double := SFadd prec emax a b.
Definition sub (a b : double) : double := SFsub prec emax a b.
Definition mul (a b : double) : double := SFmul prec emax a b.
Definition div (a b : double) : double := SFdiv prec emax a b.

(** [a === b] on numbers: [NaN] equals nothing, [0] equals [-0]. *)
Definition strictEquals (a b : double) : bool := SFeqb a b.

(** [Number.isNaN]. *)
Definition numberIsNaN (a : double) : bool :=
  match a with
  | S754_nan => true
  | _ => false
  end.

(** The number nearest to an integer: the value of an integer literal. *)
Definition ofZ (z : Z) : double := binary_normalize prec emax z 0 false.

Definition zero : double := S754_zero false.
Definition one : double := ofZ 1.

End Js.

(** ** Data model *)

Module Coordinate.

(** utils/coordinate.ts: a point with two numeric components. *)
Record t : Type := mk { x : Js.double; y : Js.double }.

Definition sum (a b : t) : t := mk (Js.add (x a) (x b)) (Js.add (y a) (y b)).

Definition difference (a b : t) : t :=
  mk (Js.sub (x a) (x b)) (Js.sub (y a) (y b)).

(** [scale] multiplies both components in place; the receiver is always a
    fresh object here, so the scaled point is returned. *)
Definition scale (a : t) (s : Js.double) : t := mk (Js.mul (x a) s) (Js.mul (y a) s).

(** [Coordinate.equals]: [a.x == b.x && a.y == b.y]. *)
Definition equals (a b : t) : bool :=
  (Js.strictEquals (x a) (x b) && Js.strictEquals (y a) (y b))%bool.

Definition origin : t := mk Js.zero Js.zero.

(** Both components are numbers of the format. *)
Definition isDouble (a : t) : bool := (Js.isDouble (x a) && Js.isDouble (y a))%bool.

(** No component is [NaN]. *)
Definition isNumber (a : t) : bool :=
  (negb (Js.numberIsNaN (x a)) && negb (Js.numberIsNaN (y a)))%bool.

End Coordinate.

(** A live block.  Identity is the [id]; [nextBlock] is the block connected
    below; [rendered] says whether [getSvgRoot()] is non-null;
    [variableRefs] are the variables named by the block's fields. *)
Inductive Block : Type := mkBlock {
  id : nat;
  type : string;
  disabled : bool;
  xy : Coordinate.t;
  rendered : bool;
  variableRefs : list string;
  nextBlock : option Block
}.

(** [blocks.State]: the serialised form of a block and of what hangs
    below it. *)
Inductive State : Type := mkState {
  st_type : option string;
  st_enabled : option bool;
  st_variables : list string;
  st_next : option State
}.

(** The value of a [disabled] property: the string or the boolean. *)
Inductive DisabledAttr : Type :=
| DisabledStr : string -> DisabledAttr
| DisabledBool : bool -> DisabledAttr.

(** A [blockxml] element: its [gap] attribute and the block tree it
    describes ([getAttribute('type')] is the type of that tree's root).
    The string form of [blockxml] is represented by the element that
    [Xml.textToDom] parses it to. *)
Record Element : Type := mkElement {
  attr_gap : option string;
  element_block : State
}.

Definition getAttribute_type (xml : Element) : option string :=
  st_type (element_block xml).

(** One entry of a parsed flyout definition: a JavaScript object whose
    properties may be absent.  [custom] is present exactly when
    ['custom' in contentInfo] holds. *)
Record ContentInfo : Type := mkInfo {
  kind : string;
  custom : option string;
  info_type : option string;
  gap : option Js.value;
  blockxml : option Element;
  enabled : option bool;
  info_disabled : option DisabledAttr;
  info_variables : list string;
  info_next : option State;
  text : option string
}.

(** What [show] accepts: a list of entries or the name of a dynamic
    category.  [toolbox.convertFlyoutDefToJsonArray] is the identity on the
    list form. *)
Inductive FlyoutDefinition : Type :=
| DefArray : list ContentInfo -> FlyoutDefinition
| DefName : string -> FlyoutDefinition.

Record FlyoutButton : Type := mkButton {
  button_info : ContentInfo;
  isLabel : bool
}.

Inductive FlyoutItem : Type :=
| BLOCK : Block -> FlyoutItem
| BUTTON : FlyoutButton -> FlyoutItem.

(** Change notifications. *)
Inductive EventKind : Type :=
| VAR_CREATE : string -> EventKind
| BLOCK_CREATE : nat -> EventKind.

Record Event : Type := mkEvent {
  ev_kind : EventKind;
  ev_group : option nat
}.

Record EventsState : Type := mkEvents {
  disabledCount : nat;
  currentGroup : option nat;
  FIRE_QUEUE : list Event
}.

Record WorkspaceSvg : Type := mkWorkspace {
  topBlocks : list Block;
  variableMap : list string;
  potentialVariableMap : list string;
  scale : Js.double;
  originOffsetInPixels : Coordinate.t;
  resizesEnabled : bool;
  toolboxCategoryCallbacks : string -> option (list ContentInfo);
  capacity : list Block -> list (string * nat) -> bool
}.

(** Modelled from the spec: workspace.ts is not among the sources.  The
    target workspace is asked "whether that signature still fits remaining
    capacity": its answer depends on the blocks it holds at the time of the
    query, so a block added to the workspace can change it.  [capacity] is
    the limit that the workspace was configured with. *)
Definition isCapacityAvailable (ws : WorkspaceSvg)
    (typeCounts : list (string * nat)) : bool :=
  capacity ws (topBlocks ws) typeCounts.

Inductive Error : Type :=
| TypeError : string -> Error
| PlainError : string -> Error
| DeserializationError : Error.

(** The flyout object, the workspaces it points to and the global state of
    the event module.  [callbackLookups] records, in order, every call of
    [getToolboxCategoryCallback]. *)
Record World : Type := mkWorld {
  workspace_ : WorkspaceSvg;
  targetWorkspace : WorkspaceSvg;
  horizontalLayout : bool;
  autoClose : bool;
  isVisible_ : bool;
  reflowWrapper_ : bool;
  listeners_ : nat;
  mats_ : list nat;
  buttons_ : list FlyoutButton;
  permanentlyDisabled_ : list nat;
  recycledBlocks_ : list Block;
  GAP_X : Z;
  GAP_Y : Z;
  width_ : Js.double;
  height_ : Js.double;
  events : EventsState;
  nextUid : nat;
  callbackLookups : list string
}.

(** *** Field updates *)

Definition with_topBlocks (l : list Block) (ws : WorkspaceSvg) : WorkspaceSvg :=
  mkWorkspace l (variableMap ws) (potentialVariableMap ws) (scale ws)
    (originOffsetInPixels ws) (resizesEnabled ws)
    (toolboxCategoryCallbacks ws) (capacity ws).

Definition with_variableMap (l : list string) (ws : WorkspaceSvg) : WorkspaceSvg :=
  mkWorkspace (topBlocks ws) l (potentialVariableMap ws) (scale ws)
    (originOffsetInPixels ws) (resizesEnabled ws)
    (toolboxCategoryCallbacks ws) (capacity ws).

Definition with_potentialVariableMap (l : list string) (ws : WorkspaceSvg)
  : WorkspaceSvg :=
  mkWorkspace (topBlocks ws) (variableMap ws) l (scale ws)
    (originOffsetInPixels ws) (resizesEnabled ws)
    (toolboxCategoryCallbacks ws) (capacity ws).

Definition with_resizesEnabled (b : bool) (ws : WorkspaceSvg) : WorkspaceSvg :=
  mkWorkspace (topBlocks ws) (variableMap ws) (potentialVariableMap ws)
    (scale ws) (originOffsetInPixels ws) b
    (toolboxCategoryCallbacks ws) (capacity ws).

Definition set_workspace_ (ws : WorkspaceSvg) (w : World) : World :=
  mkWorld ws (targetWorkspace w) (horizontalLayout w) (autoClose w)
    (isVisible_ w) (reflowWrapper_ w) (listeners_ w) (mats_ w) (buttons_ w)
    (permanentlyDisabled_ w) (recycledBlocks_ w) (GAP_X w) (GAP_Y w)
    (width_ w) (height_ w) (events w) (nextUid w) (callbackLookups w).

Definition set_targetWorkspace (ws : WorkspaceSvg) (w : World) : World :=
  mkWorld (workspace_ w) ws (horizontalLayout w) (autoClose w)
    (isVisible_ w) (reflowWrapper_ w) (listeners_ w) (mats_ w) (buttons_ w)
    (permanentlyDisabled_ w) (recycledBlocks_ w) (GAP_X w) (GAP_Y w)
    (width_ w) (height_ w) (events w) (nextUid w) (callbackLookups w).

Definition set_isVisible_ (b : bool) (w : World) : World :=
  mkWorld (workspace_ w) (targetWorkspace w) (horizontalLayout w) (autoClose w)
    b (reflowWrapper_ w) (listeners_ w) (mats_ w) (buttons_ w)
    (permanentlyDisabled_ w) (recycledBlocks_ w) (GAP_X w) (GAP_Y w)
    (width_ w) (height_ w) (events w) (nextUid w) (callbackLookups w).

Definition set_reflowWrapper_ (b : bool) (w : World) : World :=
  mkWorld (workspace_ w) (targetWorkspace w) (horizontalLayout w) (autoClose w)
    (isVisible_ w) b (listeners_ w) (mats_ w) (buttons_ w)
    (permanentlyDisabled_ w) (recycledBlocks_ w) (GAP_X w) (GAP_Y w)
    (width_ w) (height_ w) (events w) (nextUid w) (callbackLookups w).

Definition set_listeners_ (n : nat) (w : World) : World :=
  mkWorld (workspace_ w) (targetWorkspace w) (horizontalLayout w) (autoClose w)
    (isVisible_ w) (reflowWrapper_ w) n (mats_ w) (buttons_ w)
    (permanentlyDisabled_ w) (recycledBlocks_ w) (GAP_X w) (GAP_Y w)
    (width_ w) (height_ w) (events w) (nextUid w) (callbackLookups w).

Definition set_mats_ (l : list nat) (w : World) : World :=
  mkWorld (workspace_ w) (targetWorkspace w) (horizontalLayout w) (autoClose w)
    (isVisible_ w) (reflowWrapper_ w) (listeners_ w) l (buttons_ w)
    (permanentlyDisabled_ w) (recycledBlocks_ w) (GAP_X w) (GAP_Y w)
    (width_ w) (height_ w) (events w) (nextUid w) (callbackLookups w).

Definition set_buttons_ (l : list FlyoutButton) (w : World) : World :=
  mkWorld (workspace_ w) (targetWorkspace w) (horizontalLayout w) (autoClose w)
    (isVisible_ w) (reflowWrapper_ w) (listeners_ w) (mats_ w) l
    (permanentlyDisabled_ w) (recycledBlocks_ w) (GAP_X w) (GAP_Y w)
    (width_ w) (height_ w) (events w) (nextUid w) (callbackLookups w).

Definition set_permanentlyDisabled_ (l : list nat) (w : World) : World :=
  mkWorld (workspace_ w) (targetWorkspace w) (horizontalLayout w) (autoClose w)
    (isVisible_ w) (reflowWrapper_ w) (listeners_ w) (mats_ w) (buttons_ w)
    l (recycledBlocks_ w) (GAP_X w) (GAP_Y w)
    (width_ w) (height_ w) (events w) (nextUid w) (callbackLookups w).

Definition set_recycledBlocks_ (l : list Block) (w : World) : World :=
  mkWorld (workspace_ w) (targetWorkspace w) (horizontalLayout w) (autoClose w)
    (isVisible_ w) (reflowWrapper_ w) (listeners_ w) (mats_ w) (buttons_ w)
    (permanentlyDisabled_ w) l (GAP_X w) (GAP_Y w)
    (width_ w) (height_ w) (events w) (nextUid w) (callbackLookups w).

Definition set_width_ (q : Js.double) (w : World) : World :=
  mkWorld (workspace_ w) (targetWorkspace w) (horizontalLayout w) (autoClose w)
    (isVisible_ w) (reflowWrapper_ w) (listeners_ w) (mats_ w) (buttons_ w)
    (permanentlyDisabled_ w) (recycledBlocks_ w) (GAP_X w) (GAP_Y w)
    q (height_ w) (events w) (nextUid w) (callbackLookups w).

Definition set_height_ (q : Js.double) (w : World) : World :=
  mkWorld (workspace_ w) (targetWorkspace w) (horizontalLayout w) (autoClose w)
    (isVisible_ w) (reflowWrapper_ w) (listeners_ w) (mats_ w) (buttons_ w)
    (permanentlyDisabled_ w) (recycledBlocks_ w) (GAP_X w) (GAP_Y w)
    (width_ w) q (events w) (nextUid w) (callbackLookups w).

Definition set_events (e : EventsState) (w : World) : World :=
  mkWorld (workspace_ w) (targetWorkspace w) (horizontalLayout w) (autoClose w)
    (isVisible_ w) (reflowWrapper_ w) (listeners_ w) (mats_ w) (buttons_ w)
    (permanentlyDisabled_ w) (recycledBlocks_ w) (GAP_X w) (GAP_Y w)
    (width_ w) (height_ w) e (nextUid w) (callbackLookups w).

Definition set_nextUid (n : nat) (w : World) : World :=
  mkWorld (workspace_ w) (targetWorkspace w) (horizontalLayout w) (autoClose w)
    (isVisible_ w) (reflowWrapper_ w) (listeners_ w) (mats_ w) (buttons_ w)
    (permanentlyDisabled_ w) (recycledBlocks_ w) (GAP_X w) (GAP_Y w)
    (width_ w) (height_ w) (events w) n (callbackLookups w).

Definition set_callbackLookups (l : list string) (w : World) : World :=
  mkWorld (workspace_ w) (targetWorkspace w) (horizontalLayout w) (autoClose w)
    (isVisible_ w) (reflowWrapper_ w) (listeners_ w) (mats_ w) (buttons_ w)
    (permanentlyDisabled_ w) (recycledBlocks_ w) (GAP_X w) (GAP_Y w)
    (width_ w) (height_ w) (events w) (nextUid w) l.

(** ** The monad of flyout methods

    A method either returns, throws, or is still looping when its step
    budget runs out.  The world survives a throw: side effects made before
    the failure are not rolled back. *)

Inductive Outcome (A : Type) : Type :=
| Return : A -> Outcome A
| Throw : Error -> Outcome A
| OutOfFuel : Outcome A.

Arguments Return {A} _.
Arguments Throw {A} _.
Arguments OutOfFuel {A}.

Definition M (A : Type) : Type := World -> Outcome A * World.

Definition ret {A} (a : A) : M A := fun w => (Return a, w).

Definition bind {A B} (m : M A) (k : A -> M B) : M B :=
  fun w =>
    match m w with
    | (Return a, w') => k a w'
    | (Throw e, w') => (Throw e, w')
    | (OutOfFuel, w') => (OutOfFuel, w')
    end.

Definition throw {A} (e : Error) : M A := fun w => (Throw e, w).

Definition outOfFuel {A} : M A := fun w => (OutOfFuel, w).

Definition get : M World := fun w => (Return w, w).

Definition modify (f : World -> World) : M unit := fun w => (Return tt, f w).

(** [try { body } finally { fin }]. *)
Definition try_finally {A} (body : M A) (fin : M unit) : M A :=
  fun w =>
    match body w with
    | (Return a, w') =>
        match fin w' with
        | (Return _, w'') => (Return a, w'')
        | (Throw e, w'') => (Throw e, w'')
        | (OutOfFuel, w'') => (OutOfFuel, w'')
        end
    | (Throw e, w') =>
        match fin w' with
        | (Return _, w'') => (Throw e, w'')
        | (Throw e', w'') => (Throw e', w'')
        | (OutOfFuel, w'') => (OutOfFuel, w'')
        end
    | (OutOfFuel, w') => (OutOfFuel, w')
    end.

Declare Scope flyout_scope.
Delimit Scope flyout_scope with flyout.

Notation "x <- m ;; k" := (bind m (fun x => k))
  (at level 61, m at next level, right associativity) : flyout_scope.
Notation "m ;; k" := (bind m (fun _ => k))
  (at level 61, right associativity) : flyout_scope.

Local Open Scope flyout_scope.

(** ** External collaborators *)

Definition genUid : M nat :=
  w <- get;;
  modify (set_nextUid (S (nextUid w)));;
  ret (nextUid w).

Module eventUtils.

(** Modelled from the spec: events/utils.ts is not among the sources.
    Suspending and resuming notifications nest (resuming "restores prior
    notification state"), a notification fired while suspended is
    dropped, and every notification carries the event-group id that is
    current when it is fired. *)
Definition disable : M unit :=
  modify (fun w =>
    let e := events w in
    set_events (mkEvents (S (disabledCount e)) (currentGroup e) (FIRE_QUEUE e)) w).

Definition enable : M unit :=
  modify (fun w =>
    let e := events w in
    set_events
      (mkEvents (Nat.pred (disabledCount e)) (currentGroup e) (FIRE_QUEUE e)) w).

Definition isEnabled : M bool :=
  w <- get;;
  ret (Nat.eqb (disabledCount (events w)) 0).

(** [setGroup(true)]: start a group with a fresh id. *)
Definition setGroup_true : M unit :=
  g <- genUid;;
  modify (fun w =>
    let e := events w in
    set_events (mkEvents (disabledCount e) (Some g) (FIRE_QUEUE e)) w).

Definition fire (k : EventKind) : M unit :=
  modify (fun w =>
    let e := events w in
    if Nat.eqb (disabledCount e) 0
    then set_events
           (mkEvents (disabledCount e) (currentGroup e)
              (FIRE_QUEUE e ++ [mkEvent k (currentGroup e)])) w
    else w).

End eventUtils.

Module Variables.

(** Modelled from the spec: variables.ts is not among the sources.  The
    added variables are the "set difference of target-workspace variables
    before/after clone", in the order of the current variable list. *)
Definition getAddedVariables (ws : WorkspaceSvg) (originalVariables : list string)
  : list string :=
  filter (fun v => negb (existsb (String.eqb v) originalVariables))
    (variableMap ws).

End Variables.

Inductive WorkspaceRef : Type :=
| FlyoutWorkspace : WorkspaceRef
| TargetWorkspace : WorkspaceRef.

Definition getWorkspaceOf (r : WorkspaceRef) (w : World) : WorkspaceSvg :=
  match r with
  | FlyoutWorkspace => workspace_ w
  | TargetWorkspace => targetWorkspace w
  end.

Definition setWorkspaceOf (r : WorkspaceRef) (ws : WorkspaceSvg) (w : World) : World :=
  match r with
  | FlyoutWorkspace => set_workspace_ ws w
  | TargetWorkspace => set_targetWorkspace ws w
  end.

Definition isEnabled (b : Block) : bool := negb (disabled b).

Definition moved (p : Coordinate.t) (b : Block) : Block :=
  mkBlock (id b) (type b) (disabled b) p (rendered b) (variableRefs b)
    (nextBlock b).

Fixpoint allVariableRefs (b : Block) : list string :=
  match b with
  | mkBlock _ _ _ _ _ vars nxt =>
      vars ++ match nxt with
              | Some n => allVariableRefs n
              | None => []
              end
  end.

Fixpoint chainTypes (b : Block) : list string :=
  match b with
  | mkBlock _ ty _ _ _ _ nxt =>
      ty :: match nxt with
            | Some n => chainTypes n
            | None => []
            end
  end.

Fixpoint countType (ty : string) (counts : list (string * nat)) : list (string * nat) :=
  match counts with
  | [] => [(ty, 1%nat)]
  | (t, n) :: rest =>
      if String.eqb t ty then (t, S n) :: rest else (t, n) :: countType ty rest
  end.

(** Modelled from the spec: common.ts is not among the sources.  The
    "block-type usage signature (including connected children)" of a block
    counts, per type, the blocks of the tree rooted at it. *)
Definition getBlockTypeCounts (b : Block) : list (string * nat) :=
  fold_left (fun counts ty => countType ty counts) (chainTypes b) [].

Module blocks.

(** Modelled from the spec: serialization/blocks.ts is not among the
    sources.  The serialization layer converts "a block subtree to/from a
    portable descriptor": [instantiate] builds the live tree of a
    descriptor, giving every block a fresh id and its descriptor-declared
    enabled/disabled state; a descriptor without a block type is
    malformed. *)
Fixpoint instantiate (s : State) (uid : nat) : option (Block * nat) :=
  match s with
  | mkState None _ _ _ => None
  | mkState (Some ty) en vars nxt =>
      let dis := match en with Some false => true | _ => false end in
      match nxt with
      | None =>
          Some (mkBlock uid ty dis Coordinate.origin true vars None, S uid)
      | Some n =>
          match instantiate n (S uid) with
          | None => None
          | Some (child, uid') =>
              Some (mkBlock uid ty dis Coordinate.origin true vars (Some child),
                    uid')
          end
      end
  end.

(** Modelled from the spec: [blocks.save] is the converse conversion, from
    the live tree to its descriptor. *)
Fixpoint save (b : Block) : State :=
  match b with
  | mkBlock _ ty dis _ _ vars nxt =>
      mkState (Some ty) (if dis then Some false else None) vars
        match nxt with
        | Some n => Some (save n)
        | None => None
        end
  end.

(** Modelled from the spec: the variable bindings belong to the document
    graph engine.  A variable named by a field of a new block is created
    when it does not exist yet: on the target workspace in its variable map, with a
    creation notification; on the flyout workspace (which shares the
    target's variable map) only as a potential variable. *)
Fixpoint createVariables (r : WorkspaceRef) (vars : list string) : M unit :=
  match vars with
  | [] => ret tt
  | v :: rest =>
      w <- get;;
      (if existsb (String.eqb v) (variableMap (targetWorkspace w))
       then ret tt
       else
         match r with
         | TargetWorkspace =>
             modify (fun w =>
               set_targetWorkspace
                 (with_variableMap (variableMap (targetWorkspace w) ++ [v])
                    (targetWorkspace w)) w);;
             eventUtils.fire (VAR_CREATE v)
         | FlyoutWorkspace =>
             if existsb (String.eqb v) (potentialVariableMap (workspace_ w))
             then ret tt
             else
               modify (fun w =>
                 set_workspace_
                   (with_potentialVariableMap
                      (potentialVariableMap (workspace_ w) ++ [v])
                      (workspace_ w)) w)
         end);;
      createVariables r rest
  end.

(** Modelled from the spec: [blocks.append(state, workspace)] makes the
    new tree a top block of the workspace; its creation notifications go through
    [eventUtils.fire], so they are dropped while notifications are
    suspended. *)
Definition append (s : State) (r : WorkspaceRef) : M Block :=
  w <- get;;
  match instantiate s (nextUid w) with
  | None => throw DeserializationError
  | Some (block, uid') =>
      modify (set_nextUid uid');;
      modify (fun w =>
        setWorkspaceOf r
          (with_topBlocks (topBlocks (getWorkspaceOf r w) ++ [block])
             (getWorkspaceOf r w)) w);;
      createVariables r (allVariableRefs block);;
      eventUtils.fire (BLOCK_CREATE (id block));;
      ret block
  end.

End blocks.

Module Xml.

(** Modelled from the spec: xml.ts is not among the sources.  An element
    is materialised like the descriptor it stands for. *)
Definition domToBlock (xml : Element) (r : WorkspaceRef) : M Block :=
  blocks.append (element_block xml) r.

End Xml.

(** Modelled from the spec: block_svg.ts is not among the sources.  After
    [block.dispose()] the block is no top block of its workspace. *)
Definition dispose (r : WorkspaceRef) (b : Block) : M unit :=
  modify (fun w =>
    setWorkspaceOf r
      (with_topBlocks
         (filter (fun b' => negb (Nat.eqb (id b') (id b)))
            (topBlocks (getWorkspaceOf r w)))
         (getWorkspaceOf r w)) w).

(** Modelled from the spec: [block.moveTo(xy)] on a top block of [r]:
    the block ends at [xy].  (A move that is carried out as a translation
    by the difference to the current position ends at [xy] as well in the
    two uses made of it, from the origin and to the origin, because
    [0 + (a - 0)] and [a + (0 - a)] are exact.)  The moved block is
    returned because the caller's reference sees the move. *)
Definition moveTo (r : WorkspaceRef) (b : Block) (p : Coordinate.t) : M Block :=
  modify (fun w =>
    setWorkspaceOf r
      (with_topBlocks
         (map (fun b' => if Nat.eqb (id b') (id b) then moved p b' else b')
            (topBlocks (getWorkspaceOf r w)))
         (getWorkspaceOf r w)) w);;
  ret (moved p b).

(** Modelled from the spec: [WorkspaceSvg.hideChaff] asks the target
    workspace "to dismiss any transient overlays"; none are modelled. *)
Definition hideChaff : M unit := ret tt.

Definition setResizesEnabled (r : WorkspaceRef) (b : bool) : M unit :=
  modify (fun w => setWorkspaceOf r (with_resizesEnabled b (getWorkspaceOf r w)) w).

(** [Array.prototype.splice(start, deleteCount, ...items)]: the removed
    elements and the array afterwards. *)
Definition splice {A} (l : list A) (start deleteCount : nat) (items : list A)
  : list A * list A :=
  (firstn deleteCount (skipn start l),
   firstn start l ++ items ++ skipn (start + deleteCount) l).

(** ** The flyout's methods (core/flyout_base.ts) *)

Definition isVisible : M bool :=
  w <- get;;
  ret (isVisible_ w).

(** [setVisible]: the display update touches the DOM only. *)
Definition setVisible (visible : bool) : M unit :=
  modify (set_isVisible_ visible).

Definition hide : M unit :=
  visible <- isVisible;;
  if negb visible then ret tt
  else
    setVisible false;;
    (* Delete all the event listeners. *)
    modify (set_listeners_ 0%nat);;
    w <- get;;
    if reflowWrapper_ w then modify (set_reflowWrapper_ false) else ret tt.

Definition getDynamicCategoryContents_ (categoryName : string)
  : M (list ContentInfo) :=
  modify (fun w => set_callbackLookups (callbackLookups w ++ [categoryName]) w);;
  w <- get;;
  match toolboxCategoryCallbacks (targetWorkspace w) categoryName with
  | None =>
      throw (TypeError
        "Couldn't find a callback function when opening a toolbox category.")
  | Some flyoutDef => ret flyoutDef
  end.

Definition createButton_ (btnInfo : ContentInfo) (isLabel : bool)
  : M FlyoutButton :=
  ret (mkButton btnInfo isLabel).

(** The [for] loop of [getRecycledBlock_]: the index of the first pool
    entry of the wanted type, [None] standing for [-1]. *)
Fixpoint findRecycled (blockType : string) (pool : list Block) (i : nat)
  : option nat :=
  match pool with
  | [] => None
  | b :: rest =>
      if String.eqb (type b) blockType then Some i
      else findRecycled blockType rest (S i)
  end.

Definition getRecycledBlock_ (blockType : string) : M (option Block) :=
  w <- get;;
  match findRecycled blockType (recycledBlocks_ w) 0 with
  | None => ret None
  | Some index =>
      let '(removed, rest) := splice (recycledBlocks_ w) index 1 [] in
      modify (set_recycledBlocks_ rest);;
      ret (nth_error removed 0)
  end.

(** [getRecycledBlock_] on a type that may be [undefined] or [null]: no
    pool entry has such a type. *)
Definition getRecycledBlock_opt (blockType : option string) : M (option Block) :=
  match blockType with
  | Some ty => getRecycledBlock_ ty
  | None => ret None
  end.

Definition asState (blockInfo : ContentInfo) : State :=
  mkState (info_type blockInfo) (enabled blockInfo) (info_variables blockInfo)
    (info_next blockInfo).

Definition with_enabled (e : option bool) (ci : ContentInfo) : ContentInfo :=
  mkInfo (kind ci) (custom ci) (info_type ci) (gap ci) (blockxml ci) e
    (info_disabled ci) (info_variables ci) (info_next ci) (text ci).

(** [blockInfo['disabled'] !== 'true' && blockInfo['disabled'] !== true] *)
Definition enabledFromDisabled (blockInfo : ContentInfo) : bool :=
  match info_disabled blockInfo with
  | Some (DisabledStr s) => negb (String.eqb s "true")
  | Some (DisabledBool b) => negb b
  | None => true
  end.

Definition createFlyoutBlock_ (blockInfo : ContentInfo) : M Block :=
  block <-
    match blockxml blockInfo with
    | Some xml =>
        recycled <- getRecycledBlock_opt (getAttribute_type xml);;
        match recycled with
        | Some block => ret block
        | None => Xml.domToBlock xml FlyoutWorkspace
        end
    | None =>
        recycled <- getRecycledBlock_opt (info_type blockInfo);;
        match recycled with
        | Some block => ret block
        | None =>
            let blockInfo :=
              match enabled blockInfo with
              | None => with_enabled (Some (enabledFromDisabled blockInfo)) blockInfo
              | Some _ => blockInfo
              end in
            blocks.append (asState blockInfo) FlyoutWorkspace
        end
    end;;
  (if negb (isEnabled block)
   then
     (* Record blocks that were initially disabled. *)
     modify (fun w =>
       set_permanentlyDisabled_ (permanentlyDisabled_ w ++ [id block]) w)
   else ret tt);;
  ret block.

Definition addBlockGap_ (blockInfo : ContentInfo) (gaps : list Z) (defaultGap : Z)
  : list Z :=
  let fromXml : option Js.number :=
    match blockxml blockInfo with
    | Some xml => Some (Js.parseInt_opt (attr_gap xml))
    | None => None
    end in
  let gap : option Js.number :=
    match gap blockInfo with
    | Some g =>
        if Js.truthy g then Some (Js.parseInt (Js.toString g)) else fromXml
    | None => fromXml
    end in
  (* [!gap || isNaN(gap) ? defaultGap : gap]: undefined, 0 and NaN give
     the default. *)
  gaps ++ [match gap with
           | Some (Js.Num n) => if n =? 0 then defaultGap else n
           | Some Js.NaN => defaultGap
           | None => defaultGap
           end].

(** [sepInfo['gap']!.toString()] throws when the separator has no [gap]. *)
Definition addSeparatorGap_ (sepInfo : ContentInfo) (gaps : list Z) (defaultGap : Z)
  : Error + list Z :=
  match gap sepInfo with
  | None =>
      inl (TypeError "Cannot read properties of undefined (reading 'toString')")
  | Some g =>
      let newGap := Js.parseInt (Js.toString g) in
      match newGap with
      | Js.Num n =>
          if (0 <? List.length gaps)%nat
          then inr (firstn (List.length gaps - 1)%nat gaps ++ [n])
          else inr (gaps ++ [defaultGap])
      | Js.NaN => inr (gaps ++ [defaultGap])
      end
  end.

Definition lift {A} (r : Error + A) : M A :=
  match r with
  | inl e => throw e
  | inr a => ret a
  end.

(** The [switch] on the kind of an entry in [createFlyoutInfo_]: what the
    entry adds to [contents] and [gaps]. *)
Definition switchKind (contentInfo : ContentInfo) (contents : list FlyoutItem)
    (gaps : list Z) (defaultGap : Z) : M (list FlyoutItem * list Z) :=
  let k := Js.toUpperCase (kind contentInfo) in
  if String.eqb k "BLOCK" then
    block <- createFlyoutBlock_ contentInfo;;
    ret (contents ++ [BLOCK block], addBlockGap_ contentInfo gaps defaultGap)
  else if String.eqb k "SEP" then
    gaps' <- lift (addSeparatorGap_ contentInfo gaps defaultGap);;
    ret (contents, gaps')
  else if String.eqb k "LABEL" then
    (* A label is a button with different styling. *)
    label <- createButton_ contentInfo true;;
    ret (contents ++ [BUTTON label], gaps ++ [defaultGap])
  else if String.eqb k "BUTTON" then
    button <- createButton_ contentInfo false;;
    ret (contents ++ [BUTTON button], gaps ++ [defaultGap])
  else ret (contents, gaps).

(** The [for] loop of [createFlyoutInfo_], run from index [i].  Every
    iteration uses one unit of [fuel]. *)
Fixpoint createFlyoutInfo_loop (fuel : nat) (parsedContent : list ContentInfo)
    (i : nat) (contents : list FlyoutItem) (gaps : list Z) (defaultGap : Z)
  : M (list FlyoutItem * list Z) :=
  match fuel with
  | O => outOfFuel
  | S fuel' =>
      match nth_error parsedContent i with
      | None => ret (contents, gaps)
      | Some contentInfo =>
          r <-
            match custom contentInfo with
            | Some categoryName =>
                parsedDynamicContent <- getDynamicCategoryContents_ categoryName;;
                (* Replace the element at i with the dynamic content. *)
                let parsedContent' :=
                  snd (splice parsedContent i 1 parsedDynamicContent) in
                ret (parsedContent', nth_error parsedContent' i)
            | None => ret (parsedContent, Some contentInfo)
            end;;
          let '(parsedContent, contentInfo) := r in
          match contentInfo with
          | None =>
              throw (TypeError "Cannot read properties of undefined (reading 'kind')")
          | Some contentInfo =>
              r' <- switchKind contentInfo contents gaps defaultGap;;
              createFlyoutInfo_loop fuel' parsedContent (S i) (fst r') (snd r')
                defaultGap
          end
      end
  end.

Definition createFlyoutInfo_ (fuel : nat) (parsedContent : list ContentInfo)
  : M (list FlyoutItem * list Z) :=
  modify (set_permanentlyDisabled_ []);;
  w <- get;;
  let defaultGap := if horizontalLayout w then GAP_X w else GAP_Y w in
  createFlyoutInfo_loop fuel parsedContent 0 [] [] defaultGap.

(** The [while] loop of [filterForCapacity_]: [block.setEnabled(enable)] on
    the block and on every block below it.  Modelled from the spec:
    block.ts is not among the sources; [setEnabled] changes the enabled
    state of the block it is called on. *)
Fixpoint setEnabledChain (enable : bool) (b : Block) : Block :=
  match b with
  | mkBlock i ty _ p r vars nxt =>
      mkBlock i ty (negb enable) p r vars
        match nxt with
        | Some n => Some (setEnabledChain enable n)
        | None => None
        end
  end.

Definition filterForCapacity_ : M unit :=
  modify (fun w =>
    let blocks := topBlocks (workspace_ w) in
    let filtered :=
      map (fun block =>
             if negb (existsb (Nat.eqb (id block)) (permanentlyDisabled_ w))
             then
               let enable :=
                 isCapacityAvailable (targetWorkspace w) (getBlockTypeCounts block) in
               setEnabledChain enable block
             else block)
          blocks in
    set_workspace_ (with_topBlocks filtered (workspace_ w)) w).

(** [recycleBlock_]: the block is moved to the workspace origin and put
    into the pool; it stays a top block of the flyout workspace. *)
Definition recycleBlock_ (block : Block) : M unit :=
  moved_block <- moveTo FlyoutWorkspace block Coordinate.origin;;
  modify (fun w => set_recycledBlocks_ (recycledBlocks_ w ++ [moved_block]) w).

Fixpoint forEach {A} (l : list A) (f : A -> M unit) : M unit :=
  match l with
  | [] => ret tt
  | a :: rest => f a;; forEach rest f
  end.

Definition emptyRecycledBlocks_ : M unit :=
  w <- get;;
  forEach (recycledBlocks_ w) (dispose FlyoutWorkspace);;
  modify (set_recycledBlocks_ []).

(** The value of [finalOffset] in [positionNewBlock_]: the position of the
    old block in target workspace coordinates. *)
Definition finalOffset (w : World) (oldBlock : Block) : Coordinate.t :=
  (* The offset in pixels between the main workspace's origin and the
     upper left corner of the injection div. *)
  let mainOffsetPixels := originOffsetInPixels (targetWorkspace w) in
  (* The same for the flyout workspace's origin. *)
  let flyoutOffsetPixels := originOffsetInPixels (workspace_ w) in
  (* The position of the old block in pixels relative to the flyout
     workspace's origin. *)
  let oldBlockPos := Coordinate.scale (xy oldBlock) (scale (workspace_ w)) in
  (* ... relative to the upper left corner of the injection div. *)
  let oldBlockOffsetPixels := Coordinate.sum flyoutOffsetPixels oldBlockPos in
  (* ... relative to the origin of the main workspace, then in main
     workspace coordinates. *)
  Coordinate.scale
    (Coordinate.difference oldBlockOffsetPixels mainOffsetPixels)
    (Js.div Js.one (scale (targetWorkspace w))).

Definition positionNewBlock_ (oldBlock block : Block) : M Block :=
  w <- get;;
  let finalOffset := finalOffset w oldBlock in
  moveTo TargetWorkspace block
    (Coordinate.mk (Coordinate.x finalOffset) (Coordinate.y finalOffset)).

Definition placeNewBlock_ (oldBlock : Block) : M Block :=
  if negb (rendered oldBlock) then throw (PlainError "oldBlock is not rendered.")
  else
    (* Clone the block. *)
    let json := blocks.save oldBlock in
    setResizesEnabled TargetWorkspace false;;
    block <- blocks.append json TargetWorkspace;;
    positionNewBlock_ oldBlock block.

Definition createBlock (originalBlock : Block) : M Block :=
  eventUtils.disable;;
  w <- get;;
  let variablesBeforeCreation := variableMap (targetWorkspace w) in
  setResizesEnabled TargetWorkspace false;;
  newBlock <- try_finally (placeNewBlock_ originalBlock) eventUtils.enable;;
  (* Close the flyout. *)
  hideChaff;;
  w <- get;;
  let newVariables :=
    Variables.getAddedVariables (targetWorkspace w) variablesBeforeCreation in
  eventsEnabled <- eventUtils.isEnabled;;
  (if eventsEnabled then
     eventUtils.setGroup_true;;
     (* Fire a VarCreate event for each (if any) new variable created. *)
     forEach newVariables (fun thisVariable =>
       eventUtils.fire (VAR_CREATE thisVariable));;
     eventUtils.fire (BLOCK_CREATE (id newBlock))
   else ret tt);;
  w <- get;;
  (if autoClose w then hide else filterForCapacity_);;
  ret newBlock.

Section AbstractMethods.

(** The methods that [Flyout] leaves abstract or lets a subclass
    override. *)
Variable layout_ : list FlyoutItem -> list Z -> M unit.
Variable reflowInternal_ : M unit.
Variable position : M unit.
Variable blockIsRecyclable_ : Block -> bool.

Definition clearOldBlocks_ : M unit :=
  w <- get;;
  (* Delete any blocks from a previous showing. *)
  forEach (topBlocks (workspace_ w)) (fun block =>
    if blockIsRecyclable_ block then recycleBlock_ block
    else dispose FlyoutWorkspace block);;
  modify (set_mats_ []);;
  modify (set_buttons_ []);;
  modify (fun w =>
    set_workspace_ (with_potentialVariableMap [] (workspace_ w)) w).

(** The change listener is a flag here, so detaching and re-attaching it
    around the recomputation leaves the flag as it was. *)
Definition reflow : M unit := reflowInternal_.

Definition show (fuel : nat) (flyoutDef : FlyoutDefinition) : M unit :=
  setResizesEnabled FlyoutWorkspace false;;
  hide;;
  clearOldBlocks_;;
  (* Handle dynamic categories, represented by a name instead of a list. *)
  parsedContent <-
    match flyoutDef with
    | DefName name => getDynamicCategoryContents_ name
    | DefArray l => ret l
    end;;
  setVisible true;;
  flyoutInfo <- createFlyoutInfo_ fuel parsedContent;;
  layout_ (fst flyoutInfo) (snd flyoutInfo);;
  modify (fun w => set_listeners_ (S (listeners_ w)) w);;
  w <- get;;
  (if horizontalLayout w then modify (set_height_ Js.zero)
   else modify (set_width_ Js.zero));;
  setResizesEnabled FlyoutWorkspace true;;
  reflow;;
  filterForCapacity_;;
  position;;
  modify (set_reflowWrapper_ true);;
  emptyRecycledBlocks_.

End AbstractMethods.

(** ** Construction and sample inputs *)

Definition CORNER_RADIUS : Z := 8.
Definition MARGIN : Z := CORNER_RADIUS.

Definition newWorkspace (callbacks : string -> option (list ContentInfo))
    (capacity : list Block -> list (string * nat) -> bool) : WorkspaceSvg :=
  mkWorkspace [] [] [] Js.one Coordinate.origin true callbacks capacity.

(** The state after [new Flyout(options)] and [init(targetWorkspace)]: the
    gaps are [MARGIN * 3], nothing is shown, notifications are enabled. *)
Definition newFlyout (horizontal autoclose : bool) (target : WorkspaceSvg) : World :=
  mkWorld (newWorkspace (fun _ => None) (fun _ _ => true)) target
    horizontal autoclose false false 0%nat [] [] [] []
    (MARGIN * 3) (MARGIN * 3) Js.zero Js.zero (mkEvents 0%nat None []) 0%nat [].

Definition blockInfo (ty : string) : ContentInfo :=
  mkInfo "BLOCK" None (Some ty) None None None None [] None None.

Definition sepInfo (g : option Js.value) : ContentInfo :=
  mkInfo "SEP" None None g None None None [] None None.

Definition labelInfo (txt : string) : ContentInfo :=
  mkInfo "LABEL" None None None None None None [] None (Some txt).

Definition dynamicCategoryInfo (name : string) : ContentInfo :=
  mkInfo "CATEGORY" (Some name) None None None None None [] None None.

Definition noCallbacks : string -> option (list ContentInfo) := fun _ => None.

Definition unlimited : list Block -> list (string * nat) -> bool :=
  fun _ _ => true.

(** A vertical flyout over an empty target workspace without dynamic
    categories and without capacity limit. *)
Definition verticalFlyout : World :=
  newFlyout false true (newWorkspace noCallbacks unlimited).

(** Modelled from the spec: [layout_] is abstract in flyout_base.ts and the
    vertical flyout is not among the sources.  In a vertical flyout "items
    flow top-to-bottom", "using the gap sequence for inter-item spacing":
    item [i] is put at the cursor, which then advances by the item's height
    and by [gaps[i]].  The result lists the y coordinate of every item. *)
Fixpoint layoutVertical (cursorY : Z) (heights gaps : list Z) : list Z :=
  match heights, gaps with
  | h :: hs, g :: gs => cursorY :: layoutVertical (cursorY + h + g) hs gs
  | _, _ => []
  end.

(** The enabled/disabled flags down a chain of connected blocks. *)
Fixpoint chainDisabled (b : Block) : list bool :=
  match b with
  | mkBlock _ _ dis _ _ _ nxt =>
      dis :: match nxt with
             | Some n => chainDisabled n
             | None => []
             end
  end.

Definition itemType (it : FlyoutItem) : option string :=
  match it with
  | BLOCK b => Some (type b)
  | BUTTON _ => None
  end.

(** [n] consecutive runs of a method; a run that does not return ends the
    sequence. *)
Fixpoint repeatM (n : nat) (m : M unit) : M unit :=
  match n with
  | O => ret tt
  | S n' => m;; repeatM n' m
  end.

(** *** Sample descriptors *)

(** The scenario of the spec: two blocks with a separator of gap 40
    between them. *)
Definition twoBlocksAndSeparator : list ContentInfo :=
  [blockInfo "math_number"; sepInfo (Some (Js.VNum 40 eq_refl));
   blockInfo "math_arithmetic"].

Definition with_gap (g : option Js.value) (ci : ContentInfo) : ContentInfo :=
  mkInfo (kind ci) (custom ci) (info_type ci) g (blockxml ci) (enabled ci)
    (info_disabled ci) (info_variables ci) (info_next ci) (text ci).

(** A block entry with the number 0 as [gap] and with [blockxml] whose
    element has [gap="30"]. *)
Definition zeroGapWithXml : ContentInfo :=
  mkInfo "BLOCK" None (Some "t") (Some (Js.VNum 0 eq_refl))
    (Some (mkElement (Some "30") (mkState (Some "t") None [] None)))
    None None [] None None.

(** Category [A] expands to the single entry category [B]; category [B]
    expands to one block; category [C] expands to a label followed by
    category [B]. *)
Definition nestedCallbacks (name : string) : option (list ContentInfo) :=
  if String.eqb name "A" then Some [dynamicCategoryInfo "B"]
  else if String.eqb name "B" then Some [blockInfo "x"]
  else if String.eqb name "C" then Some [labelInfo "l"; dynamicCategoryInfo "B"]
  else None.

Definition flyoutWithCategories : World :=
  newFlyout false true (newWorkspace nestedCallbacks unlimited).

Ltac eval_isWhiteSpace :=
  repeat match goal with
         | |- context [Js.isWhiteSpace ?c] =>
             let b := eval vm_compute in (Js.isWhiteSpace c) in
             change (Js.isWhiteSpace c) with b
         end.

(** *** Methods that cannot fail

    [maintains R m]: the method [m] always returns, in a world related by
    [R] to the one it was called in. *)
Definition maintains {A} (R : World -> World -> Prop) (m : M A) : Prop :=
  forall w, exists a w', m w = (Return a, w') /\ R w w'.

(** The target workspace and the record of callback look-ups are as they
    were. *)
Definition sameTarget (w w' : World) : Prop :=
  targetWorkspace w' = targetWorkspace w
  /\ callbackLookups w' = callbackLookups w.

(** *** Static descriptors

    Induction along the chain of a descriptor. *)
Fixpoint State_chain_ind (P : State -> Prop)
    (Hlast : forall ty en vars, P (mkState ty en vars None))
    (Hnext : forall ty en vars n, P n -> P (mkState ty en vars (Some n)))
    (s : State) : P s :=
  match s with
  | mkState ty en vars None => Hlast ty en vars
  | mkState ty en vars (Some n) =>
      Hnext ty en vars n (State_chain_ind P Hlast Hnext n)
  end.

Fixpoint Block_chain_ind (P : Block -> Prop)
    (Hlast : forall i ty dis p r vars, P (mkBlock i ty dis p r vars None))
    (Hnext : forall i ty dis p r vars n,
        P n -> P (mkBlock i ty dis p r vars (Some n)))
    (b : Block) : P b :=
  match b with
  | mkBlock i ty dis p r vars None => Hlast i ty dis p r vars
  | mkBlock i ty dis p r vars (Some n) =>
      Hnext i ty dis p r vars n (Block_chain_ind P Hlast Hnext n)
  end.

(** Every block of the descriptor has a type. *)
Fixpoint typed (s : State) : bool :=
  match s with
  | mkState None _ _ _ => false
  | mkState (Some _) _ _ None => true
  | mkState (Some _) _ _ (Some n) => typed n
  end.

Definition isKind (ci : ContentInfo) (k : string) : bool :=
  String.eqb (Js.toUpperCase (kind ci)) k.

(** An entry that is no dynamic category and that the loop can process
    without an exception: a block entry describes typed blocks, a separator
    has a [gap] attribute. *)
Definition staticEntry (ci : ContentInfo) : bool :=
  match custom ci with
  | Some _ => false
  | None =>
      if isKind ci "BLOCK" then
        match blockxml ci with
        | Some xml => typed (element_block xml)
        | None => typed (asState ci)
        end
      else if isKind ci "SEP" then
        match gap ci with Some _ => true | None => false end
      else true
  end.

(** The separator's gap parses to an integer. *)
Definition integerGap (ci : ContentInfo) : bool :=
  match gap ci with
  | Some g => negb (Js.isNaN (Js.parseInt (Js.toString g)))
  | None => false
  end.

(** The entry adds an item to [contents]: it is a block, a label or a
    button. *)
Definition isContent (ci : ContentInfo) : bool :=
  (isKind ci "BLOCK" || isKind ci "LABEL" || isKind ci "BUTTON")%bool.

(** The number of block, label and button entries of a descriptor. *)
Definition contentCount (D : list ContentInfo) : nat :=
  List.length (filter isContent D).

(** The number of gap entries after an entry, when [n] exist before it: a
    block, a label or a button adds one; a separator adds one unless its
    gap is an integer and a gap entry exists already. *)
Definition gapsAfter (ci : ContentInfo) (n : nat) : nat :=
  if isKind ci "BLOCK" then S n
  else if isKind ci "SEP" then
    if (integerGap ci && (0 <? n)%nat)%bool then n else S n
  else if isKind ci "LABEL" then S n
  else if isKind ci "BUTTON" then S n
  else n.

Fixpoint gapCount (D : list ContentInfo) (n : nat) : nat :=
  match D with
  | [] => n
  | ci :: rest => gapCount rest (gapsAfter ci n)
  end.

(** A block entry of type [a] whose descriptor has, connected below it, a
    block of type [b] declared with [enabled: false]. *)
Definition blockWithDisabledChild : ContentInfo :=
  mkInfo "BLOCK" None (Some "a") None None None None []
    (Some (mkState (Some "b") (Some false) [] None)) None.

(** The world after a run of a method. *)
Definition after {A} (m : M A) (w : World) : World := snd (m w).

(** *** Cloning while notifications are suspended *)

(** Pan and zoom of the two workspaces. *)
Definition geometry (w : World)
  : Js.double * Coordinate.t * Js.double * Coordinate.t :=
  (scale (workspace_ w), originOffsetInPixels (workspace_ w),
   scale (targetWorkspace w), originOffsetInPixels (targetWorkspace w)).

(** If notifications were suspended, the state of the event module is as
    it was; pan and zoom and the top blocks of the target workspace are as
    they were. *)
Definition undisturbed (w w' : World) : Prop :=
  (disabledCount (events w) <> 0%nat -> events w' = events w)
  /\ geometry w' = geometry w
  /\ topBlocks (targetWorkspace w') = topBlocks (targetWorkspace w).

(** The target workspace and the state of the event module are as they
    were. *)
Definition sameTargetAndEvents (w w' : World) : Prop :=
  targetWorkspace w' = targetWorkspace w /\ events w' = events w.

(** A block entry that names the variable [x]; the flyout that shows it at
    (1.5, 10); the block as shown; and the same flyout with notifications
    suspended once by an outer caller. *)
Definition variableBlockInfo : ContentInfo :=
  mkInfo "BLOCK" None (Some "variables_get") None None None None ["x"] None None.

Definition shownFlyout : World :=
  after (block <- createFlyoutBlock_ variableBlockInfo;;
         moveTo FlyoutWorkspace block
           (Coordinate.mk (Js.div (Js.ofZ 3) (Js.ofZ 2)) (Js.ofZ 10)))
    verticalFlyout.

Definition shownBlock : Block :=
  mkBlock 0 "variables_get" false
    (Coordinate.mk (Js.div (Js.ofZ 3) (Js.ofZ 2)) (Js.ofZ 10)) true ["x"] None.

Definition suspendedFlyout : World := after eventUtils.disable shownFlyout.

(** A subclass whose layout, reflow and positioning do nothing, to run
    [show] on sample inputs; [recyclable] is its answer to
    [blockIsRecyclable_]. *)
Definition showPlain (recyclable : bool) : nat -> FlyoutDefinition -> M unit :=
  show (fun _ _ => ret tt) (ret tt) (ret tt) (fun _ => recyclable).

(** ** Definitions for the further properties *)

(** [isBlockCreatable]: a block can be dragged out of the flyout when it is
    enabled. *)
Definition isBlockCreatable (block : Block) : bool := isEnabled block.

(** The function that one pass of [filterForCapacity_] applies to every
    top block of the flyout workspace. *)
Definition capacityFiltered (w : World) (block : Block) : Block :=
  if negb (existsb (Nat.eqb (id block)) (permanentlyDisabled_ w))
  then setEnabledChain
         (isCapacityAvailable (targetWorkspace w) (getBlockTypeCounts block)) block
  else block.

(** The blocks of [l] whose id is not among [ids]. *)
Definition withoutIds (ids : list nat) (l : list Block) : list Block :=
  filter (fun b => negb (existsb (Nat.eqb (id b)) ids)) l.

(** The block type that a block entry asks for: the [type] attribute of
    its [blockxml] if it has one, its own [type] otherwise. *)
Definition requestedType (blockInfo : ContentInfo) : option string :=
  match blockxml blockInfo with
  | Some xml => getAttribute_type xml
  | None => info_type blockInfo
  end.

(** The default of [blockIsRecyclable_]: recycling is disabled. *)
Definition blockIsRecyclable_default (_block : Block) : bool := false.

(** The flyout's own state and the suspension depth of the notifications
    are as they were. *)
Definition sameFlyoutAndDepth (w w' : World) : Prop :=
  workspace_ w' = workspace_ w
  /\ autoClose w' = autoClose w
  /\ isVisible_ w' = isVisible_ w
  /\ permanentlyDisabled_ w' = permanentlyDisabled_ w
  /\ recycledBlocks_ w' = recycledBlocks_ w
  /\ disabledCount (events w') = disabledCount (events w).

(** The target workspace, the record of callback look-ups and what decides
    whether and how the flyout is displayed are as they were. *)
Definition sameControls (w w' : World) : Prop :=
  targetWorkspace w' = targetWorkspace w
  /\ callbackLookups w' = callbackLookups w
  /\ isVisible_ w' = isVisible_ w
  /\ listeners_ w' = listeners_ w
  /\ reflowWrapper_ w' = reflowWrapper_ w
  /\ horizontalLayout w' = horizontalLayout w
  /\ resizesEnabled (workspace_ w') = resizesEnabled (workspace_ w).

(** The same, and the list of permanently disabled blocks is as it was. *)
Definition parsingFrame (w w' : World) : Prop :=
  sameControls w w'
  /\ permanentlyDisabled_ w' = permanentlyDisabled_ w.

(** What an item of [contents] shows: a block of some type, or a button or
    label made from an entry. *)
Inductive ItemShape : Type :=
| BlockOfType : option string -> ItemShape
| ButtonFor : ContentInfo -> bool -> ItemShape.

Definition shape (item : FlyoutItem) : ItemShape :=
  match item with
  | BLOCK b => BlockOfType (Some (type b))
  | BUTTON button => ButtonFor (button_info button) (isLabel button)
  end.

(** What the entries of a descriptor ask for, in their order. *)
Definition requestedShape (ci : ContentInfo) : list ItemShape :=
  if isKind ci "BLOCK" then [BlockOfType (requestedType ci)]
  else if isKind ci "LABEL" then [ButtonFor ci true]
  else if isKind ci "BUTTON" then [ButtonFor ci false]
  else [].

(** The ids of the disabled blocks among the items. *)
Definition disabledIds (items : list FlyoutItem) : list nat :=
  flat_map (fun item =>
              match item with
              | BLOCK b => if disabled b then [id b] else []
              | BUTTON _ => []
              end) items.

(** ** Visibility and display

    What [setVisible], [setContainerVisible] and [updateDisplay_] read and
    write.  [svgGroup_display] is the display style of [svgGroup_]:
    [None] while [svgGroup_] is null, [Some true] for ['block'],
    [Some false] for ['none'].  [scrollbar] is [None] while
    [workspace_.scrollbar] is null, which it is until [init] creates it;
    afterwards it holds what [scrollbar.setContainerVisible] was last
    called with (or the scrollbar's own initial setting).
    [recordDragTargets_calls] counts the calls of
    [workspace_.recordDragTargets].  A method gives how it completes and
    the state it leaves. *)
Module Display.

Inductive Completion : Type :=
| Returns : Completion
| ThrowsTypeError : Completion.

Record t : Type := mk {
  isVisible_ : bool;
  containerVisible_ : bool;
  autoClose : bool;
  svgGroup_display : option bool;
  scrollbar : option bool;
  recordDragTargets_calls : nat
}.

Definition isVisible (d : t) : bool := isVisible_ d.

Definition updateDisplay_ (d : t) : Completion * t :=
  let show := if negb (containerVisible_ d) then false else isVisible d in
  let d :=
    mk (isVisible_ d) (containerVisible_ d) (autoClose d)
      (match svgGroup_display d with
       | Some _ => Some show
       | None => None
       end)
      (scrollbar d) (recordDragTargets_calls d) in
  (* Update the scrollbar's visibility too:
     [this.workspace_.scrollbar.setContainerVisible(show)]. *)
  match scrollbar d with
  | Some _ =>
      (Returns,
       mk (isVisible_ d) (containerVisible_ d) (autoClose d) (svgGroup_display d)
         (Some show) (recordDragTargets_calls d))
  | None => (ThrowsTypeError, d)
  end.

Definition recordDragTargets (d : t) : t :=
  mk (isVisible_ d) (containerVisible_ d) (autoClose d) (svgGroup_display d)
    (scrollbar d) (S (recordDragTargets_calls d)).

Definition setVisible (visible : bool) (d : t) : Completion * t :=
  let visibilityChanged := negb (Bool.eqb visible (isVisible d)) in
  let d := mk visible (containerVisible_ d) (autoClose d) (svgGroup_display d)
             (scrollbar d) (recordDragTargets_calls d) in
  if visibilityChanged then
    updateDisplay_ (if negb (autoClose d) then recordDragTargets d else d)
  else (Returns, d).

Definition setContainerVisible (visible : bool) (d : t) : Completion * t :=
  let visibilityChanged := negb (Bool.eqb visible (containerVisible_ d)) in
  let d := mk (isVisible_ d) visible (autoClose d) (svgGroup_display d)
             (scrollbar d) (recordDragTargets_calls d) in
  if visibilityChanged then updateDisplay_ d else (Returns, d).

(** A call of one of the two setters, and a sequence of calls, which ends
    at the first call that throws. *)
Inductive Call : Type :=
| SetVisible : bool -> Call
| SetContainerVisible : bool -> Call.

Definition call (c : Call) (d : t) : Completion * t :=
  match c with
  | SetVisible visible => setVisible visible d
  | SetContainerVisible visible => setContainerVisible visible d
  end.

Fixpoint run (calls : list Call) (d : t) : Completion * t :=
  match calls with
  | [] => (Returns, d)
  | c :: rest =>
      match call c d with
      | (Returns, d') => run rest d'
      | (ThrowsTypeError, d') => (ThrowsTypeError, d')
      end
  end.

(** The flyout is to be seen: it is visible and so is its container. *)
Definition shown (d : t) : bool := (containerVisible_ d && isVisible_ d)%bool.

(** There is a scrollbar, and it and the display style, where there is an
    element, agree with the two flags. *)
Definition consistent (d : t) : Prop :=
  scrollbar d = Some (shown d)
  /\ match svgGroup_display d with
     | Some display => display = shown d
     | None => True
     end.

(** The state after the constructor and [createDom]: not visible, the
    container visible, the element created with [display: none], no
    scrollbar yet. *)
Definition created (autoclose : bool) : t :=
  mk false true autoclose (Some false) None 0.

(** The state after [init] on that: [init] creates the scrollbar pair,
    whose own setting is [scrollbarSetting], and calls [hide], which
    returns at once on a flyout that is not visible. *)
Definition initialised (autoclose scrollbarSetting : bool) : t :=
  mk false true autoclose (Some false) (Some scrollbarSetting) 0.

(** The state after [setVisible(true)] on that. *)
Definition opened (autoclose scrollbarSetting : bool) : t :=
  snd (setVisible true (initialised autoclose scrollbarSetting)).

End Display.

(** ** Listeners added while laying out

    The two helpers of the base class that a layout calls for every block
    and for every button or label.  [listeners_] counts the bound
    listeners. *)

(** [addBlockListeners_] binds six listeners: mouse-down on the block and
    on its mat, mouse-enter and mouse-leave on both. *)
Definition addBlockListeners_ (block : Block) : M unit :=
  modify (fun w => set_listeners_ (listeners_ w + 6)%nat w).

(** [initFlyoutButton_] binds one listener and records the button. *)
Definition initFlyoutButton_ (button : FlyoutButton) : M unit :=
  modify (fun w => set_listeners_ (listeners_ w + 1)%nat w);;
  modify (fun w => set_buttons_ (buttons_ w ++ [button]) w).

(** Modelled from the spec: [layout_] is abstract.  A layout goes through
    the items and calls the helper of the base class for each. *)
Definition layoutWithListeners (contents : list FlyoutItem) (gaps : list Z)
  : M unit :=
  forEach contents (fun item =>
    match item with
    | BLOCK block => addBlockListeners_ block
    | BUTTON button => initFlyoutButton_ button
    end).

(** The listeners that such a layout binds. *)
Definition layoutListeners (contents : list FlyoutItem) : nat :=
  fold_right (fun item n =>
                match item with
                | BLOCK _ => (6 + n)%nat
                | BUTTON _ => (1 + n)%nat
                end) 0%nat contents.

(** What the methods of a subclass leave alone while [show] runs: the
    visibility flag and the resize switch of the flyout workspace. *)
Definition displayKept (w w' : World) : Prop :=
  isVisible_ w' = isVisible_ w
  /\ resizesEnabled (workspace_ w') = resizesEnabled (workspace_ w).

(** The same, and no listener is bound or unbound. *)
Definition displayAndListenersKept (w w' : World) : Prop :=
  displayKept w w' /\ listeners_ w' = listeners_ w.

(** ** Capacity limits *)

(** The number of blocks of a workspace: its top blocks and the blocks
    connected below them. *)
Definition blockCount (l : list Block) : nat :=
  fold_right (fun b n => (List.length (chainTypes b) + n)%nat) 0%nat l.

(** Modelled from the spec: a workspace that allows at most [n] blocks.  A
    signature "still fits remaining capacity" when the blocks it counts
    are not more than [n] minus the blocks the workspace holds. *)
Definition maxBlocks (n : nat) : list Block -> list (string * nat) -> bool :=
  fun blocks typeCounts =>
    (fold_right (fun c total => (snd c + total)%nat) 0%nat typeCounts
     <=? n - blockCount blocks)%nat.

(** ** The array that the parsing loop leaves *)

(** [createFlyoutInfo_] replaces, in the array it is given, every dynamic
    category that it resolves by the entries of the category.
    [parsedContentAfter] is that array when the loop has gone on from index
    [i] for at most [fuel] iterations without an exception: its entries are
    the entries that went through the [switch]. *)
Fixpoint parsedContentAfter (fuel : nat)
    (callbacks : string -> option (list ContentInfo))
    (parsedContent : list ContentInfo) (i : nat) : list ContentInfo :=
  match fuel with
  | O => parsedContent
  | S fuel' =>
      match nth_error parsedContent i with
      | None => parsedContent
      | Some contentInfo =>
          match custom contentInfo with
          | Some categoryName =>
              match callbacks categoryName with
              | Some parsedDynamicContent =>
                  parsedContentAfter fuel' callbacks
                    (snd (splice parsedContent i 1 parsedDynamicContent)) (S i)
              | None => parsedContent
              end
          | None => parsedContentAfter fuel' callbacks parsedContent (S i)
          end
      end
  end.

(** The separators of [D] that append a gap entry instead of overwriting
    one, when [D] is gone through with [gaps] empty or not at its start: a
    separator appends when no gap entry exists yet or when its gap does
    not parse to an integer.  After a block, a label, a button or a
    separator a gap entry exists. *)
Fixpoint appendingSeparators (D : list ContentInfo) (gapsEmpty : bool) : nat :=
  match D with
  | [] => 0%nat
  | ci :: rest =>
      if isKind ci "SEP" then
        ((if (integerGap ci && negb gapsEmpty)%bool then 0 else 1)
         + appendingSeparators rest false)%nat
      else if isContent ci then appendingSeparators rest false
      else appendingSeparators rest gapsEmpty
  end.

(** ** Further sample inputs *)

(** An entry that is no dynamic category. *)
Definition noCustom (ci : ContentInfo) : bool :=
  match custom ci with
  | Some _ => false
  | None => true
  end.

(** Three separators before the first block. *)
Definition leadingSeparators : list ContentInfo :=
  [sepInfo (Some (Js.VNum 40 eq_refl)); sepInfo (Some (Js.VNum 50 eq_refl));
   sepInfo (Some (Js.VNum 60 eq_refl)); blockInfo "math_number"].

(** Both workspaces at scale 1, both panned to (100, 0); a block shown at
    (0.1, 0). *)
Definition pannedBy100 (ws : WorkspaceSvg) : WorkspaceSvg :=
  mkWorkspace (topBlocks ws) (variableMap ws) (potentialVariableMap ws)
    Js.one (Coordinate.mk (Js.ofZ 100) Js.zero) (resizesEnabled ws)
    (toolboxCategoryCallbacks ws) (capacity ws).

Definition pannedFlyout : World :=
  set_targetWorkspace (pannedBy100 (targetWorkspace shownFlyout))
    (set_workspace_ (pannedBy100 (workspace_ shownFlyout)) shownFlyout).

Definition blockAtOneTenth : Block :=
  mkBlock 0 "variables_get" false
    (Coordinate.mk (Js.div (Js.ofZ 1) (Js.ofZ 10)) Js.zero) true ["x"] None.

(** A flyout that stays open, over a target workspace that allows one
    block, after parsing two [math_number] entries. *)
Definition limitedFlyout : World :=
  after (createFlyoutInfo_ 3 [blockInfo "math_number"; blockInfo "math_number"])
    (newFlyout false false (newWorkspace noCallbacks (maxBlocks 1))).

(** The first of its two blocks. *)
Definition firstLimitedBlock : Block :=
  mkBlock 0 "math_number" false Coordinate.origin true [] None.

(** A subclass that lays out with the helpers of the base class and whose
    reflow and positioning do nothing. *)
Definition showWithListeners : nat -> FlyoutDefinition -> M unit :=
  show layoutWithListeners (ret tt) (ret tt) (fun _ => false).

(** The flyout after parsing [blockWithDisabledChild]. *)
Definition disabledChildFlyout : World :=
  after (createFlyoutInfo_ 2 [blockWithDisabledChild]) verticalFlyout.

(** A disabled block of type [a], and a flyout whose pool holds
    [shownBlock] and that block. *)
Definition disabledPoolBlock : Block :=
  mkBlock 5 "a" true Coordinate.origin true [] None.

Definition pooledFlyout : World :=
  set_recycledBlocks_ [shownBlock; disabledPoolBlock] verticalFlyout.

(** A block without SVG root. *)
Definition unrenderedBlock : Block :=
  mkBlock 0 "variables_get" false Coordinate.origin false [] None.

(** A block entry with [disabled: 'true'], and a flyout whose list of
    permanently disabled blocks holds a stale id. *)
Definition disabledBlockInfo : ContentInfo :=
  mkInfo "block" None (Some "b") None None None (Some (DisabledStr "true")) []
    None None.

Definition staleFlyout : World := set_permanentlyDisabled_ [7%nat] verticalFlyout.

(** A flyout whose target workspace has one category, which is empty. *)
Definition emptyCategoryFlyout : World :=
  newFlyout false true
    (newWorkspace (fun name => if String.eqb name "EMPTY" then Some [] else None)
       unlimited).

(** The entries that [show] parses for a flyout definition: the array
    itself, or what the callback registered for the category name gives. *)
Definition resolvesTo (w : World) (flyoutDef : FlyoutDefinition)
    (D : list ContentInfo) : Prop :=
  match flyoutDef with
  | DefArray l => l = D
  | DefName name => toolboxCategoryCallbacks (targetWorkspace w) name = Some D
  end.

(** * Properties *)

Example parseInt_40 : Js.parseInt "40" = Js.Num 40.
Proof. reflexivity. Qed.

Example parseInt_px : Js.parseInt "  -12px" = Js.Num (-12).
Proof. reflexivity. Qed.

Example parseInt_empty : Js.parseInt "" = Js.NaN.
Proof. reflexivity. Qed.

Example toString_neg : Js.Z_toString (-305) = "-305".
Proof. reflexivity. Qed.

Example toUpperCase_sep : Js.toUpperCase "sep" = "SEP".
Proof. reflexivity. Qed.

Example shownFlyout_shows_shownBlock :
  topBlocks (workspace_ shownFlyout) = [shownBlock]
  /\ potentialVariableMap (workspace_ shownFlyout) = ["x"]
  /\ variableMap (targetWorkspace shownFlyout) = [].
Proof. repeat split; reflexivity. Qed.

(** ** Running a method step by step *)

Lemma bind_run {A B} (m : M A) (k : A -> M B) (w w1 : World) (a : A) :
  m w = (Return a, w1) -> bind m k w = k a w1.
Proof. intros H. unfold bind. rewrite H. reflexivity. Qed.

Lemma try_finally_run {A} (body : M A) (fin : M unit) (w w1 w2 : World) (a : A) :
  body w = (Return a, w1) ->
  fin w1 = (Return tt, w2) ->
  try_finally body fin w = (Return a, w2).
Proof. intros H1 H2. unfold try_finally. rewrite H1, H2. reflexivity. Qed.

(** ** Reading back a printed integer *)

Lemma digitPrefix_string_of_uint (d : Decimal.uint) :
  Js.digitPrefix (NilEmpty.string_of_uint d) = d.
Proof.
  induction d; simpl; try rewrite IHd; reflexivity.
Qed.

Lemma parseInt_string_of_uint (d : Decimal.uint) :
  d <> Decimal.Nil ->
  Js.parseInt (NilEmpty.string_of_uint d) = Js.Num (Z.of_uint d).
Proof.
  intros Hd. unfold Js.parseInt.
  destruct d; try congruence;
    cbn [NilEmpty.string_of_uint Js.trimStart];
    eval_isWhiteSpace; cbv iota; cbv zeta;
    cbn [Js.digitPrefix Js.digit];
    rewrite digitPrefix_string_of_uint;
    rewrite Z.mul_1_l; reflexivity.
Qed.

Lemma parseInt_neg_string_of_uint (d : Decimal.uint) :
  d <> Decimal.Nil ->
  Js.parseInt (String "-" (NilEmpty.string_of_uint d)) = Js.Num (- Z.of_uint d).
Proof.
  intros Hd. unfold Js.parseInt.
  cbn [Js.trimStart]. eval_isWhiteSpace. cbv iota. cbv zeta.
  rewrite digitPrefix_string_of_uint.
  destruct d; try congruence; f_equal; lia.
Qed.

Lemma NilZero_string_of_uint_nonnil (d : Decimal.uint) :
  d <> Decimal.Nil -> NilZero.string_of_uint d = NilEmpty.string_of_uint d.
Proof.
  destruct d; intros H; try reflexivity; congruence.
Qed.

(** [parseInt] reads the decimal numeral of an integer back as that
    integer; so [parseInt(n.toString(), 10)] is [n] for a number [n] that
    is a safe integer. *)
Lemma parseInt_toString (z : Z) :
  Js.parseInt (Js.Z_toString z) = Js.Num z.
Proof.
  destruct z as [|p|p]; [reflexivity| |];
    unfold Js.Z_toString; cbn [Z.to_int NilZero.string_of_int];
    pose proof (Unsigned.to_uint_nonnil p) as Hnil;
    rewrite NilZero_string_of_uint_nonnil by assumption.
  - rewrite parseInt_string_of_uint by assumption.
    unfold Z.of_uint. rewrite Unsigned.of_to. reflexivity.
  - rewrite parseInt_neg_string_of_uint by assumption.
    unfold Z.of_uint. rewrite Unsigned.of_to. reflexivity.
Qed.

(** ** Gaps *)

(** A separator with an integer gap met when some gap entry exists
    overwrites the last gap entry and adds none. *)
Lemma addSeparatorGap_overwrites (s : ContentInfo) (G : Z)
    (safe : Js.isSafeInteger G = true) (front : list Z) (old d : Z) :
  gap s = Some (Js.VNum G safe) ->
  addSeparatorGap_ s (front ++ [old]) d = inr (front ++ [G]).
Proof.
  intros Hg. unfold addSeparatorGap_. rewrite Hg.
  unfold Js.VNum. cbn [Js.toString]. rewrite parseInt_toString.
  rewrite length_app. cbn [List.length].
  replace (0 <? List.length front + 1)%nat with true
    by (symmetry; apply Nat.ltb_lt; lia).
  replace (List.length front + 1 - 1)%nat with (List.length front) by lia.
  rewrite firstn_app, firstn_all, Nat.sub_diag. cbn [firstn].
  rewrite app_nil_r. reflexivity.
Qed.

(** A separator that has a gap attribute, met when no gap entry exists,
    appends one entry holding the default gap. *)
Lemma addSeparatorGap_leading (s : ContentInfo) (g : Js.value) (d : Z) :
  gap s = Some g ->
  addSeparatorGap_ s [] d = inr [d].
Proof.
  intros Hg. unfold addSeparatorGap_. rewrite Hg.
  destruct (Js.parseInt (Js.toString g)); reflexivity.
Qed.

(** A separator without a gap attribute makes [addSeparatorGap_] throw,
    whatever the gaps so far. *)
Lemma addSeparatorGap_undefined_gap (s : ContentInfo) (gaps : list Z) (d : Z) :
  gap s = None ->
  addSeparatorGap_ s gaps d
  = inl (TypeError "Cannot read properties of undefined (reading 'toString')").
Proof. intros Hg. unfold addSeparatorGap_. rewrite Hg. reflexivity. Qed.

(** C4 (the code at the failing input): a separator without a [gap]
    attribute, the first entry of a descriptor, does not append a default
    gap entry: [sepInfo['gap']!.toString()] throws a TypeError, both in
    [addSeparatorGap_] itself and through [createFlyoutInfo_]. *)
Theorem addSeparatorGap_missing_gap_throws :
  addSeparatorGap_ (sepInfo None) [] 24
    = inl (TypeError "Cannot read properties of undefined (reading 'toString')")
  /\ forall n,
       fst (createFlyoutInfo_ (S n) [sepInfo None] verticalFlyout)
       = Throw (TypeError "Cannot read properties of undefined (reading 'toString')").
Proof.
  split; [reflexivity|]. intros n. reflexivity.
Qed.

(** C5 (counterexample): on the scenario of the spec no run of
    [createFlyoutInfo_] returns the gap sequence [24, 40]. *)
Lemma twoBlocksAndSeparator_gaps_not_24_40 :
  ~ (exists fuel contents w',
       createFlyoutInfo_ fuel twoBlocksAndSeparator verticalFlyout
       = (Return (contents, [24; 40]), w')).
Proof.
  intros (fuel & contents & w' & H).
  do 4 (destruct fuel as [|fuel]; [vm_compute in H; discriminate H|]).
  vm_compute in H. congruence.
Qed.

(** C5 (amended): on the scenario of the spec, on a vertical flyout with
    default gap 24, [createFlyoutInfo_] returns exactly the two blocks, in
    order, and the gap sequence [40, 24]: the separator overwrote the gap of
    the first block, the second block keeps the default.  Laid out
    vertically from the margin, the second block starts 40 below the bottom
    of the first, whatever the heights of the blocks. *)
Theorem twoBlocksAndSeparator_info (n : nat) (h1 h2 : Z) :
  GAP_Y verticalFlyout = 24
  /\ exists contents gaps w',
       createFlyoutInfo_ (4 + n) twoBlocksAndSeparator verticalFlyout
       = (Return (contents, gaps), w')
       /\ map itemType contents = [Some "math_number"; Some "math_arithmetic"]
       /\ gaps = [40; 24]
       /\ layoutVertical MARGIN [h1; h2] gaps = [MARGIN; MARGIN + h1 + 40].
Proof.
  split; [reflexivity|].
  do 3 eexists. split; [vm_compute; reflexivity|].
  repeat split; reflexivity.
Qed.

(** C10 (counterexample): a block entry whose gap is present and parses to
    0 for which [addBlockGap_] appends 30 and not the default gap. *)
Lemma addBlockGap_zero_gap_not_always_default :
  ~ (forall (bi : ContentInfo) (g : Js.value) (gaps : list Z) (d : Z),
       gap bi = Some g ->
       Js.parseInt (Js.toString g) = Js.Num 0 ->
       addBlockGap_ bi gaps d = gaps ++ [d]).
Proof.
  intros H.
  specialize (H zeroGapWithXml (Js.VNum 0 eq_refl) [] 24 eq_refl eq_refl).
  vm_compute in H. discriminate H.
Qed.

(** C10 (amended): for a block entry whose gap is present and parses to 0:
    when the gap value is truthy (a string such as "0" or "0px", a number
    such as 0.5) [addBlockGap_] appends the default gap; when the gap value
    is falsy (the number 0) the test of the gap fails and the gap attribute
    of [blockxml] decides: [addBlockGap_] appends the integer that the
    attribute parses to when there is a [blockxml] and that integer is not
    0, and the default gap in every other case (no [blockxml], no gap
    attribute, an attribute that is no number or that parses to 0). *)
Theorem addBlockGap_zero_gap (bi : ContentInfo) (g : Js.value) (gaps : list Z)
    (d : Z) :
  gap bi = Some g ->
  Js.parseInt (Js.toString g) = Js.Num 0 ->
  (Js.truthy g = true -> addBlockGap_ bi gaps d = gaps ++ [d])
  /\ (Js.truthy g = false ->
      addBlockGap_ bi gaps d
      = gaps ++ [match blockxml bi with
                 | Some xml =>
                     match Js.parseInt_opt (attr_gap xml) with
                     | Js.Num n => if n =? 0 then d else n
                     | Js.NaN => d
                     end
                 | None => d
                 end]).
Proof.
  intros Hg Hparse. unfold addBlockGap_. rewrite Hg. split; intros Ht; rewrite Ht.
  - rewrite Hparse. reflexivity.
  - destruct (blockxml bi) as [xml|]; [|reflexivity].
    destruct (Js.parseInt_opt (attr_gap xml)); reflexivity.
Qed.

Lemma addBlockGap_zero_gap_witness :
  addBlockGap_ (with_gap (Some (Js.VStr "0")) zeroGapWithXml) [8] 24 = [8; 24]
  /\ addBlockGap_ (with_gap (Some (Js.VNumber true "0.5")) zeroGapWithXml) [8] 24
     = [8; 24]
  /\ addBlockGap_ zeroGapWithXml [8] 24 = [8; 30].
Proof.
  split; [|split].
  - exact (proj1 (addBlockGap_zero_gap
                    (with_gap (Some (Js.VStr "0")) zeroGapWithXml)
                    (Js.VStr "0") [8] 24 eq_refl eq_refl) eq_refl).
  - exact (proj1 (addBlockGap_zero_gap
                    (with_gap (Some (Js.VNumber true "0.5")) zeroGapWithXml)
                    (Js.VNumber true "0.5") [8] 24 eq_refl eq_refl) eq_refl).
  - exact (proj2 (addBlockGap_zero_gap zeroGapWithXml (Js.VNum 0 eq_refl) [8] 24
                    eq_refl eq_refl) eq_refl).
Defined.

(** ** Dynamic categories *)

Lemma splice_replace {A} (before after items : list A) (a : A) :
  snd (splice (before ++ a :: after) (List.length before) 1 items)
  = before ++ items ++ after.
Proof.
  unfold splice. cbn [snd].
  rewrite firstn_app, firstn_all, Nat.sub_diag. cbn [firstn].
  rewrite app_nil_r. f_equal. f_equal.
  rewrite skipn_app, skipn_all2 by lia.
  replace (List.length before + 1 - List.length before)%nat with 1%nat by lia.
  reflexivity.
Qed.

(** One iteration of the loop on a dynamic-category entry whose expansion
    is not empty: the first entry of the expansion goes to the [switch]
    as it is, dynamic category or not, and the loop goes on behind it. *)
Lemma createFlyoutInfo_loop_expansion (fuel : nat)
    (before after rest : list ContentInfo) (ci first : ContentInfo)
    (name : string) (contents : list FlyoutItem) (gaps : list Z) (d : Z)
    (w : World) :
  custom ci = Some name ->
  toolboxCategoryCallbacks (targetWorkspace w) name = Some (first :: rest) ->
  createFlyoutInfo_loop (S fuel) (before ++ ci :: after) (List.length before)
    contents gaps d w
  = (r <- switchKind first contents gaps d;;
     createFlyoutInfo_loop fuel (before ++ (first :: rest) ++ after)
       (S (List.length before)) (fst r) (snd r) d)
      (set_callbackLookups (callbackLookups w ++ [name]) w).
Proof.
  intros Hcustom Hcb. cbn [createFlyoutInfo_loop].
  rewrite nth_error_app2, Nat.sub_diag by lia. cbn [nth_error].
  rewrite Hcustom.
  assert (Hrun : getDynamicCategoryContents_ name w
                 = (Return (first :: rest),
                    set_callbackLookups (callbackLookups w ++ [name]) w)).
  { unfold getDynamicCategoryContents_, bind, modify, get.
    replace (targetWorkspace (set_callbackLookups (callbackLookups w ++ [name]) w))
      with (targetWorkspace w) by (destruct w; reflexivity).
    rewrite Hcb. reflexivity. }
  erewrite bind_run.
  2:{ erewrite bind_run by exact Hrun. reflexivity. }
  rewrite splice_replace.
  rewrite nth_error_app2, Nat.sub_diag by lia. reflexivity.
Qed.

(** The [switch] ignores an entry whose kind is none of block, separator,
    label and button, such as a dynamic category. *)
Lemma switchKind_other (ci : ContentInfo) (contents : list FlyoutItem)
    (gaps : list Z) (d : Z) (w : World) :
  isContent ci = false ->
  isKind ci "SEP" = false ->
  switchKind ci contents gaps d w = (Return (contents, gaps), w).
Proof.
  unfold isContent, isKind, switchKind. intros Hc Hs.
  apply orb_false_elim in Hc as [Hc Hbutton].
  apply orb_false_elim in Hc as [Hblock Hlabel].
  rewrite Hblock, Hs, Hlabel, Hbutton. reflexivity.
Qed.

(** C6 (the code at the failing input): category [A] expands to the single
    entry category [B], which is registered and expands to one block.  The
    loop puts [B] at the index of [A] and goes on to the [switch] without
    testing ['custom' in contentInfo] again: [B] is never resolved (only [A]
    is looked up) and its block is not shown.  When [B] is the second entry
    of an expansion (category [C]) it is resolved. *)
Theorem nested_category_first_position_unresolved (n : nat) :
  nestedCallbacks "B" = Some [blockInfo "x"]
  /\ (exists w',
        createFlyoutInfo_ (2 + n) [dynamicCategoryInfo "A"] flyoutWithCategories
        = (Return ([], []), w')
        /\ callbackLookups w' = ["A"])
  /\ (exists contents w',
        createFlyoutInfo_ (3 + n) [dynamicCategoryInfo "C"] flyoutWithCategories
        = (Return (contents, [24; 24]), w')
        /\ map itemType contents = [None; Some "x"]
        /\ callbackLookups w' = ["C"; "B"]).
Proof.
  split; [reflexivity|]. split.
  - eexists. split; [vm_compute; reflexivity|reflexivity].
  - do 2 eexists. split; [vm_compute; reflexivity|]. split; reflexivity.
Qed.

(** ** The recycle pool *)

Lemma findRecycled_None (blockType : string) (pool : list Block) (i : nat) :
  findRecycled blockType pool i = None ->
  Forall (fun b => type b <> blockType) pool.
Proof.
  revert i. induction pool as [|b rest IH]; intros i H; cbn in H.
  - constructor.
  - destruct (String.eqb (type b) blockType) eqn:E; [discriminate|].
    constructor; [now apply String.eqb_neq|eauto].
Qed.

Lemma findRecycled_Some (blockType : string) (pool : list Block) (i k : nat) :
  findRecycled blockType pool i = Some k ->
  exists before b after,
    pool = before ++ b :: after
    /\ k = (i + List.length before)%nat
    /\ Forall (fun b' => type b' <> blockType) before
    /\ type b = blockType.
Proof.
  revert i. induction pool as [|b rest IH]; intros i H; cbn in H.
  - discriminate.
  - destruct (String.eqb (type b) blockType) eqn:E.
    + injection H as <-. exists [], b, rest.
      repeat split; [cbn; lia|constructor|now apply String.eqb_eq].
    + destruct (IH _ H) as (before & b' & after & -> & -> & Hbefore & Hb').
      exists (b :: before), b', after.
      repeat split; [cbn; lia| |assumption].
      constructor; [now apply String.eqb_neq|assumption].
Qed.

Lemma splice_one {A} (before after : list A) (a : A) :
  splice (before ++ a :: after) (List.length before) 1 []
  = ([a], before ++ after).
Proof.
  unfold splice. f_equal.
  - rewrite skipn_app, skipn_all, Nat.sub_diag. reflexivity.
  - rewrite firstn_app, firstn_all, Nat.sub_diag. cbn [firstn app].
    rewrite app_nil_r. f_equal.
    rewrite skipn_app, skipn_all2 by lia.
    replace (List.length before + 1 - List.length before)%nat with 1%nat by lia.
    reflexivity.
Qed.

(** C7: for every pool and every requested type, [getRecycledBlock_] either
    finds no entry of that type, returns undefined and leaves the pool as
    it is, or returns the first entry of that type in pool order, whose
    type is the requested one, and removes exactly that entry: the entries
    before and after it stay, in their order. *)
Theorem getRecycledBlock_first_match (blockType : string) (w : World) :
  (Forall (fun b => type b <> blockType) (recycledBlocks_ w)
   /\ getRecycledBlock_ blockType w = (Return None, w))
  \/ (exists before b after,
        recycledBlocks_ w = before ++ b :: after
        /\ Forall (fun b' => type b' <> blockType) before
        /\ type b = blockType
        /\ getRecycledBlock_ blockType w
           = (Return (Some b), set_recycledBlocks_ (before ++ after) w)).
Proof.
  unfold getRecycledBlock_, bind, get.
  destruct (findRecycled blockType (recycledBlocks_ w) 0) as [index|] eqn:E.
  - right.
    destruct (findRecycled_Some _ _ _ _ E)
      as (before & b & after & Hpool & Hindex & Hbefore & Hb).
    exists before, b, after. repeat split; try assumption.
    cbn in Hindex. subst index. rewrite Hpool, splice_one. reflexivity.
  - left. split; [eapply findRecycled_None; eassumption|reflexivity].
Qed.

(** ** Missing dynamic-category callbacks *)

Section Maintains.

Context (R : World -> World -> Prop) {HR : PreOrder R}.

Lemma maintains_ret {A} (a : A) : maintains R (ret a).
Proof. intros w. exists a, w. split; reflexivity. Qed.

Lemma maintains_get : maintains R get.
Proof. intros w. exists w, w. split; reflexivity. Qed.

Lemma maintains_modify (f : World -> World) :
  (forall w, R w (f w)) -> maintains R (modify f).
Proof. intros Hf w. exists tt, (f w). split; [reflexivity|apply Hf]. Qed.

Lemma maintains_bind {A B} (m : M A) (k : A -> M B) :
  maintains R m -> (forall a, maintains R (k a)) -> maintains R (bind m k).
Proof.
  intros Hm Hk w. unfold bind.
  destruct (Hm w) as (a & w1 & -> & H1).
  destruct (Hk a w1) as (b & w2 & -> & H2).
  exists b, w2. split; [reflexivity|]. etransitivity; eassumption.
Qed.

Lemma maintains_forEach {A} (l : list A) (f : A -> M unit) :
  (forall a, maintains R (f a)) -> maintains R (forEach l f).
Proof.
  intros Hf. induction l as [|a rest IH]; cbn [forEach].
  - apply maintains_ret.
  - apply maintains_bind; auto.
Qed.

End Maintains.

#[export] Instance sameTarget_PreOrder : PreOrder sameTarget.
Proof.
  split.
  - intros w. split; reflexivity.
  - intros w1 w2 w3 [H1 H2] [H3 H4]. split; congruence.
Qed.

Ltac maintains_step :=
  first
    [ apply maintains_ret; exact _
    | apply maintains_get; exact _
    | apply maintains_bind; [exact _| |intros ?]
    | apply maintains_forEach; [exact _|intros ?]
    | apply maintains_modify; intros []; hnf; cbn; repeat split;
      intros; (reflexivity || assumption)
    | match goal with
      | |- maintains _ (if ?c then _ else _) => destruct c
      end ].

Lemma sameTarget_setResizesEnabled_flyout (b : bool) :
  maintains sameTarget (setResizesEnabled FlyoutWorkspace b).
Proof. unfold setResizesEnabled. repeat maintains_step. Qed.

Lemma sameTarget_hide : maintains sameTarget hide.
Proof. unfold hide, isVisible, setVisible. repeat maintains_step. Qed.

Lemma sameTarget_dispose_flyout (b : Block) : maintains sameTarget (dispose FlyoutWorkspace b).
Proof. unfold dispose. repeat maintains_step. Qed.

Lemma sameTarget_recycleBlock_ (b : Block) : maintains sameTarget (recycleBlock_ b).
Proof. unfold recycleBlock_, moveTo. repeat maintains_step. Qed.

Lemma sameTarget_clearOldBlocks_ (blockIsRecyclable_ : Block -> bool) :
  maintains sameTarget (clearOldBlocks_ blockIsRecyclable_).
Proof.
  unfold clearOldBlocks_.
  repeat first [ apply sameTarget_recycleBlock_
               | apply sameTarget_dispose_flyout
               | maintains_step ].
Qed.

Lemma getDynamicCategoryContents_unregistered (name : string) (w : World) :
  toolboxCategoryCallbacks (targetWorkspace w) name = None ->
  getDynamicCategoryContents_ name w
  = (Throw (TypeError
       "Couldn't find a callback function when opening a toolbox category."),
     set_callbackLookups (callbackLookups w ++ [name]) w).
Proof.
  intros H. unfold getDynamicCategoryContents_, bind, modify, get.
  replace (targetWorkspace (set_callbackLookups (callbackLookups w ++ [name]) w))
    with (targetWorkspace w) by (destruct w; reflexivity).
  rewrite H. reflexivity.
Qed.

(** C8: when the target workspace has no callback registered for a category
    name, resolving the name throws at once: [getDynamicCategoryContents_]
    throws the TypeError of the source after one look-up; [show] called
    with the name throws it, whatever the subclass, having looked the name
    up exactly once; and the parsing loop throws it as soon as it reaches
    an entry that names the category, whatever follows the entry. *)
Theorem unregistered_category_throws (w : World) (name : string) :
  toolboxCategoryCallbacks (targetWorkspace w) name = None ->
  let failure :=
    TypeError "Couldn't find a callback function when opening a toolbox category." in
  getDynamicCategoryContents_ name w
    = (Throw failure, set_callbackLookups (callbackLookups w ++ [name]) w)
  /\ (forall layout_ reflowInternal_ position blockIsRecyclable_ fuel,
        exists w',
          show layout_ reflowInternal_ position blockIsRecyclable_ fuel
            (DefName name) w
          = (Throw failure, w')
          /\ callbackLookups w' = callbackLookups w ++ [name])
  /\ (forall fuel before ci after contents gaps defaultGap,
        custom ci = Some name ->
        createFlyoutInfo_loop (S fuel) (before ++ ci :: after)
          (List.length before) contents gaps defaultGap w
        = (Throw failure, set_callbackLookups (callbackLookups w ++ [name]) w)).
Proof.
  intros Hnone failure. split; [|split].
  - now apply getDynamicCategoryContents_unregistered.
  - intros layout_ reflowInternal_ position blockIsRecyclable_ fuel.
    unfold show.
    assert (Hpre : maintains sameTarget (setResizesEnabled FlyoutWorkspace false;; hide;;
                           clearOldBlocks_ blockIsRecyclable_)).
    { apply maintains_bind; [exact _|apply sameTarget_setResizesEnabled_flyout|intros _].
      apply maintains_bind; [exact _|apply sameTarget_hide|intros _].
      apply sameTarget_clearOldBlocks_. }
    destruct (Hpre w) as ([] & w1 & Hrun & Htarget & Hlookups).
    unfold bind in Hrun |- *.
    destruct (setResizesEnabled FlyoutWorkspace false w) as [[[]| |] w0];
      try discriminate Hrun.
    destruct (hide w0) as [[[]| |] w0']; try discriminate Hrun.
    rewrite Hrun.
    rewrite getDynamicCategoryContents_unregistered by congruence.
    eexists. split; [reflexivity|].
    rewrite <- Hlookups. destruct w1; reflexivity.
  - intros fuel before ci after contents gaps defaultGap Hcustom.
    cbn [createFlyoutInfo_loop].
    rewrite nth_error_app2, Nat.sub_diag by lia. cbn [nth_error].
    rewrite Hcustom. unfold bind at 1. unfold bind at 1.
    rewrite getDynamicCategoryContents_unregistered by assumption.
    reflexivity.
Qed.

Lemma unregistered_category_throws_witness :
  toolboxCategoryCallbacks (targetWorkspace flyoutWithCategories) "Z" = None
  /\ fst (getDynamicCategoryContents_ "Z" flyoutWithCategories)
     = Throw (TypeError
         "Couldn't find a callback function when opening a toolbox category.").
Proof.
  split; [reflexivity|].
  rewrite (proj1 (unregistered_category_throws flyoutWithCategories "Z" eq_refl)).
  reflexivity.
Defined.

(** ** Lengths of contents and gaps *)

Lemma instantiate_typed (s : State) :
  forall uid, typed s = true ->
  exists block uid', blocks.instantiate s uid = Some (block, uid').
Proof.
  induction s as [ty en vars|ty en vars n IH] using State_chain_ind;
    intros uid Ht; destruct ty as [ty|]; cbn in Ht |- *; try discriminate.
  - eauto.
  - destruct (IH (S uid) Ht) as (child & uid' & ->). eauto.
Qed.

Lemma sameTarget_fire (k : EventKind) : maintains sameTarget (eventUtils.fire k).
Proof.
  unfold eventUtils.fire. apply maintains_modify. intros w.
  destruct (Nat.eqb (disabledCount (events w)) 0); destruct w; split; reflexivity.
Qed.

Lemma sameTarget_createVariables_flyout (vars : list string) :
  maintains sameTarget (blocks.createVariables FlyoutWorkspace vars).
Proof.
  induction vars as [|v rest IH]; cbn [blocks.createVariables].
  - apply maintains_ret; exact _.
  - apply maintains_bind; [exact _|apply maintains_get; exact _|intros w].
    apply maintains_bind; [exact _| |intros _; exact IH].
    repeat maintains_step.
Qed.

Lemma sameTarget_append_flyout (s : State) :
  typed s = true -> maintains sameTarget (blocks.append s FlyoutWorkspace).
Proof.
  intros Ht. unfold blocks.append.
  apply maintains_bind; [exact _|apply maintains_get; exact _|intros w].
  destruct (instantiate_typed s (nextUid w) Ht) as (block & uid' & ->).
  repeat first [ apply sameTarget_createVariables_flyout
               | apply sameTarget_fire
               | maintains_step ].
Qed.

Lemma sameTarget_getRecycledBlock_opt (ty : option string) :
  maintains sameTarget (getRecycledBlock_opt ty).
Proof.
  destruct ty as [ty|]; [|apply maintains_ret; exact _].
  unfold getRecycledBlock_opt, getRecycledBlock_.
  apply maintains_bind; [exact _|apply maintains_get; exact _|intros w].
  destruct (findRecycled ty (recycledBlocks_ w) 0); [|apply maintains_ret; exact _].
  destruct (splice _ _ _ _). repeat maintains_step.
Qed.

Lemma sameTarget_createFlyoutBlock_ (ci : ContentInfo) :
  match blockxml ci with
  | Some xml => typed (element_block xml)
  | None => typed (asState ci)
  end = true ->
  maintains sameTarget (createFlyoutBlock_ ci).
Proof.
  intros Ht. unfold createFlyoutBlock_.
  apply maintains_bind; [exact _| |intros block; repeat maintains_step].
  destruct (blockxml ci) as [xml|].
  - apply maintains_bind; [exact _|apply sameTarget_getRecycledBlock_opt|intros [b|]].
    + apply maintains_ret; exact _.
    + now apply sameTarget_append_flyout.
  - apply maintains_bind; [exact _|apply sameTarget_getRecycledBlock_opt|intros [b|]].
    + apply maintains_ret; exact _.
    + apply sameTarget_append_flyout.
      destruct (enabled ci); exact Ht.
Qed.

Lemma length_addBlockGap_ (ci : ContentInfo) (gaps : list Z) (d : Z) :
  List.length (addBlockGap_ ci gaps d) = S (List.length gaps).
Proof.
  unfold addBlockGap_. rewrite length_app. cbn. lia.
Qed.

Lemma length_addSeparatorGap_ (ci : ContentInfo) (gaps : list Z) (d : Z) :
  gap ci <> None ->
  exists gaps',
    addSeparatorGap_ ci gaps d = inr gaps'
    /\ List.length gaps'
       = if (integerGap ci && (0 <? List.length gaps)%nat)%bool
         then List.length gaps else S (List.length gaps).
Proof.
  intros Hg. unfold addSeparatorGap_, integerGap.
  destruct (gap ci) as [g|]; [|congruence].
  destruct (Js.parseInt (Js.toString g)) as [|n]; cbn [Js.isNaN negb andb].
  - eexists. split; [reflexivity|]. rewrite length_app. cbn. lia.
  - destruct (0 <? List.length gaps)%nat eqn:E.
    + eexists. split; [reflexivity|].
      apply Nat.ltb_lt in E.
      rewrite length_app, length_firstn. cbn. lia.
    + eexists. split; [reflexivity|]. rewrite length_app. cbn. lia.
Qed.

Lemma nth_error_middle {A} (before rest : list A) :
  nth_error (before ++ rest) (List.length before) = nth_error rest 0.
Proof.
  rewrite nth_error_app2, Nat.sub_diag by lia. reflexivity.
Qed.

(** What the [switch] does with an entry of a static descriptor. *)
Lemma switchKind_static (ci : ContentInfo) (contents : list FlyoutItem)
    (gaps : list Z) (defaultGap : Z) (w : World) :
  staticEntry ci = true ->
  exists contents' gaps' w',
    switchKind ci contents gaps defaultGap w = (Return (contents', gaps'), w')
    /\ List.length contents'
       = (List.length contents + if isContent ci then 1 else 0)%nat
    /\ List.length gaps' = gapsAfter ci (List.length gaps).
Proof.
  unfold staticEntry, switchKind, isContent, gapsAfter, isKind.
  destruct (custom ci); [discriminate|].
  destruct (String.eqb (Js.toUpperCase (kind ci)) "BLOCK") eqn:EB.
  - intros Ht.
    destruct (sameTarget_createFlyoutBlock_ ci Ht w) as (block & w' & Hrun & _).
    unfold bind. rewrite Hrun. do 3 eexists. split; [reflexivity|].
    rewrite length_app, length_addBlockGap_. cbn. split; lia.
  - destruct (String.eqb (Js.toUpperCase (kind ci)) "SEP") eqn:ES.
    + intros Hg.
      destruct (length_addSeparatorGap_ ci gaps defaultGap) as (gaps' & Hrun & Hlen).
      { destruct (gap ci); congruence. }
      unfold bind. rewrite Hrun. cbn [lift ret].
      apply String.eqb_eq in ES. rewrite ES. cbn [String.eqb Ascii.eqb orb].
      do 3 eexists. split; [reflexivity|].
      split; [|exact Hlen].
      cbn. lia.
    + intros _.
      destruct (String.eqb (Js.toUpperCase (kind ci)) "LABEL") eqn:EL;
        [|destruct (String.eqb (Js.toUpperCase (kind ci)) "BUTTON") eqn:EU];
        do 3 eexists; (split; [reflexivity|]);
        rewrite ?length_app; cbn; split; lia.
Qed.

Lemma contentCount_cons (ci : ContentInfo) (rest : list ContentInfo) :
  contentCount (ci :: rest)
  = ((if isContent ci then 1 else 0) + contentCount rest)%nat.
Proof.
  unfold contentCount. cbn [filter]. destruct (isContent ci); reflexivity.
Qed.

(** On a static descriptor the loop returns when it has one unit of fuel
    per entry and one more, and the lengths of its results are the counts
    above. *)
Lemma createFlyoutInfo_loop_static (rest : list ContentInfo) :
  forall before contents gaps defaultGap fuel w,
    forallb staticEntry rest = true ->
    (List.length rest < fuel)%nat ->
    exists contents' gaps' w',
      createFlyoutInfo_loop fuel (before ++ rest) (List.length before)
        contents gaps defaultGap w
      = (Return (contents', gaps'), w')
      /\ List.length contents' = (List.length contents + contentCount rest)%nat
      /\ List.length gaps' = gapCount rest (List.length gaps).
Proof.
  induction rest as [|ci rest IH];
    intros before contents gaps defaultGap fuel w Hstatic Hfuel;
    (destruct fuel as [|fuel]; [cbn in Hfuel; lia|]);
    cbn [createFlyoutInfo_loop]; rewrite nth_error_middle; cbn [nth_error].
  - do 3 eexists. split; [reflexivity|]. cbn. split; lia.
  - cbn [forallb] in Hstatic. apply andb_prop in Hstatic as [Hci Hrest].
    assert (Hcustom : custom ci = None).
    { unfold staticEntry in Hci. destruct (custom ci); [discriminate|reflexivity]. }
    rewrite Hcustom. unfold bind at 1. cbn [ret].
    destruct (switchKind_static ci contents gaps defaultGap w Hci)
      as (contents1 & gaps1 & w1 & Hrun & Hc1 & Hg1).
    unfold bind. rewrite Hrun. cbn [fst snd].
    replace (before ++ ci :: rest) with ((before ++ [ci]) ++ rest)
      by (rewrite <- app_assoc; reflexivity).
    replace (S (List.length before)) with (List.length (before ++ [ci]))
      by (rewrite length_app; cbn; lia).
    destruct (IH (before ++ [ci]) contents1 gaps1 defaultGap fuel w1 Hrest)
      as (contents' & gaps' & w' & Hloop & Hc & Hg).
    { cbn in Hfuel. lia. }
    exists contents', gaps', w'. split; [exact Hloop|].
    rewrite contentCount_cons. cbn [gapCount]. rewrite Hc, Hg, Hc1, Hg1.
    split; [lia|reflexivity].
Qed.

(** What a run that returns has gone through. *)
Lemma bind_returns {A B} (m : M A) (k : A -> M B) (w w' : World) (b : B) :
  bind m k w = (Return b, w') ->
  exists a w1, m w = (Return a, w1) /\ k a w1 = (Return b, w').
Proof.
  unfold bind. destruct (m w) as [[a| |] w1]; intros H;
    [eauto|discriminate H|discriminate H].
Qed.

Lemma getDynamicCategoryContents_registered (name : string)
    (flyoutDef : list ContentInfo) (w : World) :
  toolboxCategoryCallbacks (targetWorkspace w) name = Some flyoutDef ->
  getDynamicCategoryContents_ name w
  = (Return flyoutDef, set_callbackLookups (callbackLookups w ++ [name]) w).
Proof.
  intros H. unfold getDynamicCategoryContents_, bind, modify, get.
  replace (targetWorkspace (set_callbackLookups (callbackLookups w ++ [name]) w))
    with (targetWorkspace w) by (destruct w; reflexivity).
  rewrite H. reflexivity.
Qed.

(** A block appended to the flyout workspace leaves the target workspace
    alone, whenever appending returns. *)
Lemma append_flyout_returns (s : State) (w w' : World) (b : Block) :
  blocks.append s FlyoutWorkspace w = (Return b, w') -> sameTarget w w'.
Proof.
  unfold blocks.append. erewrite bind_run by reflexivity.
  destruct (blocks.instantiate s (nextUid w)) as [[block uid']|];
    [|intros H; discriminate H].
  intros H.
  match type of H with
  | ?m w = _ => assert (Hm : maintains sameTarget m)
  end.
  { repeat first [ apply sameTarget_createVariables_flyout
                 | apply sameTarget_fire
                 | maintains_step ]. }
  destruct (Hm w) as (b0 & w0 & Hrun & Hs).
  rewrite Hrun in H. injection H as <- <-. exact Hs.
Qed.

Lemma createFlyoutBlock_returns (ci : ContentInfo) (w w' : World) (b : Block) :
  createFlyoutBlock_ ci w = (Return b, w') -> sameTarget w w'.
Proof.
  unfold createFlyoutBlock_. intros H.
  apply bind_returns in H as (block & w1 & H1 & H2).
  assert (Hs1 : sameTarget w w1).
  { destruct (blockxml ci) as [xml|];
      apply bind_returns in H1 as (r & w0 & Hr & H1);
      (match type of Hr with
       | getRecycledBlock_opt ?t _ = _ =>
           destruct (sameTarget_getRecycledBlock_opt t w) as (r' & w0' & Hr' & Hs)
       end);
      rewrite Hr in Hr'; injection Hr' as <- <-;
      (destruct r as [b0|];
       [injection H1 as <- <-; exact Hs
       |etransitivity; [exact Hs|eapply append_flyout_returns; exact H1]]). }
  match type of H2 with
  | ?m w1 = _ => assert (Hm : maintains sameTarget m) by repeat maintains_step
  end.
  destruct (Hm w1) as (b0 & w0 & Hrun & Hs).
  rewrite Hrun in H2. injection H2 as <- <-.
  etransitivity; eassumption.
Qed.

(** What the [switch] has done with an entry when it returns. *)
Lemma switchKind_returns (ci : ContentInfo) (contents contents' : list FlyoutItem)
    (gaps gaps' : list Z) (d : Z) (w w' : World) :
  switchKind ci contents gaps d w = (Return (contents', gaps'), w') ->
  List.length contents'
  = (List.length contents + if isContent ci then 1 else 0)%nat
  /\ List.length gaps' = gapsAfter ci (List.length gaps)
  /\ sameTarget w w'.
Proof.
  unfold switchKind, isContent, gapsAfter, isKind.
  destruct (String.eqb (Js.toUpperCase (kind ci)) "BLOCK") eqn:EB.
  - intros H. apply bind_returns in H as (block & w1 & H1 & H2).
    injection H2 as <- <- <-.
    rewrite length_app, length_addBlockGap_. cbn.
    split; [lia|]. split; [lia|]. eapply createFlyoutBlock_returns; exact H1.
  - destruct (String.eqb (Js.toUpperCase (kind ci)) "SEP") eqn:ES.
    + intros H. apply bind_returns in H as (g1 & w1 & H1 & H2).
      injection H2 as <- <- <-.
      destruct (gap ci) as [g|] eqn:Eg.
      * destruct (length_addSeparatorGap_ ci gaps d) as (g2 & Hrun & Hlen);
          [congruence|].
        rewrite Hrun in H1. injection H1 as <- <-.
        apply String.eqb_eq in ES. rewrite ES. cbn [String.eqb Ascii.eqb orb].
        split; [cbn; lia|]. split; [exact Hlen|reflexivity].
      * unfold addSeparatorGap_ in H1. rewrite Eg in H1. discriminate H1.
    + destruct (String.eqb (Js.toUpperCase (kind ci)) "LABEL") eqn:EL;
        [|destruct (String.eqb (Js.toUpperCase (kind ci)) "BUTTON") eqn:EU];
        intros H; injection H as <- <- <-; rewrite ?length_app; cbn;
        (split; [lia|]); (split; [lia|]); split; reflexivity.
Qed.

Lemma skipn_nth_error {A} (l : list A) (i : nat) (a : A) :
  nth_error l i = Some a -> skipn i l = a :: skipn (S i) l.
Proof.
  revert i. induction l as [|b l IH]; intros [|i] H; try discriminate H.
  - injection H as ->. reflexivity.
  - cbn in H |- *. apply (IH i H).
Qed.

Lemma nth_error_firstn_S {A} (l l' : list A) (i : nat) :
  firstn (S i) l = firstn (S i) l' -> nth_error l i = nth_error l' i.
Proof.
  revert l l'. induction i as [|i IH]; intros [|a l] [|a' l'] H;
    cbn in H |- *; try reflexivity; try discriminate H.
  - injection H as ->. reflexivity.
  - injection H as _ H. apply IH. exact H.
Qed.

Lemma firstn_firstn_S {A} (l l' : list A) (i : nat) :
  firstn (S i) l = firstn (S i) l' -> firstn i l = firstn i l'.
Proof.
  intros H.
  assert (E : forall k : list A, firstn i (firstn (S i) k) = firstn i k).
  { intros k. rewrite firstn_firstn. f_equal. lia. }
  rewrite <- (E l), <- (E l'), H. reflexivity.
Qed.

Lemma firstn_splice {A} (l items : list A) (i : nat) :
  (i <= List.length l)%nat ->
  firstn i (snd (splice l i 1 items)) = firstn i l.
Proof.
  intros Hi. unfold splice. cbn [snd].
  rewrite firstn_app, length_firstn, Nat.min_l by exact Hi.
  rewrite Nat.sub_diag, firstn_firstn, Nat.min_id. cbn [firstn].
  apply app_nil_r.
Qed.

(** The loop, whenever it returns: the entries that went through the
    [switch] from index [i] on are those of the array it leaves, and the
    lengths of [contents] and [gaps] have grown as these entries say. *)
Lemma createFlyoutInfo_loop_returns (fuel : nat) :
  forall P i contents gaps d w contents' gaps' w',
    createFlyoutInfo_loop fuel P i contents gaps d w
    = (Return (contents', gaps'), w') ->
    let F := parsedContentAfter fuel
               (toolboxCategoryCallbacks (targetWorkspace w)) P i in
    firstn i F = firstn i P
    /\ List.length contents'
       = (List.length contents + contentCount (skipn i F))%nat
    /\ List.length gaps' = gapCount (skipn i F) (List.length gaps).
Proof.
  induction fuel as [|fuel IH];
    intros P i contents gaps d w contents' gaps' w' H; [discriminate H|].
  cbn [createFlyoutInfo_loop] in H.
  destruct (nth_error P i) as [ci|] eqn:En.
  2:{ injection H as <- <- <-. cbn [parsedContentAfter]. rewrite En.
      apply nth_error_None in En. rewrite skipn_all2 by exact En.
      unfold contentCount. cbn. repeat split; lia. }
  assert (Hi : (i < List.length P)%nat)
    by (apply nth_error_Some; congruence).
  apply bind_returns in H as ([P' ci'] & w1 & H1 & H).
  assert (Hstep :
            toolboxCategoryCallbacks (targetWorkspace w1)
            = toolboxCategoryCallbacks (targetWorkspace w)
            /\ nth_error P' i = ci'
            /\ firstn i P' = firstn i P
            /\ parsedContentAfter (S fuel)
                 (toolboxCategoryCallbacks (targetWorkspace w)) P i
               = parsedContentAfter fuel
                   (toolboxCategoryCallbacks (targetWorkspace w)) P' (S i)).
  { cbn [parsedContentAfter]. rewrite En.
    destruct (custom ci) as [name|].
    - apply bind_returns in H1 as (pdc & w0 & H0 & H1).
      destruct (toolboxCategoryCallbacks (targetWorkspace w) name)
        as [E|] eqn:Ecb.
      + rewrite (getDynamicCategoryContents_registered _ _ _ Ecb) in H0.
        injection H0 as <- <-. injection H1 as <- <- <-.
        split; [destruct w; reflexivity|]. split; [reflexivity|].
        split; [apply firstn_splice; lia|reflexivity].
      + rewrite (getDynamicCategoryContents_unregistered _ _ Ecb) in H0.
        discriminate H0.
    - injection H1 as <- <- <-. rewrite En. repeat split; reflexivity. }
  destruct Hstep as (Hcb & Hnth & Hfirst & HF).
  destruct ci' as [ci'|]; [|discriminate H]. cbv iota beta in H.
  apply bind_returns in H as ([c1 g1] & w2 & Hsw & H).
  apply switchKind_returns in Hsw as (Hc1 & Hg1 & Ht & _).
  cbn [fst snd] in H.
  apply IH in H as (HfirstF & Hc & Hg). cbv zeta in HfirstF, Hc, Hg.
  rewrite Ht, Hcb in HfirstF, Hc, Hg.
  cbv zeta. rewrite HF.
  set (F := parsedContentAfter fuel
              (toolboxCategoryCallbacks (targetWorkspace w)) P' (S i)) in *.
  assert (HnthF : nth_error F i = Some ci').
  { rewrite (nth_error_firstn_S F P' i HfirstF). exact Hnth. }
  rewrite (skipn_nth_error F i ci' HnthF), contentCount_cons. cbn [gapCount].
  split; [rewrite (firstn_firstn_S F P' i HfirstF); exact Hfirst|].
  rewrite Hc, Hg, Hc1, Hg1. split; [lia|reflexivity].
Qed.

Lemma kind_not_sep (ci : ContentInfo) :
  isContent ci = true -> isKind ci "SEP" = false.
Proof.
  unfold isContent, isKind. intros H.
  destruct (String.eqb (Js.toUpperCase (kind ci)) "SEP") eqn:ES; [|reflexivity].
  apply String.eqb_eq in ES. rewrite ES in H. discriminate H.
Qed.

(** The number of gap entries is the number of items plus the number of
    separators that append. *)
Lemma gapCount_appending (D : list ContentInfo) :
  forall n,
    gapCount D n
    = (n + contentCount D + appendingSeparators D (Nat.eqb n 0))%nat.
Proof.
  induction D as [|ci rest IH]; intros n.
  - unfold contentCount. cbn. lia.
  - cbn [gapCount appendingSeparators]. rewrite contentCount_cons, IH.
    destruct (isContent ci) eqn:Ec.
    + pose proof (kind_not_sep ci Ec) as Hsep. rewrite Hsep.
      assert (Hg : gapsAfter ci n = S n).
      { unfold gapsAfter. rewrite Hsep. unfold isContent in Ec.
        destruct (isKind ci "BLOCK"); [reflexivity|].
        destruct (isKind ci "LABEL"); [reflexivity|].
        cbn [orb] in Ec. rewrite Ec. reflexivity. }
      rewrite Hg. cbn [Nat.eqb]. lia.
    + unfold isContent in Ec.
      apply orb_false_elim in Ec as [Ec Hbutton].
      apply orb_false_elim in Ec as [Hblock Hlabel].
      unfold gapsAfter. rewrite Hblock, Hlabel, Hbutton.
      destruct (isKind ci "SEP").
      * destruct n as [|n]; cbn [Nat.eqb Nat.ltb Nat.leb negb andb].
        -- rewrite andb_false_r. cbn [Nat.eqb]. lia.
        -- rewrite !andb_true_r.
           destruct (integerGap ci); cbn [Nat.eqb]; lia.
      * lia.
Qed.

Lemma parsedContentAfter_noCustom (callbacks : string -> option (list ContentInfo))
    (D : list ContentInfo) :
  forallb noCustom D = true ->
  forall fuel i, parsedContentAfter fuel callbacks D i = D.
Proof.
  intros HD. induction fuel as [|fuel IH]; intros i; [reflexivity|].
  cbn [parsedContentAfter].
  destruct (nth_error D i) as [ci|] eqn:En; [|reflexivity].
  apply nth_error_In in En.
  rewrite forallb_forall in HD. specialize (HD ci En).
  unfold noCustom in HD. destruct (custom ci); [discriminate HD|apply IH].
Qed.

(** C3 (counterexample): a descriptor that begins with a separator and for
    which [createFlyoutInfo_] returns one gap entry more than contents. *)
Lemma leading_separator_breaks_length_invariant :
  ~ (forall D fuel w contents gaps w',
       createFlyoutInfo_ fuel D w = (Return (contents, gaps), w') ->
       List.length contents = List.length gaps).
Proof.
  intros H.
  specialize (H [sepInfo (Some (Js.VNum 40 eq_refl)); blockInfo "math_number"]
                3%nat verticalFlyout).
  vm_compute in H. specialize (H _ _ _ eq_refl). discriminate H.
Qed.

(** C3 (amended): [createFlyoutInfo_] returns on every descriptor without
    dynamic categories whose block entries describe typed blocks and whose
    separators have a gap (given one unit of fuel per entry and one more).
    Whenever it returns, on any descriptor, [contents] has one item per
    block, label and button entry that went through the [switch], and
    [gaps] has one entry per item and one more for every separator that
    appended: a separator appends the default gap when no gap entry exists
    yet or when its gap does not parse to an integer, and overwrites the
    last gap entry otherwise.  So [contents.length == gaps.length] exactly
    when no separator appended, and [gaps] is longer than [contents] when
    the first entry is a separator.  The entries that went through the
    [switch] are those of the array as the loop leaves it; without dynamic
    categories that is the descriptor itself. *)
Theorem createFlyoutInfo_lengths (D : list ContentInfo) (fuel : nat) (w : World) :
  (forallb staticEntry D = true ->
   (List.length D < fuel)%nat ->
   exists contents gaps w',
     createFlyoutInfo_ fuel D w = (Return (contents, gaps), w'))
  /\ (forall contents gaps w',
        createFlyoutInfo_ fuel D w = (Return (contents, gaps), w') ->
        let P := parsedContentAfter fuel
                   (toolboxCategoryCallbacks (targetWorkspace w)) D 0 in
        List.length contents = contentCount P
        /\ List.length gaps
           = (List.length contents + appendingSeparators P true)%nat
        /\ (List.length contents = List.length gaps
            <-> appendingSeparators P true = 0%nat)
        /\ match P with
           | first :: _ =>
               isKind first "SEP" = true ->
               (List.length contents < List.length gaps)%nat
           | [] => True
           end
        /\ (forallb noCustom D = true -> P = D)).
Proof.
  split.
  - intros Hstatic Hfuel. unfold createFlyoutInfo_, bind, modify, get.
    set (w0 := set_permanentlyDisabled_ [] w).
    set (d := if horizontalLayout w0 then GAP_X w0 else GAP_Y w0).
    destruct (createFlyoutInfo_loop_static D [] [] [] d fuel w0 Hstatic Hfuel)
      as (contents & gaps & w' & Hrun & _).
    exists contents, gaps, w'. exact Hrun.
  - intros contents gaps w' H. unfold createFlyoutInfo_ in H.
    do 2 (erewrite bind_run in H by reflexivity).
    apply createFlyoutInfo_loop_returns in H as (_ & Hc & Hg).
    cbv zeta in Hc, Hg.
    replace (targetWorkspace (set_permanentlyDisabled_ [] w))
      with (targetWorkspace w) in Hc, Hg by (destruct w; reflexivity).
    cbn [skipn List.length Nat.add] in Hc, Hg.
    rewrite gapCount_appending in Hg. cbn [Nat.eqb Nat.add] in Hg.
    cbv zeta. rewrite Hg, Hc.
    split; [reflexivity|]. split; [reflexivity|]. split; [lia|].
    split; [|intros HD; apply parsedContentAfter_noCustom; exact HD].
    destruct (parsedContentAfter _ _ _ _) as [|first rest]; [exact I|].
    intros Hsep. cbn [appendingSeparators]. rewrite Hsep, andb_false_r. lia.
Qed.

Lemma createFlyoutInfo_lengths_witness :
  exists contents w',
    createFlyoutInfo_ 5 leadingSeparators verticalFlyout
    = (Return (contents, [60; 24]), w')
    /\ List.length contents = 1%nat
    /\ appendingSeparators leadingSeparators true = 1%nat.
Proof.
  destruct (proj1 (createFlyoutInfo_lengths leadingSeparators 5 verticalFlyout)
              eq_refl)
    as (contents & gaps & w' & Hrun); [cbn; lia|].
  destruct (proj2 (createFlyoutInfo_lengths leadingSeparators 5 verticalFlyout)
              contents gaps w' Hrun) as (Hc & _ & _ & _ & HP).
  rewrite (HP eq_refl) in Hc.
  exists contents, w'.
  vm_compute in Hrun. injection Hrun as <- <- <-.
  repeat split; reflexivity.
Defined.

(** ** The capacity filter *)

(** A top-level block that is recorded as permanently disabled is left as
    it is by any number of runs of the capacity filter, whatever the
    capacity of the target workspace. *)
Lemma filterForCapacity_keeps_recorded (n : nat) (w : World) (b : Block) :
  In b (topBlocks (workspace_ w)) ->
  existsb (Nat.eqb (id b)) (permanentlyDisabled_ w) = true ->
  In b (topBlocks (workspace_ (after (repeatM n filterForCapacity_) w))).
Proof.
  revert w. induction n as [|n IH]; intros w Hin Hrec; [exact Hin|].
  cbn [repeatM]. unfold after, bind.
  unfold filterForCapacity_ at 1. unfold modify at 1.
  apply IH.
  - destruct w; cbn in *. apply in_map_iff. exists b.
    rewrite Hrec. cbn. split; [reflexivity|assumption].
  - destruct w; cbn in *. exact Hrec.
Qed.

Lemma chainDisabled_setEnabledChain (enable : bool) (b : Block) :
  Forall (Logic.eq (negb enable)) (chainDisabled (setEnabledChain enable b)).
Proof.
  induction b using Block_chain_ind; cbn; repeat constructor; assumption.
Qed.

(** A top-level block that is not recorded gets, with every block connected
    below it, the enabled state that the capacity query gives, whatever
    the state of those blocks was. *)
Lemma filterForCapacity_sets_chain (w : World) (b : Block) :
  In b (topBlocks (workspace_ w)) ->
  existsb (Nat.eqb (id b)) (permanentlyDisabled_ w) = false ->
  In (setEnabledChain
        (isCapacityAvailable (targetWorkspace w) (getBlockTypeCounts b)) b)
     (topBlocks (workspace_ (after filterForCapacity_ w))).
Proof.
  intros Hin Hrec. unfold after, filterForCapacity_, modify.
  destruct w; cbn in *. apply in_map_iff. exists b.
  rewrite Hrec. cbn. split; [reflexivity|assumption].
Qed.

Lemma repeatM_fixed (m : M unit) (w : World) (n : nat) :
  m w = (Return tt, w) -> repeatM n m w = (Return tt, w).
Proof.
  intros H. induction n as [|n IH]; [reflexivity|].
  cbn [repeatM]. unfold bind. rewrite H. exact IH.
Qed.

(** C1 (the code at the failing input): the entry describes a block [a]
    with a block [b] connected below it that is declared disabled, and the
    target workspace has no capacity limit.  [b] is materialised disabled,
    but only the top block is tested for the permanently-disabled list, so
    the list stays empty; every later run of the capacity filter walks the
    chain of [a] and enables [b]. *)
Theorem capacity_filter_enables_disabled_child (n k : nat) :
  exists contents gaps w1,
    createFlyoutInfo_ (2 + n) [blockWithDisabledChild] verticalFlyout
    = (Return (contents, gaps), w1)
    /\ map chainTypes (topBlocks (workspace_ w1)) = [["a"; "b"]]
    /\ map chainDisabled (topBlocks (workspace_ w1)) = [[false; true]]
    /\ permanentlyDisabled_ w1 = []
    /\ map chainDisabled
         (topBlocks (workspace_ (after (repeatM (S k) filterForCapacity_) w1)))
       = [[false; false]].
Proof.
  do 3 eexists. split; [vm_compute; reflexivity|].
  repeat split.
  cbn [repeatM]. unfold after, bind.
  match goal with
  | |- context [filterForCapacity_ ?w] =>
      let r := eval vm_compute in (filterForCapacity_ w) in
      change (filterForCapacity_ w) with r
  end.
  cbv iota. rewrite repeatM_fixed; reflexivity.
Qed.

(** ** Instantiating a shown block *)

#[export] Instance undisturbed_PreOrder : PreOrder undisturbed.
Proof.
  split.
  - intros w. repeat split; reflexivity.
  - intros w1 w2 w3 (He1 & Hg1 & Ht1) (He2 & Hg2 & Ht2).
    repeat split; try congruence.
    intros Hd. rewrite He2, He1; [reflexivity|assumption|].
    rewrite He1; assumption.
Qed.

#[export] Instance sameTargetAndEvents_PreOrder : PreOrder sameTargetAndEvents.
Proof.
  split.
  - intros w. split; reflexivity.
  - intros w1 w2 w3 [H1 H2] [H3 H4]. split; congruence.
Qed.

Lemma fire_suspended (k : EventKind) (w : World) :
  disabledCount (events w) <> 0%nat ->
  eventUtils.fire k w = (Return tt, w).
Proof.
  intros Hd. unfold eventUtils.fire, modify.
  apply Nat.eqb_neq in Hd. rewrite Hd. reflexivity.
Qed.

Lemma undisturbed_fire (k : EventKind) : maintains undisturbed (eventUtils.fire k).
Proof.
  intros w. exists tt. unfold eventUtils.fire, modify.
  destruct (Nat.eqb (disabledCount (events w)) 0) eqn:E.
  - eexists. split; [reflexivity|].
    apply Nat.eqb_eq in E.
    split; [intros Hn; contradiction|].
    destruct w; split; reflexivity.
  - exists w. split; reflexivity.
Qed.

Lemma undisturbed_setResizesEnabled_target (b : bool) :
  maintains undisturbed (setResizesEnabled TargetWorkspace b).
Proof. unfold setResizesEnabled. repeat maintains_step. Qed.

Lemma undisturbed_createVariables_target (vars : list string) :
  maintains undisturbed (blocks.createVariables TargetWorkspace vars).
Proof.
  induction vars as [|v rest IH]; cbn [blocks.createVariables].
  - apply maintains_ret; exact _.
  - apply maintains_bind; [exact _|apply maintains_get; exact _|intros w].
    apply maintains_bind; [exact _| |intros _; exact IH].
    repeat first [apply undisturbed_fire | maintains_step].
Qed.

Lemma typed_save (b : Block) : typed (blocks.save b) = true.
Proof.
  induction b using Block_chain_ind; cbn; auto.
Qed.


Lemma finalOffset_geometry (w w' : World) (b : Block) :
  geometry w' = geometry w -> finalOffset w' b = finalOffset w b.
Proof.
  unfold geometry, finalOffset. intros [= -> -> -> ->]. reflexivity.
Qed.

(** Appending to the target workspace while notifications are suspended:
    nothing is queued and the new block is the last top block. *)
Lemma append_target_suspended (s : State) (w : World) :
  typed s = true ->
  disabledCount (events w) <> 0%nat ->
  exists block w',
    blocks.append s TargetWorkspace w = (Return block, w')
    /\ events w' = events w
    /\ geometry w' = geometry w
    /\ topBlocks (targetWorkspace w') = topBlocks (targetWorkspace w) ++ [block].
Proof.
  intros Ht Hd. unfold blocks.append.
  erewrite bind_run by reflexivity.
  destruct (instantiate_typed s (nextUid w) Ht) as (block & uid' & ->).
  do 2 (erewrite bind_run by reflexivity).
  match goal with
  | |- context [bind (blocks.createVariables ?r ?vars) _ ?w0] =>
      destruct (undisturbed_createVariables_target vars w0)
        as ([] & w1 & Hrun & He & Hg & Htop)
  end.
  erewrite bind_run by exact Hrun.
  assert (He' : events w1 = events w).
  { rewrite He; [destruct w; reflexivity|destruct w; exact Hd]. }
  erewrite bind_run by (apply fire_suspended; rewrite He'; exact Hd).
  exists block, w1. split; [reflexivity|]. split; [exact He'|].
  split.
  - rewrite Hg. destruct w; reflexivity.
  - rewrite Htop. destruct w; reflexivity.
Qed.

(** The clone of a rendered block, made while notifications are suspended:
    no notification is queued, and the clone is a top block of the target
    workspace at the position [finalOffset]. *)
Lemma placeNewBlock_suspended (oldBlock : Block) (w : World) :
  rendered oldBlock = true ->
  disabledCount (events w) <> 0%nat ->
  exists block w',
    placeNewBlock_ oldBlock w = (Return block, w')
    /\ events w' = events w
    /\ In block (topBlocks (targetWorkspace w'))
    /\ xy block = Coordinate.mk (Coordinate.x (finalOffset w oldBlock))
                    (Coordinate.y (finalOffset w oldBlock)).
Proof.
  intros Hr Hd. unfold placeNewBlock_. rewrite Hr. cbn [negb].
  destruct (undisturbed_setResizesEnabled_target false w)
    as ([] & w1 & Hrun1 & He1 & Hg1 & Ht1).
  rewrite (bind_run _ _ _ _ _ Hrun1).
  specialize (He1 Hd).
  destruct (append_target_suspended (blocks.save oldBlock) w1 (typed_save _))
    as (block & w2 & Hrun2 & He2 & Hg2 & Ht2).
  { rewrite He1. exact Hd. }
  rewrite (bind_run _ _ _ _ _ Hrun2).
  unfold positionNewBlock_, moveTo.
  do 2 (erewrite bind_run by reflexivity).
  do 2 eexists. split; [reflexivity|].
  split; [destruct w2; cbn in *; congruence|].
  split.
  { destruct w2 as [fw tw]; cbn in *. rewrite Ht2.
    apply in_map_iff. exists block. rewrite Nat.eqb_refl.
    split; [reflexivity|]. apply in_or_app. right. left. reflexivity. }
  cbn [xy moved].
  rewrite (finalOffset_geometry w w2) by congruence. reflexivity.
Qed.

(** Firing one notification per variable while notifications are
    enabled. *)
Lemma forEach_fire_enabled (vars : list string) (w : World) :
  disabledCount (events w) = 0%nat ->
  forEach vars (fun v => eventUtils.fire (VAR_CREATE v)) w
  = (Return tt,
     set_events
       (mkEvents 0 (currentGroup (events w))
          (FIRE_QUEUE (events w)
           ++ map (fun v => mkEvent (VAR_CREATE v) (currentGroup (events w))) vars))
       w).
Proof.
  revert w. induction vars as [|v rest IH]; intros w Hd; cbn [forEach map].
  - rewrite app_nil_r. destruct w as [? ? ? ? ? ? ? ? ? ? ? ? ? ? ? [d g q] ? ?].
    cbn in Hd. subst d. reflexivity.
  - erewrite bind_run by reflexivity. unfold eventUtils.fire, modify at 1.
    rewrite Hd. cbn [Nat.eqb]. rewrite IH by (destruct w; reflexivity).
    destruct w as [? ? ? ? ? ? ? ? ? ? ? ? ? ? ? [d g q] ? ?].
    cbn. rewrite <- app_assoc. reflexivity.
Qed.

Lemma sameTargetAndEvents_hide : maintains sameTargetAndEvents hide.
Proof. unfold hide, isVisible, setVisible. repeat maintains_step. Qed.

Lemma sameTargetAndEvents_filterForCapacity_ :
  maintains sameTargetAndEvents filterForCapacity_.
Proof. unfold filterForCapacity_. repeat maintains_step. Qed.

Lemma createBlock_runs (originalBlock : Block) (w : World) :
  rendered originalBlock = true ->
  exists newBlock w',
    createBlock originalBlock w = (Return newBlock, w')
    /\ In newBlock (topBlocks (targetWorkspace w'))
    /\ xy newBlock
       = Coordinate.mk (Coordinate.x (finalOffset w originalBlock))
           (Coordinate.y (finalOffset w originalBlock))
    /\ (let added :=
          Variables.getAddedVariables (targetWorkspace w')
            (variableMap (targetWorkspace w)) in
        if Nat.eqb (disabledCount (events w)) 0
        then exists g,
               FIRE_QUEUE (events w')
               = FIRE_QUEUE (events w)
                 ++ map (fun v => mkEvent (VAR_CREATE v) (Some g)) added
                 ++ [mkEvent (BLOCK_CREATE (id newBlock)) (Some g)]
        else FIRE_QUEUE (events w') = FIRE_QUEUE (events w)).
Proof.
  intros Hr. unfold createBlock.
  destruct w as [fw tw hl ac vis rw ls ms bs pd rb gx gy wd ht [d g q] uid lk].
  do 3 (erewrite bind_run by reflexivity).
  match goal with
  | |- context [bind (try_finally _ _) _ ?w0] =>
      destruct (placeNewBlock_suspended originalBlock w0 Hr)
        as (newBlock & wp & Hrun & He & Hin & Hxy); [cbn; lia|]
  end.
  erewrite bind_run by (eapply try_finally_run; [exact Hrun|reflexivity]).
  do 3 (erewrite bind_run by reflexivity).
  cbn in He. rewrite He. cbn [Nat.pred disabledCount currentGroup FIRE_QUEUE].
  cbn in Hin, Hxy |- *.
  assert (Hclose : forall c : bool,
             maintains sameTargetAndEvents (if c then hide else filterForCapacity_)).
  { intros [|];
      [apply sameTargetAndEvents_hide|apply sameTargetAndEvents_filterForCapacity_]. }
  destruct d as [|d]; cbn [Nat.eqb].
  - erewrite bind_run.
    2:{ erewrite bind_run by reflexivity.
        erewrite bind_run by (apply forEach_fire_enabled; reflexivity).
        reflexivity. }
    erewrite bind_run by reflexivity.
    match goal with
    | |- context [bind (if ?c then hide else filterForCapacity_) _ ?w0] =>
        destruct (Hclose c w0) as ([] & w' & Hrun' & Ht' & He')
    end.
    erewrite bind_run by exact Hrun'.
    exists newBlock, w'. split; [reflexivity|].
    rewrite Ht', He'. cbn.
    split; [exact Hin|]. split; [exact Hxy|].
    eexists. rewrite <- app_assoc. reflexivity.
  - do 2 (erewrite bind_run by reflexivity).
    match goal with
    | |- context [bind (if ?c then hide else filterForCapacity_) _ ?w0] =>
        destruct (Hclose c w0) as ([] & w' & Hrun' & Ht' & He')
    end.
    erewrite bind_run by exact Hrun'.
    exists newBlock, w'. split; [reflexivity|].
    rewrite Ht', He'. cbn.
    split; [exact Hin|]. split; [exact Hxy|reflexivity].
Qed.


(** C2 (counterexample): a successful call of [createBlock], made while
    notifications are suspended, that queues no notification at all. *)
Lemma createBlock_silent_when_suspended :
  ~ (forall w b newBlock w',
       createBlock b w = (Return newBlock, w') ->
       exists g,
         FIRE_QUEUE (events w')
         = FIRE_QUEUE (events w)
           ++ map (fun v => mkEvent (VAR_CREATE v) (Some g))
                (Variables.getAddedVariables (targetWorkspace w')
                   (variableMap (targetWorkspace w)))
           ++ [mkEvent (BLOCK_CREATE (id newBlock)) (Some g)]).
Proof.
  intros H.
  destruct (H suspendedFlyout shownBlock
              (fst (match createBlock shownBlock suspendedFlyout with
                    | (Return b, w') => (b, w')
                    | (_, w') => (shownBlock, w')
                    end))
              (snd (createBlock shownBlock suspendedFlyout)))
    as [g Hg]; [vm_compute; reflexivity|].
  vm_compute in Hg. discriminate Hg.
Qed.

(** C2 (amended): every call of [createBlock] on a rendered block succeeds.
    When notifications are enabled at the time of the call, it queues
    exactly: one variable-creation notification per variable that is on the
    target workspace after cloning but was not before, then one
    block-creation notification for the new block, all with one and the same
    event-group id.  When notifications are suspended at the time of the
    call, it queues nothing. *)
Theorem createBlock_notifications (originalBlock : Block) (w : World) :
  rendered originalBlock = true ->
  exists newBlock w',
    createBlock originalBlock w = (Return newBlock, w')
    /\ let added :=
         filter
           (fun v => negb (existsb (String.eqb v) (variableMap (targetWorkspace w))))
           (variableMap (targetWorkspace w')) in
       if Nat.eqb (disabledCount (events w)) 0
       then exists g,
              FIRE_QUEUE (events w')
              = FIRE_QUEUE (events w)
                ++ map (fun v => mkEvent (VAR_CREATE v) (Some g)) added
                ++ [mkEvent (BLOCK_CREATE (id newBlock)) (Some g)]
       else FIRE_QUEUE (events w') = FIRE_QUEUE (events w).
Proof.
  intros Hr.
  destruct (createBlock_runs originalBlock w Hr)
    as (newBlock & w' & Hrun & _ & _ & Hq).
  exists newBlock, w'. split; [exact Hrun|exact Hq].
Qed.

Lemma createBlock_notifications_witness :
  rendered shownBlock = true
  /\ exists newBlock w',
       createBlock shownBlock shownFlyout = (Return newBlock, w')
       /\ exists g,
            FIRE_QUEUE (events w')
            = FIRE_QUEUE (events shownFlyout)
              ++ [mkEvent (VAR_CREATE "x") (Some g);
                  mkEvent (BLOCK_CREATE (id newBlock)) (Some g)].
Proof.
  split; [reflexivity|].
  destruct (createBlock_notifications shownBlock shownFlyout eq_refl)
    as (newBlock & w' & Hrun & Hq).
  exists newBlock, w'. split; [exact Hrun|].
  vm_compute in Hrun. injection Hrun as <- <-. exact Hq.
Defined.

(** ** Where the clone is put *)

(** Multiplying a number by 1 gives the number back: the mantissa of the
    product is the mantissa shifted left by 52 bits, and rounding shifts it
    back without loss. *)
Lemma mul_one (a : Js.double) :
  Js.isDouble a = true -> Js.mul a Js.one = a.
Proof.
  destruct a as [s|s| |s m e]; intros Hv; try reflexivity.
  - cbn. destruct s; reflexivity.
  - cbn. destruct s; reflexivity.
  - cbn in Hv. unfold bounded, canonical_mantissa in Hv.
    apply andb_prop in Hv as [Hc Hb]. apply Z.eqb_eq in Hc.
    change Js.one with (S754_finite false 4503599627370496 (-52)).
    unfold Js.mul, SFmul. rewrite Pos.mul_comm.
    change (Pos.mul 4503599627370496 m) with (Pos.iter xO m 52).
    rewrite xorb_false_r. unfold binary_round_aux, shr_fexp.
    assert (Hd : Zdigits2 (Z.pos (Pos.iter xO m 52)) + (e + -52)
                 = Z.pos (digits2_pos m) + e).
    { cbn [Zdigits2 Pos.iter digits2_pos]. lia. }
    rewrite Hd. fold Js.prec Js.emax in Hc |- *. rewrite Hc.
    replace (e - (e + -52)) with 52 by lia.
    cbn [shr shr_record_of_loc iter_pos shr_1 Pos.iter shr_m loc_of_shr_record
         round_nearest_even fst snd orb].
    replace (e + -52 + 52) with e by lia.
    cbn [Zdigits2]. rewrite Hc, Z.sub_diag.
    cbn [shr shr_record_of_loc shr_m]. rewrite Hb. reflexivity.
Qed.

Lemma strictEquals_refl (a : Js.double) :
  Js.numberIsNaN a = false -> Js.strictEquals a a = true.
Proof.
  unfold Js.strictEquals, SFeqb.
  destruct a as [s|s| |s m e]; intros H; try discriminate H;
    cbn [SFcompare]; try (destruct s; reflexivity).
  destruct s; rewrite Z.compare_refl, Pos.compare_cont_refl; reflexivity.
Qed.

(** With scale 1 on both sides and both origins at 0, the arithmetic of
    [positionNewBlock_] gives every number back ([-0] comes back as [0]). *)
Lemma through_identity (a : Js.double) :
  Js.isDouble a = true ->
  Js.numberIsNaN a = false ->
  Js.strictEquals
    (Js.mul (Js.sub (Js.add Js.zero (Js.mul a Js.one)) Js.zero)
       (Js.div Js.one Js.one)) a = true.
Proof.
  intros Hv Hn. rewrite (mul_one a Hv).
  change (Js.div Js.one Js.one) with Js.one.
  destruct a as [s|s| |s m e]; try discriminate Hn.
  - destruct s; reflexivity.
  - destruct s; reflexivity.
  - change (Js.sub (Js.add Js.zero (S754_finite s m e)) Js.zero)
      with (S754_finite s m e).
    rewrite (mul_one _ Hv). apply strictEquals_refl. reflexivity.
Qed.

(** With scale 1 on both sides the two multiplications of
    [positionNewBlock_] change nothing. *)
Lemma finalOffset_scale_one (w : World) (oldBlock : Block) :
  scale (workspace_ w) = Js.one ->
  scale (targetWorkspace w) = Js.one ->
  Coordinate.isDouble (xy oldBlock) = true ->
  Coordinate.isDouble
    (Coordinate.difference
       (Coordinate.sum (originOffsetInPixels (workspace_ w)) (xy oldBlock))
       (originOffsetInPixels (targetWorkspace w))) = true ->
  finalOffset w oldBlock
  = Coordinate.difference
      (Coordinate.sum (originOffsetInPixels (workspace_ w)) (xy oldBlock))
      (originOffsetInPixels (targetWorkspace w)).
Proof.
  intros Hf Ht Hv Hd. unfold finalOffset. rewrite Hf, Ht.
  change (Js.div Js.one Js.one) with Js.one.
  unfold Coordinate.isDouble in Hv, Hd.
  apply andb_prop in Hv as [Hvx Hvy]. apply andb_prop in Hd as [Hdx Hdy].
  unfold Coordinate.scale at 2. cbn [Coordinate.x Coordinate.y].
  rewrite (mul_one _ Hvx), (mul_one _ Hvy).
  replace (Coordinate.mk (Coordinate.x (xy oldBlock)) (Coordinate.y (xy oldBlock)))
    with (xy oldBlock) by (destruct (xy oldBlock); reflexivity).
  unfold Coordinate.scale.
  rewrite (mul_one _ Hdx), (mul_one _ Hdy).
  destruct (Coordinate.difference _ _); reflexivity.
Qed.

Lemma finalOffset_identity (w : World) (oldBlock : Block) :
  scale (workspace_ w) = Js.one ->
  scale (targetWorkspace w) = Js.one ->
  originOffsetInPixels (workspace_ w) = Coordinate.origin ->
  originOffsetInPixels (targetWorkspace w) = Coordinate.origin ->
  Coordinate.isDouble (xy oldBlock) = true ->
  Coordinate.isNumber (xy oldBlock) = true ->
  Coordinate.equals (finalOffset w oldBlock) (xy oldBlock) = true.
Proof.
  intros Hf Ht Hfo Hto Hv Hn. unfold finalOffset. rewrite Hf, Ht, Hfo, Hto.
  unfold Coordinate.isDouble in Hv. unfold Coordinate.isNumber in Hn.
  apply andb_prop in Hv as [Hvx Hvy]. apply andb_prop in Hn as [Hnx Hny].
  apply negb_true_iff in Hnx, Hny.
  unfold Coordinate.equals, Coordinate.scale, Coordinate.difference,
    Coordinate.sum, Coordinate.origin.
  cbn [Coordinate.x Coordinate.y].
  rewrite (through_identity _ Hvx Hnx), (through_identity _ Hvy Hny).
  reflexivity.
Qed.

(** C9 (counterexample): both workspaces have scale 1 and the same origin
    offset (100, 0); the source block is at x = 0.1.  The clone is put at
    (100 + 0.1) - 100, which in double arithmetic is 0.09999999999999432
    and not 0.1. *)
Lemma clone_off_source_position_by_rounding :
  ~ (forall (oldBlock : Block) (w : World),
       rendered oldBlock = true ->
       scale (workspace_ w) = Js.one ->
       scale (targetWorkspace w) = Js.one ->
       Coordinate.equals (originOffsetInPixels (workspace_ w))
         (originOffsetInPixels (targetWorkspace w)) = true ->
       exists newBlock w',
         createBlock oldBlock w = (Return newBlock, w')
         /\ Coordinate.equals (xy newBlock) (xy oldBlock) = true).
Proof.
  intros H.
  destruct (H blockAtOneTenth pannedFlyout eq_refl eq_refl eq_refl eq_refl)
    as (newBlock & w' & Hrun & Heq).
  vm_compute in Hrun. injection Hrun as <- _.
  vm_compute in Heq. discriminate Heq.
Qed.

(** C9 (amended): when the flyout workspace and the target workspace both
    have scale 1, [createBlock] on a rendered source block returns a clone
    that is a top block of the target workspace, put at
    (flyout offset + source position) - target offset, computed in double
    arithmetic.  When both origin offsets are (0, 0) these are the
    coordinates of the source block ([Coordinate.equals]); with equal
    offsets other than 0 they are the source coordinates only when the sum
    and the difference happen to be exact. *)
Theorem clone_lands_on_source_position (oldBlock : Block) (w : World) :
  rendered oldBlock = true ->
  scale (workspace_ w) = Js.one ->
  scale (targetWorkspace w) = Js.one ->
  Coordinate.isDouble (xy oldBlock) = true ->
  exists newBlock w',
    createBlock oldBlock w = (Return newBlock, w')
    /\ In newBlock (topBlocks (targetWorkspace w'))
    /\ (originOffsetInPixels (workspace_ w) = Coordinate.origin ->
        originOffsetInPixels (targetWorkspace w) = Coordinate.origin ->
        Coordinate.isNumber (xy oldBlock) = true ->
        Coordinate.equals (xy newBlock) (xy oldBlock) = true)
    /\ (let landing :=
          Coordinate.difference
            (Coordinate.sum (originOffsetInPixels (workspace_ w)) (xy oldBlock))
            (originOffsetInPixels (targetWorkspace w)) in
        Coordinate.isDouble landing = true -> xy newBlock = landing).
Proof.
  intros Hr Hf Ht Hv.
  destruct (createBlock_runs oldBlock w Hr)
    as (newBlock & w' & Hrun & Hin & Hxy & _).
  exists newBlock, w'. split; [exact Hrun|]. split; [exact Hin|].
  replace (xy newBlock) with (finalOffset w oldBlock)
    by (rewrite Hxy; destruct (finalOffset w oldBlock); reflexivity).
  split.
  - intros Hfo Hto Hn. apply finalOffset_identity; assumption.
  - intros landing Hd. apply finalOffset_scale_one; assumption.
Qed.

Lemma clone_lands_on_source_position_witness :
  (exists newBlock w',
      createBlock shownBlock shownFlyout = (Return newBlock, w')
      /\ In newBlock (topBlocks (targetWorkspace w'))
      /\ Coordinate.equals (xy newBlock) (xy shownBlock) = true)
  /\ (exists newBlock w',
         createBlock blockAtOneTenth pannedFlyout = (Return newBlock, w')
         /\ xy newBlock
            = Coordinate.mk
                (Js.sub (Js.add (Js.ofZ 100) (Js.div (Js.ofZ 1) (Js.ofZ 10)))
                   (Js.ofZ 100))
                Js.zero).
Proof.
  split.
  - destruct (clone_lands_on_source_position shownBlock shownFlyout
                eq_refl eq_refl eq_refl eq_refl)
      as (newBlock & w' & Hrun & Hin & Hzero & _).
    exists newBlock, w'. split; [exact Hrun|]. split; [exact Hin|].
    exact (Hzero eq_refl eq_refl eq_refl).
  - destruct (clone_lands_on_source_position blockAtOneTenth pannedFlyout
                eq_refl eq_refl eq_refl eq_refl)
      as (newBlock & w' & Hrun & _ & _ & Hlanding).
    exists newBlock, w'. split; [exact Hrun|].
    rewrite (Hlanding eq_refl). reflexivity.
Defined.

(** ** Running [show] on samples *)

Example show_populates :
  let run := showPlain false 4 (DefArray twoBlocksAndSeparator) verticalFlyout in
  fst run = Return tt
  /\ isVisible_ (snd run) = true
  /\ map chainTypes (topBlocks (workspace_ (snd run)))
     = [["math_number"]; ["math_arithmetic"]].
Proof. repeat split; reflexivity. Qed.

(** With recycling, a second [show] reclaims the block of a type that is
    shown again (it keeps its id), creates the other one and disposes of
    what is left in the pool. *)
Example show_recycles :
  let w1 := after (showPlain true 4 (DefArray twoBlocksAndSeparator)) verticalFlyout in
  let w2 :=
    after (showPlain true 3
             (DefArray [blockInfo "math_arithmetic"; blockInfo "text"])) w1 in
  map id (topBlocks (workspace_ w1)) = [0; 1]%nat
  /\ map id (topBlocks (workspace_ w2)) = [1; 2]%nat
  /\ map chainTypes (topBlocks (workspace_ w2)) = [["math_arithmetic"]; ["text"]]
  /\ recycledBlocks_ w2 = [].
Proof. repeat split; reflexivity. Qed.

(** * Further properties of the flyout *)

(** ** Hiding *)

(** X3: hiding twice is hiding once: the second [hide] finds the flyout
    not visible, returns at once and changes nothing. *)
Theorem hide_twice (w : World) :
  hide (after hide w) = (Return tt, after hide w)
  /\ (hide;; hide) w = hide w.
Proof.
  assert (Hhidden : forall w0, isVisible_ w0 = false -> hide w0 = (Return tt, w0)).
  { intros w0 H. unfold hide, isVisible. cbv [bind get ret].
    rewrite H. reflexivity. }
  assert (Hafter : isVisible_ (after hide w) = false).
  { unfold after, hide, isVisible, setVisible.
    destruct w as [fw tw hl ac vis rw ls ms bs pd rb gx gy wd ht ev uid lk].
    destruct vis, rw; reflexivity. }
  split; [apply Hhidden; exact Hafter|].
  unfold after in Hafter.
  destruct (hide w) as [[[]| |] w1] eqn:Hrun.
  - erewrite bind_run by exact Hrun. apply Hhidden. exact Hafter.
  - unfold bind. rewrite Hrun. reflexivity.
  - unfold bind. rewrite Hrun. reflexivity.
Qed.

(** X4: [hide] never deletes what the flyout shows.  On a flyout that is
    not visible it changes nothing at all; on a visible one it clears the
    visibility flag, the event listeners and the reflow listener, while the
    blocks of the flyout workspace, the mats, the buttons, the recycle
    pool, the permanently-disabled list and the target workspace are as
    they were. *)
Theorem hide_keeps_contents (w : World) :
  exists w',
    hide w = (Return tt, w')
    /\ (if isVisible_ w
        then isVisible_ w' = false
             /\ listeners_ w' = 0%nat
             /\ reflowWrapper_ w' = false
        else w' = w)
    /\ workspace_ w' = workspace_ w
    /\ targetWorkspace w' = targetWorkspace w
    /\ mats_ w' = mats_ w
    /\ buttons_ w' = buttons_ w
    /\ recycledBlocks_ w' = recycledBlocks_ w
    /\ permanentlyDisabled_ w' = permanentlyDisabled_ w.
Proof.
  unfold hide, isVisible, setVisible.
  destruct w as [fw tw hl ac vis rw ls ms bs pd rb gx gy wd ht ev uid lk].
  destruct vis, rw; eexists; (split; [reflexivity|]); cbn;
    repeat split; reflexivity.
Qed.

(** ** More on the capacity filter *)

Lemma id_setEnabledChain (enable : bool) (b : Block) :
  id (setEnabledChain enable b) = id b.
Proof. destruct b; reflexivity. Qed.

Lemma chainTypes_setEnabledChain (enable : bool) (b : Block) :
  chainTypes (setEnabledChain enable b) = chainTypes b.
Proof.
  induction b using Block_chain_ind; cbn; [reflexivity|]. now f_equal.
Qed.

Lemma setEnabledChain_twice (e e' : bool) (b : Block) :
  setEnabledChain e (setEnabledChain e' b) = setEnabledChain e b.
Proof.
  induction b using Block_chain_ind; cbn; [reflexivity|]. now rewrite IHb.
Qed.

Lemma filterForCapacity_run (w : World) :
  filterForCapacity_ w
  = (Return tt,
     set_workspace_
       (with_topBlocks (map (capacityFiltered w) (topBlocks (workspace_ w)))
          (workspace_ w)) w).
Proof. reflexivity. Qed.

Lemma capacityFiltered_twice (w w' : World) (b : Block) :
  permanentlyDisabled_ w' = permanentlyDisabled_ w ->
  targetWorkspace w' = targetWorkspace w ->
  capacityFiltered w' (capacityFiltered w b) = capacityFiltered w b.
Proof.
  intros Hpd Ht. unfold capacityFiltered. rewrite Hpd, Ht.
  destruct (existsb (Nat.eqb (id b)) (permanentlyDisabled_ w)) eqn:E; cbn [negb].
  - rewrite E. reflexivity.
  - rewrite id_setEnabledChain, E. cbn [negb].
    unfold getBlockTypeCounts. rewrite chainTypes_setEnabledChain.
    apply setEnabledChain_twice.
Qed.

Lemma set_topBlocks_twice (w : World) (l1 l2 : list Block) :
  let w1 := set_workspace_ (with_topBlocks l1 (workspace_ w)) w in
  set_workspace_ (with_topBlocks l2 (workspace_ w1)) w1
  = set_workspace_ (with_topBlocks l2 (workspace_ w)) w.
Proof. destruct w; reflexivity. Qed.

(** X5: the capacity filter is idempotent: a second pass right after a
    pass changes nothing, because the capacity query looks only at the
    target workspace and at the types of the blocks, which a pass leaves
    alone. *)
Theorem filterForCapacity_twice (w : World) :
  (filterForCapacity_;; filterForCapacity_) w = filterForCapacity_ w.
Proof.
  erewrite bind_run by apply filterForCapacity_run.
  rewrite !filterForCapacity_run.
  set (l1 := map (capacityFiltered w) (topBlocks (workspace_ w))).
  set (w1 := set_workspace_ (with_topBlocks l1 (workspace_ w)) w).
  assert (Hl : map (capacityFiltered w1) (topBlocks (workspace_ w1)) = l1).
  { replace (topBlocks (workspace_ w1)) with l1 by (destruct w; reflexivity).
    subst l1. rewrite map_map. apply map_ext. intros b.
    apply capacityFiltered_twice; destruct w; reflexivity. }
  rewrite Hl. subst w1. rewrite set_topBlocks_twice. reflexivity.
Qed.

(** X6: a pass of the capacity filter changes nothing but enabled flags:
    the world differs from the one before only in the top blocks of the
    flyout workspace, and forcing every flag to enabled makes the old and
    the new top blocks equal (same blocks, ids, types, positions and
    connections, in the same order). *)
Theorem filterForCapacity_only_flags (w : World) :
  exists filtered,
    filterForCapacity_ w
    = (Return tt, set_workspace_ (with_topBlocks filtered (workspace_ w)) w)
    /\ map (setEnabledChain true) filtered
       = map (setEnabledChain true) (topBlocks (workspace_ w)).
Proof.
  eexists. split; [apply filterForCapacity_run|].
  rewrite map_map. apply map_ext. intros b. unfold capacityFiltered.
  destruct (negb _); [apply setEnabledChain_twice|reflexivity].
Qed.

(** X7: a top block that is not recorded as permanently disabled comes out
    of a pass with the answer of the capacity query as its enabled state,
    and so does every block connected below it: the chain is enabled or
    disabled as a whole, and the block can be dragged out exactly when
    there is capacity for it. *)
Theorem filterForCapacity_whole_chain (w : World) (b : Block) :
  In b (topBlocks (workspace_ w)) ->
  existsb (Nat.eqb (id b)) (permanentlyDisabled_ w) = false ->
  let enable := isCapacityAvailable (targetWorkspace w) (getBlockTypeCounts b) in
  exists b',
    In b' (topBlocks (workspace_ (after filterForCapacity_ w)))
    /\ id b' = id b
    /\ chainTypes b' = chainTypes b
    /\ isBlockCreatable b' = enable
    /\ Forall (Logic.eq (negb enable)) (chainDisabled b').
Proof.
  intros Hin Hrec enable.
  exists (setEnabledChain enable b).
  split; [now apply filterForCapacity_sets_chain|].
  split; [apply id_setEnabledChain|].
  split; [apply chainTypes_setEnabledChain|].
  split; [|apply chainDisabled_setEnabledChain].
  destruct b; cbn. apply negb_involutive.
Qed.

Lemma filterForCapacity_whole_chain_witness :
  exists b b',
    In b (topBlocks (workspace_ disabledChildFlyout))
    /\ existsb (Nat.eqb (id b)) (permanentlyDisabled_ disabledChildFlyout) = false
    /\ chainDisabled b = [false; true]
    /\ In b' (topBlocks (workspace_ (after filterForCapacity_ disabledChildFlyout)))
    /\ id b' = id b
    /\ Forall (Logic.eq false) (chainDisabled b').
Proof.
  set (w := disabledChildFlyout).
  assert (Hin : In (hd shownBlock (topBlocks (workspace_ w)))
                   (topBlocks (workspace_ w))) by (left; reflexivity).
  destruct (filterForCapacity_whole_chain w _ Hin eq_refl)
    as (b' & Hin' & Hid & _ & _ & Hall).
  exists (hd shownBlock (topBlocks (workspace_ w))), b'.
  split; [exact Hin|]. split; [reflexivity|]. split; [reflexivity|].
  split; [exact Hin'|]. split; [exact Hid|exact Hall].
Defined.

(** ** More on the recycle pool *)

Lemma findRecycled_first (blockType : string) (before after : list Block)
    (b : Block) (i : nat) :
  Forall (fun b' => type b' <> blockType) before ->
  type b = blockType ->
  findRecycled blockType (before ++ b :: after) i
  = Some (i + List.length before)%nat.
Proof.
  intros Hbefore Hb. revert i.
  induction Hbefore as [|b0 rest Hb0 _ IH]; intros i; cbn.
  - apply String.eqb_eq in Hb. rewrite Hb. f_equal. lia.
  - apply String.eqb_neq in Hb0. rewrite Hb0, IH. f_equal. lia.
Qed.

Lemma getRecycledBlock_first (blockType : string) (before after : list Block)
    (b : Block) (w : World) :
  recycledBlocks_ w = before ++ b :: after ->
  Forall (fun b' => type b' <> blockType) before ->
  type b = blockType ->
  getRecycledBlock_ blockType w
  = (Return (Some b), set_recycledBlocks_ (before ++ after) w).
Proof.
  intros Hpool Hbefore Hb. unfold getRecycledBlock_.
  erewrite bind_run by reflexivity.
  rewrite Hpool, (findRecycled_first _ _ _ _ 0 Hbefore Hb). cbn [Nat.add].
  rewrite splice_one. reflexivity.
Qed.

(** X8: putting a block into the pool and asking for its type gives the
    block back, moved to the origin of the flyout workspace, when no block
    of that type was waiting in the pool before it; the pool is then as it
    was before. *)
Theorem recycle_then_reclaim (b : Block) (w : World) :
  Forall (fun b' => type b' <> type b) (recycledBlocks_ w) ->
  exists w',
    (recycleBlock_ b;; getRecycledBlock_ (type b)) w
    = (Return (Some (moved Coordinate.origin b)), w')
    /\ recycledBlocks_ w' = recycledBlocks_ w.
Proof.
  intros Hpool.
  erewrite bind_run by reflexivity.
  erewrite getRecycledBlock_first with (before := recycledBlocks_ w) (after := []).
  - eexists. split; [reflexivity|]. rewrite app_nil_r. destruct w; reflexivity.
  - destruct w; reflexivity.
  - exact Hpool.
  - destruct b; reflexivity.
Qed.

Lemma recycle_then_reclaim_witness :
  Forall (fun b' => type b' <> type shownBlock) (recycledBlocks_ shownFlyout)
  /\ exists w',
       (recycleBlock_ shownBlock;; getRecycledBlock_ (type shownBlock)) shownFlyout
       = (Return (Some (moved Coordinate.origin shownBlock)), w')
       /\ recycledBlocks_ w' = recycledBlocks_ shownFlyout.
Proof.
  assert (H : Forall (fun b' => type b' <> type shownBlock)
                (recycledBlocks_ shownFlyout)) by constructor.
  split; [exact H|]. exact (recycle_then_reclaim shownBlock shownFlyout H).
Defined.

Lemma withoutIds_cons (i : nat) (ids : list nat) (l : list Block) :
  withoutIds ids (filter (fun b => negb (Nat.eqb (id b) i)) l)
  = withoutIds (i :: ids) l.
Proof.
  unfold withoutIds. induction l as [|b rest IH]; cbn; [reflexivity|].
  destruct (Nat.eqb (id b) i); cbn; [exact IH|].
  destruct (existsb (Nat.eqb (id b)) ids); cbn; [exact IH|]. now f_equal.
Qed.

Lemma withoutIds_nil (l : list Block) : withoutIds [] l = l.
Proof.
  unfold withoutIds. induction l as [|b rest IH]; cbn; [reflexivity|].
  now f_equal.
Qed.

Lemma withoutIds_incl (ids : list nat) (l : list Block) :
  (forall b, In b l -> In (id b) ids) -> withoutIds ids l = [].
Proof.
  unfold withoutIds. induction l as [|b rest IH]; intros H; cbn; [reflexivity|].
  assert (Hb : existsb (Nat.eqb (id b)) ids = true).
  { apply existsb_exists. exists (id b). split; [|apply Nat.eqb_refl].
    apply H. left. reflexivity. }
  rewrite Hb. cbn. apply IH. intros b' Hb'. apply H. right. exact Hb'.
Qed.

(** Disposing of the blocks of a list, one after the other. *)
Lemma forEach_dispose (l : list Block) (w : World) :
  forEach l (dispose FlyoutWorkspace) w
  = (Return tt,
     set_workspace_
       (with_topBlocks (withoutIds (map id l) (topBlocks (workspace_ w)))
          (workspace_ w)) w).
Proof.
  revert w. induction l as [|b rest IH]; intros w; cbn [forEach map].
  - rewrite withoutIds_nil. destruct w as [[] ? ? ? ? ? ? ? ? ? ? ? ? ? ? ? ? ?].
    reflexivity.
  - erewrite bind_run by reflexivity. rewrite IH.
    unfold dispose, modify. cbn [snd setWorkspaceOf getWorkspaceOf].
    rewrite set_topBlocks_twice.
    replace (topBlocks (workspace_ (set_workspace_ _ w)))
      with (filter (fun b' => negb (Nat.eqb (id b') (id b)))
              (topBlocks (workspace_ w)))
      by (destruct w; reflexivity).
    rewrite withoutIds_cons. reflexivity.
Qed.

(** X9: [emptyRecycledBlocks_] disposes of every block left in the pool:
    afterwards the pool is empty and the flyout workspace has lost exactly
    the top blocks whose id is the id of a pool block; nothing else
    changes. *)
Theorem emptyRecycledBlocks_disposes (w : World) :
  emptyRecycledBlocks_ w
  = (Return tt,
     set_recycledBlocks_ []
       (set_workspace_
          (with_topBlocks
             (withoutIds (map id (recycledBlocks_ w)) (topBlocks (workspace_ w)))
             (workspace_ w)) w)).
Proof.
  unfold emptyRecycledBlocks_.
  erewrite bind_run by reflexivity.
  erewrite bind_run by apply forEach_dispose.
  reflexivity.
Qed.

(** What [clearOldBlocks_] does with the old top blocks, under any
    recycling policy: the pool receives, in order, the blocks that the
    policy accepts, moved to the origin. *)
Lemma forEach_recycle_or_dispose (policy : Block -> bool) (l : list Block) :
  forall w,
  exists w',
    forEach l (fun block =>
                 if policy block then recycleBlock_ block
                 else dispose FlyoutWorkspace block) w
    = (Return tt, w')
    /\ recycledBlocks_ w'
       = recycledBlocks_ w ++ map (moved Coordinate.origin) (filter policy l)
    /\ targetWorkspace w' = targetWorkspace w
    /\ permanentlyDisabled_ w' = permanentlyDisabled_ w
    /\ isVisible_ w' = isVisible_ w.
Proof.
  induction l as [|b rest IH]; intros w; cbn [forEach filter map].
  - exists w. rewrite app_nil_r. repeat split; reflexivity.
  - destruct (policy b).
    + erewrite bind_run by reflexivity.
      match goal with
      | |- context [forEach rest _ ?w1] =>
          destruct (IH w1) as (w' & Hrun & Hpool & Ht & Hpd & Hv)
      end.
      exists w'. split; [exact Hrun|].
      rewrite Hpool, Ht, Hpd, Hv. cbn [map].
      destruct w; cbn. rewrite <- app_assoc. repeat split; reflexivity.
    + erewrite bind_run by reflexivity.
      match goal with
      | |- context [forEach rest _ ?w1] =>
          destruct (IH w1) as (w' & Hrun & Hpool & Ht & Hpd & Hv)
      end.
      exists w'. split; [exact Hrun|].
      rewrite Hpool, Ht, Hpd, Hv. destruct w; repeat split; reflexivity.
Qed.

(** X10: [clearOldBlocks_], under any recycling policy, appends to the
    pool the old top blocks that the policy accepts, in their order and
    moved to the origin; it empties the mats, the buttons and the
    potential variables, and leaves the target workspace, the visibility
    flag and the permanently-disabled list alone. *)
Theorem clearOldBlocks_recycles (policy : Block -> bool) (w : World) :
  exists w',
    clearOldBlocks_ policy w = (Return tt, w')
    /\ recycledBlocks_ w'
       = recycledBlocks_ w
         ++ map (moved Coordinate.origin)
              (filter policy (topBlocks (workspace_ w)))
    /\ mats_ w' = []
    /\ buttons_ w' = []
    /\ potentialVariableMap (workspace_ w') = []
    /\ targetWorkspace w' = targetWorkspace w
    /\ isVisible_ w' = isVisible_ w
    /\ permanentlyDisabled_ w' = permanentlyDisabled_ w.
Proof.
  unfold clearOldBlocks_. erewrite bind_run by reflexivity.
  destruct (forEach_recycle_or_dispose policy (topBlocks (workspace_ w)) w)
    as (w1 & Hrun & Hpool & Ht & Hpd & Hv).
  erewrite bind_run by exact Hrun.
  do 2 (erewrite bind_run by reflexivity).
  eexists. split; [reflexivity|].
  rewrite <- Hpool, <- Ht, <- Hpd, <- Hv.
  destruct w1; repeat split; reflexivity.
Qed.

(** X11: with the recycling policy of the base class (nothing is
    recyclable), [clearOldBlocks_] leaves no top block in the flyout
    workspace and does not touch the pool. *)
Theorem clearOldBlocks_default_empties (w : World) :
  exists w',
    clearOldBlocks_ blockIsRecyclable_default w = (Return tt, w')
    /\ topBlocks (workspace_ w') = []
    /\ recycledBlocks_ w' = recycledBlocks_ w.
Proof.
  unfold clearOldBlocks_. erewrite bind_run by reflexivity.
  erewrite bind_run by apply forEach_dispose.
  do 2 (erewrite bind_run by reflexivity).
  eexists. split; [reflexivity|].
  split; [|destruct w; reflexivity].
  transitivity (withoutIds (map id (topBlocks (workspace_ w)))
                  (topBlocks (workspace_ w))); [destruct w; reflexivity|].
  apply withoutIds_incl. intros b Hb. now apply in_map.
Qed.

(** X12: when the pool holds a block of the type that a block entry asks
    for, [createFlyoutBlock_] gives back the first such block as it is and
    creates nothing: the enabled, disabled and next properties of the
    entry are not applied to it, and it is recorded as permanently disabled
    exactly when it is disabled already. *)
Theorem createFlyoutBlock_reclaims (blockInfo : ContentInfo) (w : World)
    (before after : list Block) (b : Block) :
  recycledBlocks_ w = before ++ b :: after ->
  Forall (fun b' => Some (type b') <> requestedType blockInfo) before ->
  Some (type b) = requestedType blockInfo ->
  createFlyoutBlock_ blockInfo w
  = (Return b,
     let w1 := set_recycledBlocks_ (before ++ after) w in
     if disabled b
     then set_permanentlyDisabled_ (permanentlyDisabled_ w ++ [id b]) w1
     else w1).
Proof.
  intros Hpool Hbefore Hb.
  assert (Hget : getRecycledBlock_opt (requestedType blockInfo) w
                 = (Return (Some b), set_recycledBlocks_ (before ++ after) w)).
  { rewrite <- Hb. cbn [getRecycledBlock_opt].
    apply getRecycledBlock_first; [exact Hpool| |reflexivity].
    rewrite <- Hb in Hbefore.
    eapply Forall_impl; [|exact Hbefore]. cbn. intros b' H E. apply H. now f_equal. }
  unfold createFlyoutBlock_, requestedType in *.
  destruct (blockxml blockInfo) as [xml|];
    (erewrite bind_run;
     [|erewrite bind_run by exact Hget; reflexivity]);
    unfold isEnabled; destruct (disabled b); cbn [negb];
    erewrite bind_run by reflexivity;
    try reflexivity;
    destruct w; reflexivity.
Qed.

Lemma createFlyoutBlock_reclaims_witness :
  fst (createFlyoutBlock_ (blockInfo "a") pooledFlyout) = Return disabledPoolBlock
  /\ recycledBlocks_ (after (createFlyoutBlock_ (blockInfo "a")) pooledFlyout)
     = [shownBlock]
  /\ permanentlyDisabled_ (after (createFlyoutBlock_ (blockInfo "a")) pooledFlyout)
     = [5%nat].
Proof.
  unfold after.
  rewrite (createFlyoutBlock_reclaims (blockInfo "a") pooledFlyout [shownBlock] []
             disabledPoolBlock eq_refl).
  - repeat split; reflexivity.
  - constructor; [|constructor]. intros H. discriminate H.
  - reflexivity.
Defined.

(** ** Cloning: what happens to the flyout itself *)

#[export] Instance sameFlyoutAndDepth_PreOrder : PreOrder sameFlyoutAndDepth.
Proof.
  split.
  - intros w. repeat split; reflexivity.
  - intros w1 w2 w3 (H1 & H2 & H3 & H4 & H5 & H6) (K1 & K2 & K3 & K4 & K5 & K6).
    repeat split; congruence.
Qed.

Lemma sameFlyoutAndDepth_fire (k : EventKind) :
  maintains sameFlyoutAndDepth (eventUtils.fire k).
Proof.
  unfold eventUtils.fire. apply maintains_modify. intros w.
  destruct (Nat.eqb (disabledCount (events w)) 0);
    destruct w; repeat split; reflexivity.
Qed.

Lemma sameFlyoutAndDepth_createVariables_target (vars : list string) :
  maintains sameFlyoutAndDepth (blocks.createVariables TargetWorkspace vars).
Proof.
  induction vars as [|v rest IH]; cbn [blocks.createVariables].
  - apply maintains_ret; exact _.
  - apply maintains_bind; [exact _|apply maintains_get; exact _|intros w].
    apply maintains_bind; [exact _| |intros _; exact IH].
    repeat first [apply sameFlyoutAndDepth_fire | maintains_step].
Qed.

Lemma sameFlyoutAndDepth_placeNewBlock_ (oldBlock : Block) :
  rendered oldBlock = true ->
  maintains sameFlyoutAndDepth (placeNewBlock_ oldBlock).
Proof.
  intros Hr. unfold placeNewBlock_. rewrite Hr. cbn [negb].
  apply maintains_bind; [exact _| |intros _].
  { unfold setResizesEnabled. repeat maintains_step. }
  apply maintains_bind; [exact _| |intros block].
  - unfold blocks.append.
    apply maintains_bind; [exact _|apply maintains_get; exact _|intros w].
    destruct (instantiate_typed (blocks.save oldBlock) (nextUid w) (typed_save _))
      as (block & uid' & ->).
    repeat first [ apply sameFlyoutAndDepth_createVariables_target
                 | apply sameFlyoutAndDepth_fire
                 | maintains_step ].
  - unfold positionNewBlock_, moveTo. repeat maintains_step.
Qed.

(** The part of [createBlock] before the flyout is closed or filtered. *)
Lemma createBlock_flyout_side (originalBlock : Block) (w : World) :
  rendered originalBlock = true ->
  exists newBlock w1,
    sameFlyoutAndDepth w w1
    /\ createBlock originalBlock w
       = ((if autoClose w then hide else filterForCapacity_);; ret newBlock) w1.
Proof.
  intros Hr. unfold createBlock.
  do 3 (erewrite bind_run by reflexivity).
  match goal with
  | |- context [bind (try_finally _ _) _ ?w0] =>
      destruct (sameFlyoutAndDepth_placeNewBlock_ originalBlock Hr w0)
        as (newBlock & wp & Hrun & Hp)
  end.
  erewrite bind_run by (eapply try_finally_run; [exact Hrun|reflexivity]).
  do 3 (erewrite bind_run by reflexivity).
  match goal with
  | |- context [bind (if ?c then ?m else ret tt) _ ?w0] =>
      assert (Hfire : maintains sameFlyoutAndDepth (if c then m else ret tt))
        by (repeat first [ apply sameFlyoutAndDepth_fire
                         | unfold eventUtils.setGroup_true, genUid; maintains_step ]);
      destruct (Hfire w0) as ([] & w1 & Hrun1 & H1)
  end.
  erewrite bind_run by exact Hrun1.
  erewrite bind_run by reflexivity.
  assert (Hw1 : sameFlyoutAndDepth w w1).
  { etransitivity; [|exact H1].
    destruct Hp as (P1 & P2 & P3 & P4 & P5 & P6).
    destruct wp as [? ? ? ? ? ? ? ? ? ? ? ? ? ? ? [d g q] ? ?];
      destruct w as [? ? ? ? ? ? ? ? ? ? ? ? ? ? ? [d0 g0 q0] ? ?];
      cbn in *. subst. repeat split; reflexivity. }
  exists newBlock, w1. split; [exact Hw1|].
  destruct Hw1 as (_ & -> & _). reflexivity.
Qed.

(** X13: a successful [createBlock] leaves the suspension depth of the
    notifications as it found it, and ends on the flyout as its [autoClose]
    says: an auto-closing flyout is hidden and its blocks are as they were;
    another flyout keeps its visibility, and its blocks are filtered for
    capacity against the target workspace as it is after the clone, whose
    answer counts the new block: on a target that allows one block the
    blocks of the flyout are disabled by the clone. *)
Theorem createBlock_closes_or_filters (originalBlock : Block) (w : World) :
  rendered originalBlock = true ->
  exists newBlock w',
    createBlock originalBlock w = (Return newBlock, w')
    /\ disabledCount (events w') = disabledCount (events w)
    /\ if autoClose w
       then isVisible_ w' = false /\ workspace_ w' = workspace_ w
       else isVisible_ w' = isVisible_ w
            /\ topBlocks (workspace_ w')
               = map (capacityFiltered w') (topBlocks (workspace_ w)).
Proof.
  intros Hr.
  destruct (createBlock_flyout_side originalBlock w Hr)
    as (newBlock & w1 & (Hws & Hac & Hvis & Hpd & Hpool & Hd) & ->).
  destruct (autoClose w).
  - destruct (sameTargetAndEvents_hide w1) as ([] & w' & Hrun & _ & He).
    erewrite bind_run by exact Hrun.
    exists newBlock, w'. split; [reflexivity|].
    rewrite He, Hd. split; [reflexivity|].
    rewrite <- Hws. revert Hrun. unfold hide, isVisible, setVisible.
    cbv [bind get ret modify].
    destruct (isVisible_ w1) eqn:Ev; cbn [negb].
    + destruct (reflowWrapper_ _); intros [= <-]; destruct w1; split; reflexivity.
    + intros [= <-]. split; [exact Ev|reflexivity].
  - erewrite bind_run by apply filterForCapacity_run.
    eexists newBlock, _. split; [reflexivity|].
    rewrite <- Hd, <- Hvis, <- Hws.
    destruct w1; cbn. repeat split; reflexivity.
Qed.

Lemma createBlock_closes_or_filters_witness :
  exists newBlock w',
    createBlock firstLimitedBlock limitedFlyout = (Return newBlock, w')
    /\ topBlocks (targetWorkspace w') = [newBlock]
    /\ map chainDisabled (topBlocks (workspace_ limitedFlyout))
       = [[false]; [false]]
    /\ map chainDisabled
         (topBlocks (workspace_ (after filterForCapacity_ limitedFlyout)))
       = [[false]; [false]]
    /\ map chainDisabled (topBlocks (workspace_ w')) = [[true]; [true]].
Proof.
  destruct (createBlock_closes_or_filters firstLimitedBlock limitedFlyout eq_refl)
    as (newBlock & w' & Hrun & _ & Hclose).
  exists newBlock, w'. split; [exact Hrun|].
  change (autoClose limitedFlyout) with false in Hclose. cbv iota in Hclose.
  destruct Hclose as [_ Htop]. rewrite Htop.
  vm_compute in Hrun. injection Hrun as <- <-.
  repeat split; reflexivity.
Defined.

(** X14: [createBlock] on a block that is not rendered throws the error of
    [placeNewBlock_]; the [finally] clause has resumed the notifications, so
    their state is as before the call; nothing was queued, no block or
    variable was added to the target workspace, and the flyout is neither
    hidden nor filtered.  The resizes of the target workspace stay
    switched off. *)
Theorem createBlock_unrendered_throws (originalBlock : Block) (w : World) :
  rendered originalBlock = false ->
  exists w',
    createBlock originalBlock w
    = (Throw (PlainError "oldBlock is not rendered."), w')
    /\ events w' = events w
    /\ topBlocks (targetWorkspace w') = topBlocks (targetWorkspace w)
    /\ variableMap (targetWorkspace w') = variableMap (targetWorkspace w)
    /\ resizesEnabled (targetWorkspace w') = false
    /\ workspace_ w' = workspace_ w
    /\ isVisible_ w' = isVisible_ w.
Proof.
  intros Hr. unfold createBlock, placeNewBlock_. rewrite Hr. cbn [negb].
  eexists. split; [reflexivity|].
  destruct w as [? [] ? ? ? ? ? ? ? ? ? ? ? ? ? [d g q] ? ?].
  repeat split; reflexivity.
Qed.

Lemma createBlock_unrendered_throws_witness :
  fst (createBlock unrenderedBlock shownFlyout)
  = Throw (PlainError "oldBlock is not rendered.")
  /\ events (after (createBlock unrenderedBlock) shownFlyout) = events shownFlyout.
Proof.
  destruct (createBlock_unrendered_throws unrenderedBlock shownFlyout eq_refl)
    as (w' & Hrun & He & _).
  unfold after. rewrite Hrun. split; [reflexivity|exact He].
Defined.


(** ** Parsing a static descriptor: the items and the disabled blocks *)

#[export] Instance sameControls_PreOrder : PreOrder sameControls.
Proof.
  split.
  - intros w. repeat split; reflexivity.
  - intros w1 w2 w3 (H1 & H2 & H3 & H4 & H5 & H6 & H7)
      (K1 & K2 & K3 & K4 & K5 & K6 & K7).
    repeat split; congruence.
Qed.

#[export] Instance parsingFrame_PreOrder : PreOrder parsingFrame.
Proof.
  split.
  - intros w. split; reflexivity.
  - intros w1 w2 w3 [H1 H2] [K1 K2].
    split; [etransitivity; eassumption|congruence].
Qed.

Lemma parsingFrame_fire (k : EventKind) : maintains parsingFrame (eventUtils.fire k).
Proof.
  unfold eventUtils.fire. apply maintains_modify. intros w.
  destruct (Nat.eqb (disabledCount (events w)) 0);
    destruct w; repeat split; reflexivity.
Qed.

Lemma parsingFrame_createVariables_flyout (vars : list string) :
  maintains parsingFrame (blocks.createVariables FlyoutWorkspace vars).
Proof.
  induction vars as [|v rest IH]; cbn [blocks.createVariables].
  - apply maintains_ret; exact _.
  - apply maintains_bind; [exact _|apply maintains_get; exact _|intros w].
    apply maintains_bind; [exact _| |intros _; exact IH].
    repeat maintains_step.
Qed.

Lemma instantiate_type (s : State) (uid uid' : nat) (b : Block) :
  blocks.instantiate s uid = Some (b, uid') -> Some (type b) = st_type s.
Proof.
  destruct s as [[ty|] en vars [n|]]; cbn; try discriminate.
  - destruct (blocks.instantiate n (S uid)) as [[child u]|]; [|discriminate].
    intros [= <- _]. reflexivity.
  - intros [= <- _]. reflexivity.
Qed.

(** A typed descriptor appended to the flyout workspace gives a block of
    the descriptor's type. *)
Lemma append_flyout_typed (s : State) (w : World) :
  typed s = true ->
  exists b w',
    blocks.append s FlyoutWorkspace w = (Return b, w')
    /\ Some (type b) = st_type s
    /\ parsingFrame w w'.
Proof.
  intros Ht. unfold blocks.append.
  erewrite bind_run by reflexivity.
  destruct (instantiate_typed s (nextUid w) Ht) as (block & uid' & E).
  rewrite E. apply instantiate_type in E.
  do 2 (erewrite bind_run by reflexivity).
  match goal with
  | |- context [bind (blocks.createVariables ?r ?vars) _ ?w0] =>
      destruct (parsingFrame_createVariables_flyout vars w0)
        as ([] & w1 & Hrun & Hf)
  end.
  erewrite bind_run by exact Hrun.
  destruct (parsingFrame_fire (BLOCK_CREATE (id block)) w1)
    as ([] & w2 & Hrun2 & Hf2).
  erewrite bind_run by exact Hrun2.
  exists block, w2. split; [reflexivity|]. split; [exact E|].
  etransitivity; [|exact Hf2]. etransitivity; [|exact Hf].
  destruct w; repeat split; reflexivity.
Qed.

(** Asking the pool for a type: nothing is found and nothing changes, or a
    block of that type is handed out. *)
Lemma getRecycledBlock_opt_cases (ty : option string) (w : World) :
  getRecycledBlock_opt ty w = (Return None, w)
  \/ exists b w',
       getRecycledBlock_opt ty w = (Return (Some b), w')
       /\ Some (type b) = ty
       /\ parsingFrame w w'.
Proof.
  destruct ty as [ty|]; [|left; reflexivity].
  cbn [getRecycledBlock_opt]. unfold getRecycledBlock_, bind, get.
  destruct (findRecycled ty (recycledBlocks_ w) 0) as [index|] eqn:E;
    [|left; reflexivity].
  right.
  destruct (findRecycled_Some _ _ _ _ E)
    as (before & b & after & Hpool & Hindex & _ & Hb).
  cbn in Hindex. subst index. rewrite Hpool, splice_one.
  exists b. eexists. split; [reflexivity|]. split; [now f_equal|].
  destruct w; repeat split; reflexivity.
Qed.

(** [createFlyoutBlock_] on an entry that describes typed blocks: the block
    has the requested type, and is recorded exactly when it is disabled. *)
Lemma createFlyoutBlock_typed (ci : ContentInfo) (w : World) :
  match blockxml ci with
  | Some xml => typed (element_block xml)
  | None => typed (asState ci)
  end = true ->
  exists b w',
    createFlyoutBlock_ ci w = (Return b, w')
    /\ Some (type b) = requestedType ci
    /\ permanentlyDisabled_ w'
       = permanentlyDisabled_ w ++ (if disabled b then [id b] else [])
    /\ sameControls w w'.
Proof.
  intros Ht.
  assert (Hfirst : exists b w1,
             (match blockxml ci with
              | Some xml =>
                  recycled <- getRecycledBlock_opt (getAttribute_type xml);;
                  match recycled with
                  | Some block => ret block
                  | None => Xml.domToBlock xml FlyoutWorkspace
                  end
              | None =>
                  recycled <- getRecycledBlock_opt (info_type ci);;
                  match recycled with
                  | Some block => ret block
                  | None =>
                      let blockInfo :=
                        match enabled ci with
                        | None => with_enabled (Some (enabledFromDisabled ci)) ci
                        | Some _ => ci
                        end in
                      blocks.append (asState blockInfo) FlyoutWorkspace
                  end
              end) w = (Return b, w1)
             /\ Some (type b) = requestedType ci
             /\ parsingFrame w w1).
  { unfold requestedType. destruct (blockxml ci) as [xml|].
    - destruct (getRecycledBlock_opt_cases (getAttribute_type xml) w)
        as [Hnone|(b & w1 & Hsome & Hty & Hf)].
      + erewrite bind_run by exact Hnone.
        apply (append_flyout_typed (element_block xml) w Ht).
      + erewrite bind_run by exact Hsome. exists b, w1. auto.
    - destruct (getRecycledBlock_opt_cases (info_type ci) w)
        as [Hnone|(b & w1 & Hsome & Hty & Hf)].
      + erewrite bind_run by exact Hnone. cbv zeta.
        destruct (enabled ci);
          [exact (append_flyout_typed (asState ci) w Ht)|].
        exact (append_flyout_typed
                 (asState (with_enabled (Some (enabledFromDisabled ci)) ci)) w Ht).
      + erewrite bind_run by exact Hsome. exists b, w1. auto. }
  destruct Hfirst as (b & w1 & Hrun & Hty & Hc & Hpd).
  unfold createFlyoutBlock_. erewrite bind_run by exact Hrun.
  unfold isEnabled. destruct (disabled b) eqn:Ed; cbn [negb].
  - erewrite bind_run by reflexivity.
    eexists b, _. split; [reflexivity|]. split; [exact Hty|]. rewrite Ed.
    split; [cbv beta; unfold set_permanentlyDisabled_;
            cbn [permanentlyDisabled_]; rewrite Hpd; reflexivity|].
    etransitivity; [exact Hc|]. destruct w1; repeat split; reflexivity.
  - erewrite bind_run by reflexivity.
    exists b, w1. split; [reflexivity|]. split; [exact Hty|]. rewrite Ed.
    split; [now rewrite app_nil_r|exact Hc].
Qed.

(** What the [switch] does with an entry of a static descriptor. *)
Lemma switchKind_items (ci : ContentInfo) (contents : list FlyoutItem)
    (gaps : list Z) (d : Z) (w : World) :
  staticEntry ci = true ->
  exists new gaps' w',
    switchKind ci contents gaps d w = (Return (contents ++ new, gaps'), w')
    /\ map shape new = requestedShape ci
    /\ permanentlyDisabled_ w' = permanentlyDisabled_ w ++ disabledIds new
    /\ sameControls w w'.
Proof.
  unfold staticEntry, switchKind, requestedShape, isKind.
  destruct (custom ci); [discriminate|].
  destruct (String.eqb (Js.toUpperCase (kind ci)) "BLOCK") eqn:EB.
  - intros Ht.
    destruct (createFlyoutBlock_typed ci w Ht) as (b & w' & Hrun & Hty & Hpd & Hc).
    erewrite bind_run by exact Hrun.
    exists [BLOCK b]. do 2 eexists. split; [reflexivity|].
    cbn [map shape disabledIds flat_map]. rewrite app_nil_r, Hty.
    split; [reflexivity|]. split; assumption.
  - destruct (String.eqb (Js.toUpperCase (kind ci)) "SEP") eqn:ES.
    + intros Hg.
      destruct (length_addSeparatorGap_ ci gaps d) as (gaps' & Hrun & _).
      { destruct (gap ci); congruence. }
      unfold bind. rewrite Hrun. cbn [lift ret].
      apply String.eqb_eq in ES. rewrite ES. cbn [String.eqb Ascii.eqb].
      exists []. do 2 eexists. rewrite app_nil_r. split; [reflexivity|].
      cbn. rewrite app_nil_r. repeat split; reflexivity.
    + intros _.
      destruct (String.eqb (Js.toUpperCase (kind ci)) "LABEL") eqn:EL;
        [|destruct (String.eqb (Js.toUpperCase (kind ci)) "BUTTON") eqn:EU].
      * eexists [_]. do 2 eexists. split; [reflexivity|].
        cbn. rewrite app_nil_r. repeat split; reflexivity.
      * eexists [_]. do 2 eexists. split; [reflexivity|].
        cbn. rewrite app_nil_r. repeat split; reflexivity.
      * exists []. do 2 eexists. rewrite app_nil_r. split; [reflexivity|].
        cbn. rewrite app_nil_r. repeat split; reflexivity.
Qed.

Lemma disabledIds_app (l1 l2 : list FlyoutItem) :
  disabledIds (l1 ++ l2) = disabledIds l1 ++ disabledIds l2.
Proof. apply flat_map_app. Qed.

(** The loop over a stretch of static entries: it reaches the entry behind
    the stretch, having added the requested items in order and recorded
    the disabled blocks among them. *)
Lemma createFlyoutInfo_loop_prefix (mid : list ContentInfo) :
  forall before after contents gaps d w,
    forallb staticEntry mid = true ->
    exists new gaps' w',
      (forall fuel,
          createFlyoutInfo_loop (List.length mid + fuel) (before ++ mid ++ after)
            (List.length before) contents gaps d w
          = createFlyoutInfo_loop fuel (before ++ mid ++ after)
              (List.length before + List.length mid) (contents ++ new) gaps' d w')
      /\ map shape new = flat_map requestedShape mid
      /\ permanentlyDisabled_ w' = permanentlyDisabled_ w ++ disabledIds new
      /\ sameControls w w'.
Proof.
  induction mid as [|ci mid IH]; intros before after contents gaps d w Hstatic.
  - exists [], gaps, w. rewrite !app_nil_r. cbn [List.length].
    rewrite Nat.add_0_r. repeat split; reflexivity.
  - cbn [forallb] in Hstatic. apply andb_prop in Hstatic as [Hci Hmid].
    assert (Hcustom : custom ci = None).
    { unfold staticEntry in Hci. destruct (custom ci); [discriminate|reflexivity]. }
    destruct (switchKind_items ci contents gaps d w Hci)
      as (new1 & gaps1 & w1 & Hrun & Hs1 & Hpd1 & Hc1).
    destruct (IH (before ++ [ci]) after (contents ++ new1) gaps1 d w1 Hmid)
      as (new2 & gaps2 & w2 & Hloop & Hs2 & Hpd2 & Hc2).
    exists (new1 ++ new2), gaps2, w2. split; [|split; [|split]].
    + intros fuel. cbn [List.length Nat.add createFlyoutInfo_loop app].
      rewrite nth_error_middle. cbn [nth_error]. rewrite Hcustom.
      unfold bind at 1. cbn [ret].
      erewrite bind_run by exact Hrun. cbn [fst snd].
      specialize (Hloop fuel).
      rewrite <- !app_assoc, length_app in Hloop. cbn [app List.length] in Hloop.
      replace (List.length before + 1)%nat with (S (List.length before))
        in Hloop by lia.
      rewrite Hloop. f_equal. lia.
    + rewrite map_app, Hs1, Hs2. reflexivity.
    + rewrite Hpd2, Hpd1, disabledIds_app, app_assoc. reflexivity.
    + etransitivity; eassumption.
Qed.


Lemma createFlyoutInfo_static_run (D : list ContentInfo) (fuel : nat) (w : World) :
  forallb staticEntry D = true ->
  (List.length D < fuel)%nat ->
  exists contents gaps w',
    createFlyoutInfo_ fuel D w = (Return (contents, gaps), w')
    /\ map shape contents = flat_map requestedShape D
    /\ permanentlyDisabled_ w' = disabledIds contents
    /\ sameControls w w'.
Proof.
  intros Hstatic Hfuel. unfold createFlyoutInfo_.
  do 2 (erewrite bind_run by reflexivity).
  match goal with
  | |- context [createFlyoutInfo_loop _ _ _ _ _ ?d ?w0] =>
      destruct (createFlyoutInfo_loop_prefix D [] [] [] [] d w0 Hstatic)
        as (new & gaps & w' & Hloop & Hs & Hpd & Hc)
  end.
  cbn [app List.length Nat.add] in Hloop. rewrite app_nil_r in Hloop.
  replace fuel with (List.length D + S (fuel - List.length D - 1))%nat by lia.
  rewrite Hloop. cbn [createFlyoutInfo_loop].
  replace (nth_error D (List.length D)) with (@None ContentInfo)
    by (symmetry; apply nth_error_None; lia).
  exists new, gaps, w'. split; [reflexivity|]. split; [exact Hs|].
  split; [rewrite Hpd; reflexivity|].
  etransitivity; [|exact Hc]. destruct w; repeat split; reflexivity.
Qed.

(** X15: on a descriptor without dynamic categories whose block entries
    describe typed blocks and whose separators have a gap,
    [createFlyoutInfo_] returns the items in the order of the entries: for
    a block entry a block of the requested type, new or from the pool; for
    a label or button entry a button made from that entry, marked as label
    or not; nothing for other entries.  Parsing leaves the target
    workspace, the visibility flag, the listeners and the resize switch of
    the flyout workspace alone. *)
Theorem createFlyoutInfo_items (D : list ContentInfo) (fuel : nat) (w : World) :
  forallb staticEntry D = true ->
  (List.length D < fuel)%nat ->
  exists contents gaps w',
    createFlyoutInfo_ fuel D w = (Return (contents, gaps), w')
    /\ map shape contents = flat_map requestedShape D
    /\ sameControls w w'.
Proof.
  intros Hstatic Hfuel.
  destruct (createFlyoutInfo_static_run D fuel w Hstatic Hfuel)
    as (contents & gaps & w' & Hrun & Hs & _ & Hc).
  exists contents, gaps, w'. auto.
Qed.

Lemma createFlyoutInfo_items_witness :
  exists contents gaps w',
    createFlyoutInfo_ 4 [labelInfo "Numbers"; blockInfo "math_number";
                         sepInfo (Some (Js.VNum 8 eq_refl))] verticalFlyout
    = (Return (contents, gaps), w')
    /\ map shape contents
       = [ButtonFor (labelInfo "Numbers") true; BlockOfType (Some "math_number")].
Proof.
  destruct (createFlyoutInfo_items
              [labelInfo "Numbers"; blockInfo "math_number";
               sepInfo (Some (Js.VNum 8 eq_refl))] 4 verticalFlyout eq_refl)
    as (contents & gaps & w' & Hrun & Hs & _); [cbn; lia|].
  exists contents, gaps, w'. split; [exact Hrun|exact Hs].
Defined.

(** X16: after [createFlyoutInfo_] on such a descriptor the list of
    permanently disabled blocks holds exactly the disabled blocks among the
    returned items, in their order; what the list held before is gone. *)
Theorem createFlyoutInfo_records_disabled (D : list ContentInfo) (fuel : nat)
    (w : World) :
  forallb staticEntry D = true ->
  (List.length D < fuel)%nat ->
  exists contents gaps w',
    createFlyoutInfo_ fuel D w = (Return (contents, gaps), w')
    /\ permanentlyDisabled_ w' = disabledIds contents.
Proof.
  intros Hstatic Hfuel.
  destruct (createFlyoutInfo_static_run D fuel w Hstatic Hfuel)
    as (contents & gaps & w' & Hrun & _ & Hpd & _).
  exists contents, gaps, w'. auto.
Qed.

Lemma createFlyoutInfo_records_disabled_witness :
  exists contents gaps w',
    createFlyoutInfo_ 3 [blockInfo "a"; disabledBlockInfo] staleFlyout
    = (Return (contents, gaps), w')
    /\ permanentlyDisabled_ w' = disabledIds contents
    /\ disabledIds contents = [1%nat].
Proof.
  destruct (createFlyoutInfo_records_disabled [blockInfo "a"; disabledBlockInfo] 3
              staleFlyout eq_refl)
    as (contents & gaps & w' & Hrun & Hpd); [cbn; lia|].
  exists contents, gaps, w'. split; [exact Hrun|]. split; [exact Hpd|].
  vm_compute in Hrun. injection Hrun as <- _ _. reflexivity.
Defined.

(** X17: a dynamic category that resolves to no entry at all, standing at
    the end of a descriptor whose other entries are static, makes
    [createFlyoutInfo_] throw: after the replacement there is no entry at
    the index, and the [switch] reads the [kind] of undefined. *)
Theorem empty_category_at_end_throws (before : list ContentInfo)
    (ci : ContentInfo) (name : string) (fuel : nat) (w : World) :
  forallb staticEntry before = true ->
  custom ci = Some name ->
  toolboxCategoryCallbacks (targetWorkspace w) name = Some [] ->
  (List.length before < fuel)%nat ->
  exists w',
    createFlyoutInfo_ fuel (before ++ [ci]) w
    = (Throw (TypeError "Cannot read properties of undefined (reading 'kind')"),
       w').
Proof.
  intros Hstatic Hcustom Hcb Hfuel. unfold createFlyoutInfo_.
  do 2 (erewrite bind_run by reflexivity).
  match goal with
  | |- context [createFlyoutInfo_loop _ _ _ _ _ ?d ?w0] =>
      destruct (createFlyoutInfo_loop_prefix before [] [ci] [] [] d w0 Hstatic)
        as (new & gaps & w' & Hloop & _ & _ & Hc)
  end.
  cbn [app List.length Nat.add] in Hloop.
  replace fuel with (List.length before + S (fuel - List.length before - 1))%nat
    by lia.
  rewrite Hloop. cbn [createFlyoutInfo_loop].
  rewrite nth_error_middle. cbn [nth_error]. rewrite Hcustom.
  assert (Hcb' : toolboxCategoryCallbacks (targetWorkspace w') name = Some []).
  { destruct Hc as (-> & _). destruct w; exact Hcb. }
  erewrite bind_run.
  2:{ erewrite bind_run
        by (apply getDynamicCategoryContents_registered; exact Hcb').
      reflexivity. }
  rewrite splice_replace. cbn [app]. rewrite app_nil_r.
  replace (nth_error before (List.length before)) with (@None ContentInfo)
    by (symmetry; apply nth_error_None; lia).
  eexists. reflexivity.
Qed.

Lemma empty_category_at_end_throws_witness :
  exists w',
    createFlyoutInfo_ 2 ([blockInfo "a"] ++ [dynamicCategoryInfo "EMPTY"])
      emptyCategoryFlyout
    = (Throw (TypeError "Cannot read properties of undefined (reading 'kind')"),
       w').
Proof.
  apply (empty_category_at_end_throws [blockInfo "a"]
           (dynamicCategoryInfo "EMPTY") "EMPTY" 2 emptyCategoryFlyout);
    [reflexivity|reflexivity|reflexivity|cbn; lia].
Defined.

(** X18: a dynamic category whose expansion starts with an entry that is
    no dynamic category is handled as if its expansion stood in its place:
    from its index on, the loop runs as on the descriptor with the
    expansion inlined, in the world where the look-up is recorded.  For a
    category that is the first entry this holds of [createFlyoutInfo_]
    itself. *)
Theorem dynamic_category_inlined (before after rest : list ContentInfo)
    (ci first : ContentInfo) (name : string) (fuel : nat)
    (contents : list FlyoutItem) (gaps : list Z) (d : Z) (w : World) :
  custom ci = Some name ->
  toolboxCategoryCallbacks (targetWorkspace w) name = Some (first :: rest) ->
  custom first = None ->
  createFlyoutInfo_loop (S fuel) (before ++ ci :: after) (List.length before)
    contents gaps d w
  = createFlyoutInfo_loop (S fuel) (before ++ (first :: rest) ++ after)
      (List.length before) contents gaps d
      (set_callbackLookups (callbackLookups w ++ [name]) w)
  /\ createFlyoutInfo_ (S fuel) (ci :: after) w
     = createFlyoutInfo_ (S fuel) ((first :: rest) ++ after)
         (set_callbackLookups (callbackLookups w ++ [name]) w).
Proof.
  intros Hcustom Hcb Hfirst.
  assert (Hloop : forall before contents gaps d w,
             toolboxCategoryCallbacks (targetWorkspace w) name
             = Some (first :: rest) ->
             createFlyoutInfo_loop (S fuel) (before ++ ci :: after)
               (List.length before) contents gaps d w
             = createFlyoutInfo_loop (S fuel) (before ++ (first :: rest) ++ after)
                 (List.length before) contents gaps d
                 (set_callbackLookups (callbackLookups w ++ [name]) w)).
  { clear before contents gaps d w Hcb. intros before contents gaps d w Hcb.
    rewrite (createFlyoutInfo_loop_expansion fuel before after rest ci first name
               contents gaps d w Hcustom Hcb).
    cbn [createFlyoutInfo_loop].
    rewrite nth_error_middle. cbn [app nth_error]. rewrite Hfirst.
    unfold bind at 3. cbn [ret]. reflexivity. }
  split; [apply Hloop; exact Hcb|].
  unfold createFlyoutInfo_.
  do 2 (erewrite bind_run by reflexivity).
  symmetry. do 2 (erewrite bind_run by reflexivity). symmetry.
  match goal with
  | |- createFlyoutInfo_loop _ _ _ _ _ ?d ?w0 = _ =>
      pose proof (Hloop [] [] [] d w0) as H0
  end.
  cbn [app List.length] in H0. rewrite H0 by (destruct w; exact Hcb).
  destruct w; reflexivity.
Qed.

Lemma dynamic_category_inlined_witness :
  createFlyoutInfo_ 4 [dynamicCategoryInfo "C"; blockInfo "y"] flyoutWithCategories
  = createFlyoutInfo_ 4
      ([labelInfo "l"; dynamicCategoryInfo "B"] ++ [blockInfo "y"])
      (set_callbackLookups (callbackLookups flyoutWithCategories ++ ["C"])
         flyoutWithCategories).
Proof.
  exact (proj2 (dynamic_category_inlined [] [blockInfo "y"]
                  [dynamicCategoryInfo "B"] (dynamicCategoryInfo "C")
                  (labelInfo "l") "C" 3 [] [] 0 flyoutWithCategories
                  eq_refl eq_refl eq_refl)).
Defined.


(** ** Showing the flyout *)

Lemma sameControls_clearOldBlocks_ (policy : Block -> bool) :
  maintains sameControls (clearOldBlocks_ policy).
Proof.
  unfold clearOldBlocks_, recycleBlock_, moveTo, dispose.
  repeat maintains_step.
Qed.

Lemma sameControls_filterForCapacity_ : maintains sameControls filterForCapacity_.
Proof. unfold filterForCapacity_. repeat maintains_step. Qed.

Lemma sameControls_emptyRecycledBlocks_ :
  maintains sameControls emptyRecycledBlocks_.
Proof. unfold emptyRecycledBlocks_, dispose. repeat maintains_step. Qed.

Lemma hide_run (w : World) :
  exists w',
    hide w = (Return tt, w')
    /\ isVisible_ w' = false
    /\ listeners_ w' = (if isVisible_ w then 0%nat else listeners_ w)
    /\ workspace_ w' = workspace_ w
    /\ targetWorkspace w' = targetWorkspace w
    /\ recycledBlocks_ w' = recycledBlocks_ w
    /\ horizontalLayout w' = horizontalLayout w.
Proof.
  unfold hide, isVisible, setVisible.
  destruct w as [fw tw hl ac vis rw ls ms bs pd rb gx gy wd ht ev uid lk].
  destruct vis, rw; eexists; (split; [reflexivity|]); repeat split; reflexivity.
Qed.

(** [clearOldBlocks_] under any recycling policy. *)
Lemma clearOldBlocks_run (policy : Block -> bool) (w : World) :
  exists w',
    clearOldBlocks_ policy w = (Return tt, w')
    /\ recycledBlocks_ w'
       = recycledBlocks_ w
         ++ map (moved Coordinate.origin)
              (filter policy (topBlocks (workspace_ w)))
    /\ mats_ w' = []
    /\ buttons_ w' = []
    /\ sameControls w w'.
Proof.
  destruct (sameControls_clearOldBlocks_ policy w) as ([] & w' & Hrun & Hc).
  exists w'. split; [exact Hrun|].
  revert Hrun. unfold clearOldBlocks_. erewrite bind_run by reflexivity.
  destruct (forEach_recycle_or_dispose policy (topBlocks (workspace_ w)) w)
    as (w1 & Hrun1 & Hpool & _).
  erewrite bind_run by exact Hrun1.
  do 2 (erewrite bind_run by reflexivity).
  intros [= <-]. rewrite <- Hpool.
  split; [destruct w1; reflexivity|]. repeat split; try reflexivity; apply Hc.
Qed.

(** X19: [show] called with the name of a category for which no callback
    is registered throws only after it has hidden and emptied the flyout:
    the flyout is left not visible, without mats and buttons, its old
    blocks recycled or disposed of according to the subclass, and with the
    resizes of the flyout workspace still switched off.  No method of the
    subclass has run by then. *)
Theorem show_unknown_category_leaves_hidden
    (layout_ : list FlyoutItem -> list Z -> M unit)
    (reflowInternal_ position : M unit) (blockIsRecyclable_ : Block -> bool)
    (fuel : nat) (name : string) (w : World) :
  toolboxCategoryCallbacks (targetWorkspace w) name = None ->
  exists w',
    show layout_ reflowInternal_ position blockIsRecyclable_ fuel (DefName name) w
    = (Throw (TypeError
         "Couldn't find a callback function when opening a toolbox category."),
       w')
    /\ isVisible_ w' = false
    /\ mats_ w' = []
    /\ buttons_ w' = []
    /\ recycledBlocks_ w'
       = recycledBlocks_ w
         ++ map (moved Coordinate.origin)
              (filter blockIsRecyclable_ (topBlocks (workspace_ w)))
    /\ resizesEnabled (workspace_ w') = false.
Proof.
  intros Hcb. unfold show.
  erewrite bind_run by reflexivity.
  match goal with
  | |- context [bind hide _ ?w0] =>
      destruct (hide_run w0) as (w1 & Hrun1 & Hv1 & _ & Hws1 & Ht1 & Hp1 & _)
  end.
  erewrite bind_run by exact Hrun1.
  destruct (clearOldBlocks_run blockIsRecyclable_ w1)
    as (w2 & Hrun2 & Hp2 & Hm2 & Hb2 & (Ht2 & _ & Hv2 & _ & _ & _ & Hr2)).
  erewrite bind_run by exact Hrun2.
  unfold bind at 1.
  rewrite getDynamicCategoryContents_unregistered
    by (rewrite Ht2, Ht1; destruct w; exact Hcb).
  eexists. split; [reflexivity|].
  cbn [isVisible_ mats_ buttons_ recycledBlocks_ workspace_ set_callbackLookups].
  rewrite Hv2, Hv1, Hm2, Hb2, Hp2, Hp1, Hr2, Hws1.
  destruct w; repeat split; reflexivity.
Qed.

Lemma show_unknown_category_leaves_hidden_witness :
  exists w',
    showPlain true 3 (DefName "NONE") shownFlyout
    = (Throw (TypeError
         "Couldn't find a callback function when opening a toolbox category."),
       w')
    /\ isVisible_ w' = false
    /\ recycledBlocks_ w' = [moved Coordinate.origin shownBlock].
Proof.
  destruct (show_unknown_category_leaves_hidden
              (fun _ _ => ret tt) (ret tt) (ret tt) (fun _ => true) 3 "NONE"
              shownFlyout eq_refl)
    as (w' & Hrun & Hv & _ & _ & Hp & _).
  exists w'. split; [exact Hrun|]. split; [exact Hv|exact Hp].
Defined.

(** A layout made of the helpers of the base class returns, binds six
    listeners per block and one per button or label, and leaves the
    visibility flag and the resize switch alone. *)
Lemma layoutWithListeners_adds (contents : list FlyoutItem) (gaps : list Z) :
  forall w0,
  exists w1,
    layoutWithListeners contents gaps w0 = (Return tt, w1)
    /\ displayKept w0 w1
    /\ listeners_ w1 = (listeners_ w0 + layoutListeners contents)%nat.
Proof.
  unfold layoutWithListeners.
  induction contents as [|item rest IH]; intros w0; cbn [forEach layoutListeners fold_right].
  - exists w0. split; [reflexivity|]. split; [split; reflexivity|lia].
  - destruct item as [block|button].
    + erewrite bind_run by reflexivity.
      match goal with
      | |- context [forEach rest _ ?w] => destruct (IH w) as (w1 & Hrun & [Hv Hr] & Hl)
      end.
      exists w1. split; [exact Hrun|].
      fold (layoutListeners rest). split.
      * split; [rewrite Hv|rewrite Hr]; destruct w0; reflexivity.
      * rewrite Hl. destruct w0; cbn. lia.
    + unfold initFlyoutButton_.
      erewrite bind_run by (erewrite bind_run by reflexivity; reflexivity).
      match goal with
      | |- context [forEach rest _ ?w] => destruct (IH w) as (w1 & Hrun & [Hv Hr] & Hl)
      end.
      exists w1. split; [exact Hrun|].
      fold (layoutListeners rest). split.
      * split; [rewrite Hv|rewrite Hr]; destruct w0; reflexivity.
      * rewrite Hl. destruct w0; cbn. lia.
Qed.

(** X20: [show] on a flyout definition that is, or whose category name
    resolves to, a static descriptor, in a subclass whose layout returns,
    binds listeners for the items it is given and leaves the visibility
    flag and the resize switch of the flyout workspace alone, and whose
    reflow and positioning return and leave these and the listeners
    alone: [show] returns; the items handed to the layout are those the
    descriptor asks for, in order; the flyout is visible; the reflow
    listener is installed; the listeners are those that survived the
    hiding, those of the layout and one more; the resizes of the flyout
    workspace are switched on again; the recycle pool is empty. *)
Theorem show_static_opens
    (layout_ : list FlyoutItem -> list Z -> M unit)
    (reflowInternal_ position : M unit) (blockIsRecyclable_ : Block -> bool)
    (added : list FlyoutItem -> nat)
    (fuel : nat) (flyoutDef : FlyoutDefinition) (D : list ContentInfo)
    (w : World) :
  (forall contents gaps w0,
      exists w1,
        layout_ contents gaps w0 = (Return tt, w1)
        /\ displayKept w0 w1
        /\ listeners_ w1 = (listeners_ w0 + added contents)%nat) ->
  maintains displayAndListenersKept reflowInternal_ ->
  maintains displayAndListenersKept position ->
  resolvesTo w flyoutDef D ->
  forallb staticEntry D = true ->
  (List.length D < fuel)%nat ->
  exists contents w',
    show layout_ reflowInternal_ position blockIsRecyclable_ fuel flyoutDef w
    = (Return tt, w')
    /\ map shape contents = flat_map requestedShape D
    /\ isVisible_ w' = true
    /\ reflowWrapper_ w' = true
    /\ listeners_ w'
       = ((if isVisible_ w then 0 else listeners_ w) + added contents + 1)%nat
    /\ resizesEnabled (workspace_ w') = true
    /\ recycledBlocks_ w' = [].
Proof.
  intros Hlayout Hreflow Hposition Hres Hstatic Hfuel. unfold show, reflow.
  erewrite bind_run by reflexivity.
  match goal with
  | |- context [bind hide _ ?w0] =>
      destruct (hide_run w0) as (w1 & Hrun1 & _ & Hl1 & _ & Ht1 & _)
  end.
  erewrite bind_run by exact Hrun1.
  destruct (clearOldBlocks_run blockIsRecyclable_ w1)
    as (w2 & Hrun2 & _ & _ & _ & (Ht2 & _ & _ & Hl2 & _)).
  erewrite bind_run by exact Hrun2.
  cbn in Hl1, Ht1.
  assert (Hdef : exists w2',
             match flyoutDef with
             | DefName name => getDynamicCategoryContents_ name
             | DefArray l => ret l
             end w2 = (Return D, w2')
             /\ listeners_ w2' = listeners_ w2).
  { destruct flyoutDef as [l|name]; cbn in Hres.
    - subst l. exists w2. repeat split; reflexivity.
    - eexists. split.
      + apply getDynamicCategoryContents_registered.
        rewrite Ht2, Ht1. exact Hres.
      + destruct w2; reflexivity. }
  destruct Hdef as (w2' & Hrun2' & Hl2').
  erewrite bind_run by exact Hrun2'.
  erewrite bind_run by reflexivity.
  match goal with
  | |- context [bind (createFlyoutInfo_ _ _) _ ?w0] =>
      destruct (createFlyoutInfo_static_run D fuel w0 Hstatic Hfuel)
        as (contents & gaps & w3 & Hrun3 & Hshape & _
            & (_ & _ & Hv3 & Hl3 & _ & _ & Hr3))
  end.
  erewrite bind_run by exact Hrun3. cbn [fst snd].
  destruct (Hlayout contents gaps w3) as (w4 & Hrun4 & [Hv4 Hr4] & Hl4).
  erewrite bind_run by exact Hrun4.
  do 2 (erewrite bind_run by reflexivity).
  match goal with
  | |- context [bind (if ?c then modify ?f else modify ?g) _ ?w0] =>
      assert (Hsize : maintains sameControls (if c then modify f else modify g))
        by repeat maintains_step;
      destruct (Hsize w0) as ([] & w5 & Hrun5 & (_ & _ & Hv5 & Hl5 & _))
  end.
  erewrite bind_run by exact Hrun5.
  erewrite bind_run by reflexivity.
  match goal with
  | |- context [bind reflowInternal_ _ ?w0] =>
      destruct (Hreflow w0) as ([] & w6 & Hrun6 & ([Hv6 Hr6] & Hl6))
  end.
  erewrite bind_run by exact Hrun6.
  destruct (sameControls_filterForCapacity_ w6)
    as ([] & w7 & Hrun7 & (_ & _ & Hv7 & Hl7 & _ & _ & Hr7)).
  erewrite bind_run by exact Hrun7.
  destruct (Hposition w7) as ([] & w8 & Hrun8 & ([Hv8 Hr8] & Hl8)).
  erewrite bind_run by exact Hrun8.
  erewrite bind_run by reflexivity.
  match goal with
  | |- context [emptyRecycledBlocks_ ?w0] =>
      destruct (sameControls_emptyRecycledBlocks_ w0)
        as ([] & w9 & Hrun9 & (_ & _ & Hv9 & Hl9 & Hw9 & _ & Hr9))
  end.
  exists contents, w9. split; [exact Hrun9|]. split; [exact Hshape|].
  assert (Hpool : recycledBlocks_ w9 = []).
  { revert Hrun9. unfold emptyRecycledBlocks_.
    erewrite bind_run by reflexivity.
    erewrite bind_run by apply forEach_dispose.
    intros [= <-]. reflexivity. }
  cbn in Hv3, Hl3, Hr3, Hv5, Hl5, Hv6, Hl6, Hr6, Hv9, Hl9, Hw9, Hr9.
  split; [congruence|]. split; [congruence|].
  split; [|split; [congruence|exact Hpool]].
  rewrite Hl9, Hl8, Hl7, Hl6, Hl5, Hl4, Hl3, Hl2', Hl2, Hl1. lia.
Qed.

Lemma show_static_opens_witness :
  exists w',
    showWithListeners 3 (DefName "B") flyoutWithCategories = (Return tt, w')
    /\ isVisible_ w' = true
    /\ listeners_ w' = 7%nat
    /\ recycledBlocks_ w' = [].
Proof.
  destruct (show_static_opens layoutWithListeners (ret tt) (ret tt)
              (fun _ => false) layoutListeners 3 (DefName "B") [blockInfo "x"]
              flyoutWithCategories)
    as (contents & w' & Hrun & Hshape & Hv & _ & Hl & _ & Hp).
  - intros contents gaps w0. apply layoutWithListeners_adds.
  - intros w. exists tt, w. split; [reflexivity|]. repeat split; reflexivity.
  - intros w. exists tt, w. split; [reflexivity|]. repeat split; reflexivity.
  - reflexivity.
  - reflexivity.
  - cbn. lia.
  - exists w'. split; [exact Hrun|]. split; [exact Hv|]. split; [|exact Hp].
    destruct contents as [|[b|b] [|? ?]]; try discriminate Hshape.
    exact Hl.
Defined.


(** ** Gaps: further properties *)

(** X21: the gap that [addBlockGap_] appends is never 0 when the default
    gap is not 0, and the gaps already in the list are kept. *)
Theorem addBlockGap_never_zero (blockInfo : ContentInfo) (gaps : list Z)
    (defaultGap : Z) :
  defaultGap <> 0 ->
  exists g, addBlockGap_ blockInfo gaps defaultGap = gaps ++ [g] /\ g <> 0.
Proof.
  intros Hd. unfold addBlockGap_. eexists. split; [reflexivity|].
  match goal with
  | |- match ?gap with _ => _ end <> 0 =>
      destruct gap as [[|n]|]; try exact Hd
  end.
  destruct (n =? 0) eqn:E; [exact Hd|]. now apply Z.eqb_neq.
Qed.

Lemma addBlockGap_never_zero_witness :
  exists g, addBlockGap_ zeroGapWithXml [8] 24 = [8] ++ [g] /\ g <> 0.
Proof.
  apply (addBlockGap_never_zero zeroGapWithXml [8] 24). lia.
Defined.

(** X22: a block entry whose [gap] is a number that is a safe integer
    other than 0 gets exactly that gap, whatever the gap attribute of its
    [blockxml] says: such a number prints as its decimal numeral, which
    [parseInt] reads back. *)
Theorem addBlockGap_numeric_gap (blockInfo : ContentInfo) (n : Z)
    (safe : Js.isSafeInteger n = true) (gaps : list Z) (defaultGap : Z) :
  gap blockInfo = Some (Js.VNum n safe) ->
  n <> 0 ->
  addBlockGap_ blockInfo gaps defaultGap = gaps ++ [n].
Proof.
  intros Hg Hn. unfold addBlockGap_. rewrite Hg.
  unfold Js.VNum. cbn [Js.truthy Js.toString].
  apply Z.eqb_neq in Hn. rewrite Hn. cbn [negb].
  rewrite parseInt_toString, Hn. reflexivity.
Qed.

Lemma addBlockGap_numeric_gap_witness :
  addBlockGap_ (with_gap (Some (Js.VNum (-12) eq_refl)) zeroGapWithXml) [8] 24
  = [8] ++ [-12].
Proof.
  apply (addBlockGap_numeric_gap
           (with_gap (Some (Js.VNum (-12) eq_refl)) zeroGapWithXml)
           (-12) eq_refl [8] 24); [reflexivity|lia].
Defined.

(** Numbers that are no safe integers: 36.5 gives 36, 1e21 gives 1, 0.5
    and [NaN] give the default gap (the latter through [blockxml], whose
    gap attribute here is absent). *)
Example addBlockGap_other_numbers :
  addBlockGap_ (with_gap (Some (Js.VNumber true "36.5")) (blockInfo "a")) [] 24
  = [36]
  /\ addBlockGap_ (with_gap (Some (Js.VNumber true "1e+21")) (blockInfo "a")) [] 24
     = [1]
  /\ addBlockGap_ (with_gap (Some (Js.VNumber true "0.5")) (blockInfo "a")) [] 24
     = [24]
  /\ addBlockGap_ (with_gap (Some (Js.VNumber false "NaN")) (blockInfo "a")) [] 24
     = [24].
Proof. repeat split; reflexivity. Qed.



(** ** Visibility and display *)





(** X25: before [init] there is no scrollbar, and a call of [setVisible]
    or [setContainerVisible] that changes its flag throws a TypeError in
    [updateDisplay_]; by then the flag is set and the display style of the
    element is updated.  A call that does not change its flag returns and
    changes nothing.  After [init], the first call that changes a flag
    makes display and scrollbar agree with the flags, whatever the
    scrollbar's own setting was. *)
Theorem setVisible_before_init_throws (visible autoclose scrollbarSetting : bool) :
  Display.setVisible visible (Display.created autoclose)
  = (if visible
     then (Display.ThrowsTypeError,
           Display.mk true true autoclose (Some true) None
             (if autoclose then 0 else 1))
     else (Display.Returns, Display.created autoclose))
  /\ Display.setContainerVisible visible (Display.created autoclose)
     = (if visible
        then (Display.Returns, Display.created autoclose)
        else (Display.ThrowsTypeError,
              Display.mk false false autoclose (Some false) None 0))
  /\ Display.setVisible true (Display.initialised autoclose scrollbarSetting)
     = (Display.Returns, Display.opened autoclose scrollbarSetting)
  /\ Display.consistent (Display.opened autoclose scrollbarSetting).
Proof.
  split; [destruct visible, autoclose; reflexivity|].
  split; [destruct visible, autoclose; reflexivity|].
  destruct autoclose, scrollbarSetting;
    (split; [reflexivity|split; reflexivity]).
Qed.
